(** * Knowledge Window: the client-side real-time synchronisation layer

    A shallow embedding of the TypeScript sources

    - [frontend/src/hooks/useSecureWebSocket.ts] (both hooks it holds:
      [useSecureWebSocket] and the registry hook [useWebSocket]),
    - [frontend/src/utils/websocketClient.ts] ([WebSocketClient]),
    - the provider's [handleMessage] (held in [components/UrlInput.tsx]),
    - [types/websocket] ([createWebSocketMessage], held in
      [contexts/ThemeContext.tsx]),
    - [utils/security] ([SecurityUtils]: [encrypt] / [decrypt],
      [sanitizeInput], [validateFileType], [encryptData] / [decryptData],
      [secureStore], [session] and [websocket]),
    - [components/WorkflowBuilder/NodePreviewHandler.tsx] and
      [components/WorkflowBuilder/DragDropCanvas.tsx] (the node list, the
      preview data, and the cells for selection, connecting and zoom).

    React refs and state cells become fields of a state record, every
    callback becomes a function on that record, and the browser's events
    (a socket opens, closes, delivers a frame, a timer fires) become the
    constructors of an event type.  JavaScript numbers are IEEE binary64
    values and are carried by Rocq's primitive floats, so [1000 * 1.5] is
    the very computation the browser performs. *)

From Stdlib Require Import Floats ZArith List String.
From stdpp Require Import base option list strings gmap.

Set Warnings "-register-all".
Open Scope string_scope.

(** ** JavaScript values and completions *)

Module Js.

(** The values [JSON.parse] can return.  [undefined] is not one of them; a
    property that may be missing is an [option value], [None] standing for
    [undefined].  An object is the list of its own properties in the order
    JavaScript enumerates them, each key once. *)
Inductive value : Type :=
| Null
| Bool (b : bool)
| Num (n : float)
| Str (s : string)
| Arr (items : list value)
| Obj (fields : list (string * value)).

(** How a piece of code ends: normally, or by throwing. *)
Inductive completion (A : Type) : Type :=
| Normal (a : A)
| Throw (e : string).
Arguments Normal {A} a.
Arguments Throw {A} e.

(** Own property of an object literal, by key. *)
Fixpoint assoc (k : string) (fields : list (string * value)) : option value :=
  match fields with
  | [] => None
  | (k', v) :: rest => if String.eqb k k' then Some v else assoc k rest
  end.

(** [v.k] for the property names this code reads ([type], [payload],
    [nodeId], [error], [data]): reading a property of [null] or [undefined]
    throws a [TypeError]; primitives and arrays have no such property. *)
Definition get (v : option value) (k : string) : completion (option value) :=
  match v with
  | None | Some Null => Throw "TypeError"
  | Some (Obj fields) => Normal (assoc k fields)
  | Some _ => Normal None
  end.

(** [!!v]. *)
Definition truthy (v : option value) : bool :=
  match v with
  | None | Some Null => false
  | Some (Bool b) => b
  | Some (Num n) => negb (PrimFloat.eqb n 0 || PrimFloat.is_nan n)
  | Some (Str s) => negb (String.eqb s "")
  | Some (Arr _) | Some (Obj _) => true
  end.

(** [v === s] for a string [s]. *)
Definition is_string (v : option value) (s : string) : bool :=
  match v with
  | Some (Str t) => String.eqb t s
  | _ => false
  end.

(** [Math.min] on two numbers. *)
Definition Math_min (a b : float) : float :=
  if PrimFloat.is_nan a || PrimFloat.is_nan b then PrimFloat.nan
  else if PrimFloat.ltb a b then a
  else if PrimFloat.ltb b a then b
  else if PrimFloat.get_sign a then a else b.

(** [JSON.stringify] and [JSON.parse] of the JavaScript runtime;
    [JSON.parse] throws a [SyntaxError] where [JSON_parse] gives [None]. *)
Class JSON : Type := {
  JSON_stringify : value -> string;
  JSON_parse : string -> option value
}.

(** What reaches the console. *)
Inductive LogEntry : Type :=
| ConsoleError (label : string) (detail : option value)
| ConsoleLog (label : string) (detail : option value).

End Js.

(** ** The browser's WebSocket object

    Modelled from the WebSocket API (the standard, not repository code):
    the four ready states, [send] and [close]. *)

Module WebSocket.

Inductive ReadyState : Type := CONNECTING | OPEN | CLOSING | CLOSED.

Definition ReadyState_eqb (a b : ReadyState) : bool :=
  match a, b with
  | CONNECTING, CONNECTING | OPEN, OPEN | CLOSING, CLOSING | CLOSED, CLOSED => true
  | _, _ => false
  end.

(** A socket object: its state and the frames it has put on the wire. *)
Record Socket : Type := mkSocket {
  url : string;
  readyState : ReadyState;
  sent : list string
}.

(** [new WebSocket(url)]. *)
Definition create (u : string) : Socket :=
  {| url := u; readyState := CONNECTING; sent := [] |}.

(** [socket.send(msg)]: throws while connecting, transmits when open, and
    discards the data without an exception once closing or closed. *)
Definition send (msg : string) (k : Socket) : Js.completion Socket :=
  match readyState k with
  | CONNECTING => Js.Throw "InvalidStateError"
  | OPEN => Js.Normal {| url := url k; readyState := OPEN; sent := sent k ++ [msg] |}
  | CLOSING | CLOSED => Js.Normal k
  end.

(** [socket.close()]. *)
Definition close (k : Socket) : Socket :=
  match readyState k with
  | CONNECTING | OPEN => {| url := url k; readyState := CLOSING; sent := sent k |}
  | CLOSING | CLOSED => k
  end.

Definition set_readyState (r : ReadyState) (k : Socket) : Socket :=
  {| url := url k; readyState := r; sent := sent k |}.

Definition is_open (k : option Socket) : bool :=
  match k with
  | Some k => ReadyState_eqb (readyState k) OPEN
  | None => false
  end.

End WebSocket.

(** ** The registry hook [useWebSocket] (hooks/useWebSocket) *)

Module useWebSocket.

#[local] Set Primitive Projections.

Definition INITIAL_RETRY_DELAY : float := 1000.
Definition MAX_RETRY_DELAY : float := 30000.
Definition RETRY_MULTIPLIER : float := 1.5.

(** A timer set by [setTimeout(connect, delay)]. *)
Record Timer : Type := mkTimer {
  delay : float;
  pending : bool
}.

(** [sendMessage] takes [string | object]. *)
Inductive Message : Type :=
| Text (s : string)
| Object (v : Js.value).

(** The refs and state cells of one hook instance, with the browser objects
    they point to.  [sockets] holds every [WebSocket] the hook has created
    (a socket that [ws.current] no longer points to stays alive and keeps
    the handlers [connect] attached to it); [ws] is [ws.current], an index
    into [sockets]; handlers are function references, here numbers. *)
Record State : Type := mkState {
  hookUrl : string;
  urlAccepted : bool;
  sockets : list WebSocket.Socket;
  ws : option nat;
  isConnected : bool;
  error : option string;
  reconnectTimeout : option nat;
  timers : list Timer;
  messageQueue : list string;
  eventHandlers : gmap string (list nat);
  retryDelay : float;
  console : list Js.LogEntry;
  uncaught : list string
}.

Definition set_sockets (v : list WebSocket.Socket) (s : State) : State :=
  let 'mkState u ok _ w ic er rt tm q eh rd co un := s in
  mkState u ok v w ic er rt tm q eh rd co un.
Definition set_ws (v : option nat) (s : State) : State :=
  let 'mkState u ok ss _ ic er rt tm q eh rd co un := s in
  mkState u ok ss v ic er rt tm q eh rd co un.
Definition set_isConnected (v : bool) (s : State) : State :=
  let 'mkState u ok ss w _ er rt tm q eh rd co un := s in
  mkState u ok ss w v er rt tm q eh rd co un.
Definition set_error (v : option string) (s : State) : State :=
  let 'mkState u ok ss w ic _ rt tm q eh rd co un := s in
  mkState u ok ss w ic v rt tm q eh rd co un.
Definition set_reconnectTimeout (v : option nat) (s : State) : State :=
  let 'mkState u ok ss w ic er _ tm q eh rd co un := s in
  mkState u ok ss w ic er v tm q eh rd co un.
Definition set_timers (v : list Timer) (s : State) : State :=
  let 'mkState u ok ss w ic er rt _ q eh rd co un := s in
  mkState u ok ss w ic er rt v q eh rd co un.
Definition set_messageQueue (v : list string) (s : State) : State :=
  let 'mkState u ok ss w ic er rt tm _ eh rd co un := s in
  mkState u ok ss w ic er rt tm v eh rd co un.
Definition set_eventHandlers (v : gmap string (list nat)) (s : State) : State :=
  let 'mkState u ok ss w ic er rt tm q _ rd co un := s in
  mkState u ok ss w ic er rt tm q v rd co un.
Definition set_retryDelay (v : float) (s : State) : State :=
  let 'mkState u ok ss w ic er rt tm q eh _ co un := s in
  mkState u ok ss w ic er rt tm q eh v co un.
Definition set_console (v : list Js.LogEntry) (s : State) : State :=
  let 'mkState u ok ss w ic er rt tm q eh rd _ un := s in
  mkState u ok ss w ic er rt tm q eh rd v un.
Definition set_uncaught (v : list string) (s : State) : State :=
  let 'mkState u ok ss w ic er rt tm q eh rd co _ := s in
  mkState u ok ss w ic er rt tm q eh rd co v.

Definition log (e : Js.LogEntry) (s : State) : State :=
  set_console (console s ++ [e]) s.

(** The state of a freshly rendered hook, before its effect runs. *)
Definition initial (u : string) (ok : bool) : State :=
  mkState u ok [] None false None None [] [] ∅ INITIAL_RETRY_DELAY [] [].

(** The object [ws.current] points to. *)
Definition current (s : State) : option WebSocket.Socket :=
  match ws s with
  | Some i => sockets s !! i
  | None => None
  end.

(** Every frame the hook's sockets have put on the wire, socket by socket. *)
Definition transmitted (s : State) : list string :=
  concat (map WebSocket.sent (sockets s)).

(** [connect]. *)
Definition connect (s : State) : State :=
  if WebSocket.is_open (current s) then s
  else if urlAccepted s then
    set_ws (Some (length (sockets s)))
      (set_sockets (sockets s ++ [WebSocket.create (hookUrl s)]) s)
  else
    log (Js.ConsoleError "WebSocket connection error:" (Some (Js.Str "SyntaxError")))
      (set_error (Some "Failed to establish WebSocket connection") s).

(** [ws.current?.send(msg)]: the state afterwards, and the exception if
    [send] threw. *)
Definition send_current (msg : string) (s : State) : State * option string :=
  match ws s with
  | None => (s, None)
  | Some i =>
    match sockets s !! i with
    | None => (s, None)
    | Some k =>
      match WebSocket.send msg k with
      | Js.Normal k' => (set_sockets (<[i := k']> (sockets s)) s, None)
      | Js.Throw e => (s, Some e)
      end
    end
  end.

(** [messageQueue.current.forEach(msg => ws.current?.send(msg))]: an
    exception leaves the loop at once. *)
Fixpoint forEach_send (q : list string) (s : State) : State * option string :=
  match q with
  | [] => (s, None)
  | msg :: rest =>
    match send_current msg s with
    | (s', None) => forEach_send rest s'
    | (s', Some e) => (s', Some e)
    end
  end.

(** The [onopen] handler [connect] attaches to each socket it creates.  An
    exception thrown by the flush leaves the handler before the queue is
    reset. *)
Definition onopen (s : State) : State :=
  let s1 := set_retryDelay INITIAL_RETRY_DELAY
              (set_error None (set_isConnected true s)) in
  match forEach_send (messageQueue s1) s1 with
  | (s2, None) => set_messageQueue [] s2
  | (s2, Some e) => set_uncaught (uncaught s2 ++ [e]) s2
  end.

(** [setTimeout(connect, d)], its id kept in [reconnectTimeout.current]. *)
Definition setTimeout_connect (d : float) (s : State) : State :=
  set_reconnectTimeout (Some (length (timers s)))
    (set_timers (timers s ++ [mkTimer d true]) s).

(** The [onclose] handler. *)
Definition onclose (wasClean : bool) (s : State) : State :=
  let s1 := set_isConnected false s in
  if wasClean then s1
  else
    let delay := Js.Math_min (retryDelay s1 * RETRY_MULTIPLIER)%float MAX_RETRY_DELAY in
    setTimeout_connect delay (set_retryDelay delay s1).

(** The delay [onclose] computes from the value of [retryDelay.current]. *)
Definition next_delay (d : float) : float :=
  Js.Math_min (d * RETRY_MULTIPLIER)%float MAX_RETRY_DELAY.

(** The [onerror] handler. *)
Definition onerror (s : State) : State :=
  log (Js.ConsoleError "WebSocket error:" None)
    (set_error (Some "WebSocket connection error") s).

(** [ws.current.close()] when [ws.current] is set. *)
Definition close_current (s : State) : State :=
  match ws s with
  | Some i => set_sockets (alter WebSocket.close i (sockets s)) s
  | None => s
  end.

(** [reconnect]. *)
Definition reconnect (s : State) : State :=
  connect (set_retryDelay INITIAL_RETRY_DELAY (close_current s)).

(** [clearTimeout(id)]. *)
Definition clearTimeout (t : nat) (s : State) : State :=
  set_timers (alter (fun tm => mkTimer (delay tm) false) t (timers s)) s.

(** The clean-up of the hook's effect. *)
Definition cleanup (s : State) : State :=
  let s1 := match reconnectTimeout s with
            | Some t => clearTimeout t s
            | None => s
            end in
  close_current s1.

(** Adding to a JavaScript [Set], which iterates in insertion order. *)
Definition Set_add (h : nat) (l : list nat) : list nat :=
  if decide (h ∈ l) then l else l ++ [h].

(** [Set.prototype.delete]. *)
Definition Set_delete (h : nat) (l : list nat) : list nat :=
  filter (fun x => x ≠ h) l.

(** [on(type, handler)]. *)
Definition on (type : string) (handler : nat) (s : State) : State :=
  let handlers := default [] (eventHandlers s !! type) in
  set_eventHandlers (<[type := Set_add handler handlers]> (eventHandlers s)) s.

(** [off(type, handler)]. *)
Definition off (type : string) (handler : nat) (s : State) : State :=
  match eventHandlers s !! type with
  | Some handlers =>
    set_eventHandlers (<[type := Set_delete handler handlers]> (eventHandlers s)) s
  | None => s
  end.

(** The handlers in the [Set] kept under [type], in iteration order; none
    when there is no such [Set]. *)
Definition registered (type : string) (s : State) : list nat :=
  default [] (eventHandlers s !! type).

(** [eventHandlers.current.get(message.type)]: the keys are strings, so a
    type that is not a string finds nothing. *)
Definition handlers_get (type : option Js.value) (s : State) : option (list nat) :=
  match type with
  | Some (Js.Str t) => eventHandlers s !! t
  | _ => None
  end.

(** The string a template literal gives for [message.type]; only reached
    with a type under which handlers are registered, that is, a string. *)
Definition type_text (type : option Js.value) : string :=
  match type with
  | Some (Js.Str t) => t
  | _ => ""
  end.

Section Runtime.

Context {json : Js.JSON}.

(** What the registered handlers do: handler [h] called with a payload
    changes the application's state of type [A] and may throw. *)
Variable A : Type.
Variable handler_body : nat -> option Js.value -> A -> A * option string.

(** The application's side of a dispatch: its state, and the calls made so
    far (handler and argument), oldest first. *)
Record World : Type := mkWorld {
  app : A;
  calls : list (nat * option Js.value)
}.

(** [typeof message === 'string' ? message : JSON.stringify(message)]. *)
Definition text_of (message : Message) : string :=
  match message with
  | Text t => t
  | Object v => Js.JSON_stringify v
  end.

(** [sendMessage].  With a string or a [JSON] value as message nothing in
    the [try] block throws unless [send] does. *)
Definition sendMessage (message : Message) (s : State) : State :=
  let messageStr := text_of message in
  if WebSocket.is_open (current s) then
    match send_current messageStr s with
    | (s', None) => s'
    | (s', Some e) =>
      set_error (Some "Failed to send message")
        (log (Js.ConsoleError "Error sending message:" (Some (Js.Str e))) s')
    end
  else
    let s1 := set_messageQueue (messageQueue s ++ [messageStr]) s in
    if isConnected s1 then s1 else connect s1.

(** What the [catch] around a handler writes to the console. *)
Definition handler_error (type e : string) : Js.LogEntry :=
  Js.ConsoleError ("Error in message handler for type " ++ type ++ ":")
    (Some (Js.Str e)).

(** [handlers.forEach(handler => { try { handler(message.payload) } catch
    (error) { console.error(...) } })]. *)
Fixpoint forEach_handler (type : string) (payload : option Js.value)
    (handlers : list nat) (sw : State * World) : State * World :=
  match handlers with
  | [] => sw
  | h :: rest =>
    let '(s, w) := sw in
    let '(a', thrown) := handler_body h payload (app w) in
    let w' := mkWorld a' (calls w ++ [(h, payload)]) in
    let s' := match thrown with
              | Some e => log (handler_error type e) s
              | None => s
              end in
    forEach_handler type payload rest (s', w')
  end.

(** The exceptions the handlers of a [forEach] throw, in order. *)
Fixpoint thrown_by (payload : option Js.value) (handlers : list nat) (a : A)
    : list string :=
  match handlers with
  | [] => []
  | h :: rest =>
    let '(a', thrown) := handler_body h payload a in
    match thrown with
    | Some e => e :: thrown_by payload rest a'
    | None => thrown_by payload rest a'
    end
  end.

(** The body of the [try] block of [onmessage] once [JSON.parse] has
    returned [message]: the type guard and the dispatch loop.  What is
    thrown outside a handler reaches the outer [catch]. *)
Definition dispatch (message : Js.value) (sw : State * World) : State * World :=
  let '(s, w) := sw in
  match Js.get (Some message) "type" with
  | Js.Throw e =>
    (log (Js.ConsoleError "Error parsing WebSocket message:" (Some (Js.Str e))) s, w)
  | Js.Normal type =>
    if negb (Js.truthy type) then
      (log (Js.ConsoleError "Invalid message format: missing type" None) s, w)
    else
      match handlers_get type s with
      | Some handlers =>
        match Js.get (Some message) "payload" with
        | Js.Normal payload =>
          forEach_handler (type_text type) payload handlers (s, w)
        | Js.Throw e =>
          (log (Js.ConsoleError "Error parsing WebSocket message:" (Some (Js.Str e))) s, w)
        end
      | None => (s, w)
      end
  end.

(** The [onmessage] handler. *)
Definition onmessage (data : string) (sw : State * World) : State * World :=
  match Js.JSON_parse data with
  | None =>
    (log (Js.ConsoleError "Error parsing WebSocket message:" (Some (Js.Str "SyntaxError")))
       (fst sw), snd sw)
  | Some message => dispatch message sw
  end.

(** What can happen to a mounted hook: the effect runs or is cleaned up,
    the browser reports on socket [i], timer [t] fires, or the component
    calls one of the functions the hook returned. *)
Inductive Event : Type :=
| Mount
| Unmount
| SocketOpen (i : nat)
| SocketClose (i : nat) (wasClean : bool)
| SocketError (i : nat)
| TimerFires (t : nat)
| CallSendMessage (m : Message)
| CallOn (type : string) (handler : nat)
| CallOff (type : string) (handler : nat)
| CallReconnect.

(** One event; [None] when the browser cannot raise it in this state (only
    a connecting socket opens, a closed socket does not close again, only a
    pending timer fires). *)
Definition step (e : Event) (s : State) : option State :=
  match e with
  | Mount => Some (connect s)
  | Unmount => Some (cleanup s)
  | SocketOpen i =>
    match sockets s !! i with
    | Some k =>
      match WebSocket.readyState k with
      | WebSocket.CONNECTING =>
        Some (onopen (set_sockets
                        (<[i := WebSocket.set_readyState WebSocket.OPEN k]> (sockets s)) s))
      | _ => None
      end
    | None => None
    end
  | SocketClose i wasClean =>
    match sockets s !! i with
    | Some k =>
      match WebSocket.readyState k with
      | WebSocket.CLOSED => None
      | _ =>
        Some (onclose wasClean
                (set_sockets
                   (<[i := WebSocket.set_readyState WebSocket.CLOSED k]> (sockets s)) s))
      end
    | None => None
    end
  | SocketError i =>
    match sockets s !! i with
    | Some _ => Some (onerror s)
    | None => None
    end
  | TimerFires t =>
    match timers s !! t with
    | Some tm =>
      if pending tm
      then Some (connect (set_timers (<[t := mkTimer (delay tm) false]> (timers s)) s))
      else None
    | None => None
    end
  | CallSendMessage m => Some (sendMessage m s)
  | CallOn type h => Some (on type h s)
  | CallOff type h => Some (off type h s)
  | CallReconnect => Some (reconnect s)
  end.

(** A sequence of events, oldest first. *)
Fixpoint run (es : list Event) (s : State) : option State :=
  match es with
  | [] => Some s
  | e :: rest =>
    match step e s with
    | Some s' => run rest s'
    | None => None
    end
  end.

(** The texts handed to [sendMessage] in a sequence of events, in call
    order. *)
Definition texts (es : list Event) : list string :=
  flat_map (fun e => match e with
                     | CallSendMessage m => [text_of m]
                     | _ => []
                     end) es.

End Runtime.

Arguments mkWorld {A} app calls.
Arguments app {A} w.
Arguments calls {A} w.

(** [ws.current] is the socket created last. *)
Definition ws_is_last (s : State) : Prop :=
  match ws s with
  | Some i => S i = length (sockets s)
  | None => sockets s = []
  end.

(** No message waits while the socket [ws.current] points to is open. *)
Definition queue_empty_while_open (s : State) : Prop :=
  WebSocket.is_open (current s) = true -> messageQueue s = [].

(** [retryDelay.current] and the delays of the timers set so far. *)
Definition delay_view (s : State) : float * list float :=
  (retryDelay s, map delay (timers s)).

(** The values [retryDelay.current] takes: the initial delay advanced by
    up to nine unclean closes; the tenth leaves it at the maximum. *)
Definition delays : list float :=
  [1000; 1500; 2250; 3375; 5062.5; 7593.75; 11390.625; 17085.9375;
   25628.90625; 30000]%float.

End useWebSocket.

(** ** The message envelope (types/websocket) *)

Module Envelope.

Inductive WebSocketMessageType : Type :=
| WORKFLOW_UPDATE
| NODE_UPDATE
| PREVIEW_REQUEST
| PREVIEW_UPDATE
| ERROR
| DOCUMENT_PROCESS
| URL_PROCESS
| NOTION_PROCESS
| CONFLUENCE_PROCESS.

(** The string each member of the enum stands for at run time. *)
Definition enum_value (t : WebSocketMessageType) : string :=
  match t with
  | WORKFLOW_UPDATE => "workflow_update"
  | NODE_UPDATE => "node_update"
  | PREVIEW_REQUEST => "preview_request"
  | PREVIEW_UPDATE => "preview_update"
  | ERROR => "error"
  | DOCUMENT_PROCESS => "document_process"
  | URL_PROCESS => "url_process"
  | NOTION_PROCESS => "notion_process"
  | CONFLUENCE_PROCESS => "confluence_process"
  end.

Record WebSocketMessage : Type := mkMessage {
  type : WebSocketMessageType;
  payload : Js.value;
  timestamp : float;
  sessionId : option string
}.

(** [createWebSocketMessage(type, payload, sessionId)]; [now] is what
    [Date.now()] returns at the call. *)
Definition createWebSocketMessage (type : WebSocketMessageType)
    (payload : Js.value) (sessionId : option string) (now : float) : WebSocketMessage :=
  {| type := type; payload := payload; timestamp := now; sessionId := sessionId |}.

(** The object as [JSON.stringify] reads it: the properties in the order
    of the literal, a property whose value is [undefined] left out. *)
Definition to_value (m : WebSocketMessage) : Js.value :=
  Js.Obj
    ([("type", Js.Str (enum_value (type m)));
      ("payload", payload m);
      ("timestamp", Js.Num (timestamp m))]
     ++ match sessionId m with
        | Some sid => [("sessionId", Js.Str sid)]
        | None => []
        end).

End Envelope.

(** ** [SecurityUtils.encrypt] and [SecurityUtils.decrypt] (utils/security) *)

Module SecurityUtils.

(** The part of the CryptoJS library the two methods call.  Encryption
    under a passphrase draws a random salt, here an argument. *)
Class CryptoJS : Type := {
  Salt : Type;
  CipherParams : Type;
  WordArray : Type;
  AES_encrypt : string -> string -> Salt -> CipherParams;
  CipherParams_toString : CipherParams -> string;
  AES_decrypt : string -> string -> WordArray;
  (** [wordArray.toString(CryptoJS.enc.Utf8)]; [None] where it throws
      [Malformed UTF-8 data]. *)
  Utf8_stringify : WordArray -> option string
}.

Section Methods.

Context {crypto : CryptoJS}.

(** [encrypt(data, key)]. *)
Definition encrypt (data key : string) (salt : Salt) : string :=
  CipherParams_toString (AES_encrypt data key salt).

(** [decrypt(encryptedData, key)]. *)
Definition decrypt (encryptedData key : string) : Js.completion string :=
  let bytes := AES_decrypt encryptedData key in
  match Utf8_stringify bytes with
  | Some text => Js.Normal text
  | None => Js.Throw "Malformed UTF-8 data"
  end.

End Methods.

(** *** [sanitizeInput]

    The regular expressions and [trim] look at single UTF-16 code units,
    so here a string is the list of its code units.  Without the [u] flag
    the [i] flag only identifies an ASCII letter with its other case, and
    [\w] is [[A-Za-z0-9_]]. *)

(** The code units of a text of ASCII characters. *)
Definition code_units (s : string) : list N :=
  map Ascii.N_of_ascii (list_ascii_of_string s).

(** A pattern character against an input character under the [i] flag. *)
Definition matches_ignoring_case (p c : N) : bool :=
  (c =? p)%N
  || ((97 <=? p)%N && (p <=? 122)%N && (c =? p - 32)%N)
  || ((65 <=? p)%N && (p <=? 90)%N && (c =? p + 32)%N).

(** [\w]. *)
Definition word_character (c : N) : bool :=
  ((48 <=? c)%N && (c <=? 57)%N) || ((65 <=? c)%N && (c <=? 90)%N)
  || (c =? 95)%N || ((97 <=? c)%N && (c <=? 122)%N).

(** What [trim] strips: the WhiteSpace and LineTerminator code points. *)
Definition white_space (c : N) : bool :=
  ((9 <=? c)%N && (c <=? 13)%N) || (c =? 32)%N || (c =? 160)%N || (c =? 5760)%N
  || ((8192 <=? c)%N && (c <=? 8202)%N) || (c =? 8232)%N || (c =? 8233)%N
  || (c =? 8239)%N || (c =? 8287)%N || (c =? 12288)%N || (c =? 65279)%N.

(** Does the input start with the pattern, letters compared without
    case? *)
Fixpoint starts_with (pattern input : list N) : bool :=
  match pattern, input with
  | [], _ => true
  | _ :: _, [] => false
  | p :: pattern', c :: input' => matches_ignoring_case p c && starts_with pattern' input'
  end.

(** Does the pattern occur somewhere in the input, letters compared
    without case? *)
Fixpoint occurs (pattern input : list N) : bool :=
  starts_with pattern input
  || match input with
     | _ :: rest => occurs pattern rest
     | [] => false
     end.

(** The length of the match of [/javascript:/i] at the start of the
    input, if there is one. *)
Definition match_javascript (input : list N) : option nat :=
  if starts_with (code_units "javascript:") input then Some 11 else None.

(** The longest run of word characters at the start of the input. *)
Fixpoint word_run (input : list N) : nat :=
  match input with
  | c :: input' => if word_character c then S (word_run input') else 0
  | [] => 0
  end.

(** The length of the match of [/on\w+=/i] at the start of the input, if
    there is one.  [=] is no word character, so the match takes the whole
    run of word characters after [on] and needs [=] right after it. *)
Definition match_on_handler (input : list N) : option nat :=
  match input with
  | o :: n :: rest =>
    if matches_ignoring_case 111 o && matches_ignoring_case 110 n then
      match word_run rest, List.nth_error rest (word_run rest) with
      | S run, Some c => if (c =? 61)%N then Some (2 + S run + 1) else None
      | _, _ => None
      end
    else None
  | _ => None
  end.

(** [input.replace(regexp, '')] for a global regular expression whose
    matches are never empty: the input is scanned from the left; at a
    match its characters are dropped and the scan goes on behind it,
    elsewhere the character is kept.  [skip] counts the characters of the
    current match still to drop. *)
Fixpoint remove_matches (match_length : list N -> option nat) (skip : nat)
    (input : list N) : list N :=
  match input with
  | [] => []
  | c :: rest =>
    match skip with
    | S skip' => remove_matches match_length skip' rest
    | O =>
      match match_length input with
      | Some (S skip') => remove_matches match_length skip' rest
      | _ => c :: remove_matches match_length 0 rest
      end
    end
  end.

(** [trim]: white space is dropped at the start and at the end. *)
Fixpoint trim_start (input : list N) : list N :=
  match input with
  | c :: rest => if white_space c then trim_start rest else input
  | [] => []
  end.

Fixpoint trim_end (input : list N) : list N :=
  match input with
  | c :: rest =>
    match trim_end rest with
    | [] => if white_space c then [] else [c]
    | rest' => c :: rest'
    end
  | [] => []
  end.

Definition trim (input : list N) : list N := trim_end (trim_start input).

(** [sanitizeInput(input)]. *)
Definition sanitizeInput (input : list N) : list N :=
  trim
    (remove_matches match_on_handler 0
       (remove_matches match_javascript 0
          (List.filter (fun c => negb ((c =? 60)%N || (c =? 62)%N)) input))).

(** *** [validateFileType] *)

(** [haystack.includes(needle)]. *)
Fixpoint includes (haystack needle : string) : bool :=
  String.prefix needle haystack
  || match haystack with
     | String _ rest => includes rest needle
     | EmptyString => false
     end.

(** [validateFileType(file, allowedTypes)]; [fileType] is [file.type] and
    [toLowerCase] the method of the runtime. *)
Definition validateFileType (toLowerCase : string -> string) (fileType : string)
    (allowedTypes : list string) : bool :=
  existsb (fun type => includes (toLowerCase fileType) type) allowedTypes.

(** *** [encryptData], [decryptData], [secureStore], [session] and
    [websocket] *)

(** The part of CryptoJS these methods call.  Key, salt and
    initialisation vector are word arrays. *)
Class CryptoJSWords : Type := {
  Words : Type;
  (** [wordArray.toString()], the hexadecimal text. *)
  Hex_stringify : Words -> string;
  (** [CryptoJS.enc.Hex.parse(v)] for whatever value it is handed; it
      throws on [undefined] and [null]. *)
  Hex_parse : option Js.value -> Js.completion Words;
  (** [CryptoJS.PBKDF2(password, salt, { keySize, iterations })]. *)
  PBKDF2 : string -> string -> Z -> Z -> Words;
  (** [CryptoJS.AES.encrypt(text, key, { iv, padding: Pkcs7, mode: CBC
      }).toString()]. *)
  AES_CBC_encrypt : string -> Words -> Words -> string;
  (** [CryptoJS.AES.decrypt(encrypted, key, { iv, ... })
      .toString(CryptoJS.enc.Utf8)]; [None] where it throws. *)
  AES_CBC_decrypt : string -> Words -> Words -> option string;
  (** [CryptoJS.SHA256(data).toString()]. *)
  SHA256 : string -> string
}.

(** [EncryptedData]. *)
Record EncryptedData : Type := mkEncryptedData {
  data : string;
  iv : string
}.

(** The object as [JSON.stringify] reads it. *)
Definition EncryptedData_to_value (e : EncryptedData) : Js.value :=
  Js.Obj [("data", Js.Str (data e)); ("iv", Js.Str (iv e))].

(** [s.substring(n)]. *)
Fixpoint substring_from (n : nat) (s : string) : string :=
  match n, s with
  | O, _ => s
  | S n', String _ s' => substring_from n' s'
  | S _, EmptyString => EmptyString
  end.

(** [localStorage]: the items by key. *)
Abbreviation Storage := (gmap string string).

Section Storage.

Context {json : Js.JSON} {words : CryptoJSWords}.

(** The runtime's conversion of a value to a number, consulted where a
    stored [expiresAt] is not a number. *)
Variable ToNumber : Js.value -> float.

Definition keySize : Z := 256.
Definition iterations : Z := 100.

(** [generateKey(password, salt)]. *)
Definition generateKey (password salt : string) : Words :=
  PBKDF2 password salt (keySize / 32) iterations.

(** [encryptData(data, password)]; [salt] and [iv] are the two random
    word arrays it draws. *)
Definition encryptData (value : Js.value) (password : string) (salt iv : Words)
    : EncryptedData :=
  let key := generateKey password (Hex_stringify salt) in
  let encrypted := AES_CBC_encrypt (Js.JSON_stringify value) key iv in
  mkEncryptedData (Hex_stringify salt ++ encrypted) (Hex_stringify iv).

(** [decryptData(encryptedData, password)] on what [JSON.parse] returned.
    Whatever is thrown inside its [try] comes out as [Failed to decrypt
    data]. *)
Definition decryptData (encryptedData : Js.value) (password : string)
    : Js.completion Js.value :=
  match Js.get (Some encryptedData) "data" with
  | Js.Normal (Some (Js.Str d)) =>
    match Hex_parse (Some (Js.Str (String.substring 0 32 d))) with
    | Js.Normal salt =>
      let key := generateKey password (Hex_stringify salt) in
      match Js.get (Some encryptedData) "iv" with
      | Js.Normal ivalue =>
        match Hex_parse ivalue with
        | Js.Normal iv =>
          let encrypted := substring_from 32 d in
          match AES_CBC_decrypt encrypted key iv with
          | Some text =>
            match Js.JSON_parse text with
            | Some value => Js.Normal value
            | None => Js.Throw "Failed to decrypt data"
            end
          | None => Js.Throw "Failed to decrypt data"
          end
        | Js.Throw _ => Js.Throw "Failed to decrypt data"
        end
      | Js.Throw _ => Js.Throw "Failed to decrypt data"
      end
    | Js.Throw _ => Js.Throw "Failed to decrypt data"
    end
  | _ => Js.Throw "Failed to decrypt data"
  end.

(** [secureStore.setItem(key, value, password)]. *)
Definition setItem (key : string) (value : Js.value) (password : string)
    (salt iv : Words) (storage : Storage) : Storage :=
  let encrypted := encryptData value password salt iv in
  <[SHA256 key := Js.JSON_stringify (EncryptedData_to_value encrypted)]> storage.

(** [secureStore.getItem(key, password)]. *)
Definition getItem (key password : string) (storage : Storage) : Js.completion Js.value :=
  match storage !! SHA256 key with
  | None => Js.Normal Js.Null
  | Some encrypted =>
    if String.eqb encrypted "" then Js.Normal Js.Null
    else
      match Js.JSON_parse encrypted with
      | Some encryptedData =>
        match decryptData encryptedData password with
        | Js.Normal value => Js.Normal value
        | Js.Throw _ => Js.Throw "Failed to retrieve data securely"
        end
      | None => Js.Throw "Failed to retrieve data securely"
      end
  end.

(** [secureStore.removeItem(key)]. *)
Definition removeItem (key : string) (storage : Storage) : Storage :=
  delete (SHA256 key) storage.

(** [secureStore.clear()]. *)
Definition clear (storage : Storage) : Storage := ∅.

(** [session.create(userData, password)]; [sessionId] is the random word
    array it draws and [timestamp] what [new Date().getTime()] returns. *)
Definition session_create (userData : Js.value) (password : string)
    (sessionId : Words) (timestamp : float) (salt iv : Words) (storage : Storage)
    : Storage :=
  let sessionData :=
    Js.Obj [("id", Js.Str (Hex_stringify sessionId));
            ("userData", userData);
            ("timestamp", Js.Num timestamp);
            ("expiresAt", Js.Num (timestamp + 24 * 60 * 60 * 1000)%float)] in
  setItem "session" sessionData password salt iv storage.

(** [session.destroy()]. *)
Definition session_destroy (storage : Storage) : Storage :=
  removeItem "session" storage.

(** [now > session.expiresAt]. *)
Definition expired (now : float) (expiresAt : option Js.value) : bool :=
  match expiresAt with
  | Some (Js.Num e) => PrimFloat.ltb e now
  | Some v => PrimFloat.ltb (ToNumber v) now
  | None => false
  end.

(** [session.validate(password)] at time [now]: the answer and the
    storage afterwards. *)
Definition session_validate (password : string) (now : float) (storage : Storage)
    : bool * Storage :=
  match getItem "session" password storage with
  | Js.Normal session =>
    if negb (Js.truthy (Some session)) then (false, storage)
    else
      match Js.get (Some session) "expiresAt" with
      | Js.Normal expiresAt =>
        if expired now expiresAt then (false, session_destroy storage)
        else (true, storage)
      | Js.Throw _ => (false, storage)
      end
  | Js.Throw _ => (false, storage)
  end.

(** [websocket.secureMessage(message, password)]. *)
Definition secureMessage (message : Js.value) (password : string) (salt iv : Words)
    : string :=
  Js.JSON_stringify (EncryptedData_to_value (encryptData message password salt iv)).

(** [websocket.parseMessage(encryptedMessage, password)]. *)
Definition parseMessage (encryptedMessage password : string) : Js.completion Js.value :=
  match Js.JSON_parse encryptedMessage with
  | Some encrypted =>
    match decryptData encrypted password with
    | Js.Normal value => Js.Normal value
    | Js.Throw _ => Js.Throw "Failed to parse secure message"
    end
  | None => Js.Throw "Failed to parse secure message"
  end.

(** The contracts of the libraries at one encryption of [value]: the
    salt prints as 32 hexadecimal digits and [Hex.parse] reads them back
    as a word array that prints the same; the cipher, under the derived key
    and the initialisation vector read back from its text, inverts itself
    on the JSON text of [value]; and [JSON.parse] inverts [JSON.stringify]
    on [value] and on the [EncryptedData] object, whose text is not
    empty. *)
Definition libraries_invert (value : Js.value) (password : string) (salt iv : Words)
    : Prop :=
  let key := generateKey password (Hex_stringify salt) in
  let text := Js.JSON_stringify value in
  let encrypted := EncryptedData_to_value (encryptData value password salt iv) in
  String.length (Hex_stringify salt) = 32 /\
  (exists salt', Hex_parse (Some (Js.Str (Hex_stringify salt))) = Js.Normal salt' /\
                 Hex_stringify salt' = Hex_stringify salt) /\
  (exists iv', Hex_parse (Some (Js.Str (Hex_stringify iv))) = Js.Normal iv' /\
               AES_CBC_decrypt (AES_CBC_encrypt text key iv) key iv' = Some text) /\
  Js.JSON_parse text = Some value /\
  Js.JSON_parse (Js.JSON_stringify encrypted) = Some encrypted /\
  Js.JSON_stringify encrypted <> "".

End Storage.

End SecurityUtils.

(** ** The encrypting hook [useSecureWebSocket] (hooks/useSecureWebSocket) *)

Module useSecureWebSocket.

#[local] Set Primitive Projections.

(** The refs of one hook instance and the browser objects behind them. *)
Record State : Type := mkState {
  sockets : list WebSocket.Socket;
  ws : option nat;
  reconnectTimeout : option nat;
  timers : list (float * bool)
}.

Definition initial : State := mkState [] None None [].

Definition current (s : State) : option WebSocket.Socket :=
  match ws s with
  | Some i => sockets s !! i
  | None => None
  end.

(** A call of one of the callbacks of the options. *)
Inductive Callback : Type :=
| OnMessage (message : Js.value)
| OnError (description : string)
| OnConnect
| OnDisconnect.

Section Hook.

Context {json : Js.JSON} {crypto : SecurityUtils.CryptoJS}.

(** The component that uses the hook has state of type [A]. *)
Variable A : Type.

(** [UseSecureWebSocketOptions]; every callback is optional.  [onMessage]
    returns the exception it threw, if any.  [urlAccepted] tells whether
    [new WebSocket(url)] succeeds for this [url]. *)
Record Options : Type := mkOptions {
  url : string;
  urlAccepted : bool;
  encryptionKey : string;
  onMessage : option (Js.value -> A -> A * option string);
  onError : option (string -> A -> A);
  onConnect : option (A -> A);
  onDisconnect : option (A -> A)
}.

Variable options : Options.

(** The component's state and the callbacks called so far, oldest first. *)
Record World : Type := mkWorld {
  app : A;
  called : list Callback
}.

(** [onError?.(new Error(description))]. *)
Definition call_onError (description : string) (w : World) : World :=
  match onError options with
  | Some f => mkWorld (f description (app w)) (called w ++ [OnError description])
  | None => w
  end.

(** [onConnect?.()]. *)
Definition call_onConnect (w : World) : World :=
  match onConnect options with
  | Some f => mkWorld (f (app w)) (called w ++ [OnConnect])
  | None => w
  end.

(** [onDisconnect?.()]. *)
Definition call_onDisconnect (w : World) : World :=
  match onDisconnect options with
  | Some f => mkWorld (f (app w)) (called w ++ [OnDisconnect])
  | None => w
  end.

(** [connect]. *)
Definition connect (sw : State * World) : State * World :=
  let '(s, w) := sw in
  if urlAccepted options then
    (mkState (sockets s ++ [WebSocket.create (url options)])
       (Some (length (sockets s))) (reconnectTimeout s) (timers s), w)
  else (s, call_onError "Failed to establish WebSocket connection" w).

(** The [onopen] handler. *)
Definition onopen (sw : State * World) : State * World :=
  let '(s, w) := sw in (s, call_onConnect w).

(** The [onclose] handler: reconnect after 3 seconds. *)
Definition onclose (sw : State * World) : State * World :=
  let '(s, w) := sw in
  (mkState (sockets s) (ws s) (Some (length (timers s)))
     (timers s ++ [(3000%float, true)]),
   call_onDisconnect w).

(** The [onerror] handler. *)
Definition onerror (sw : State * World) : State * World :=
  let '(s, w) := sw in (s, call_onError "WebSocket error occurred" w).

(** The [onmessage] handler.  One [try] block holds the decryption, the
    parse and the call of [onMessage]; its [catch] reports a fixed text. *)
Definition onmessage (data : string) (sw : State * World) : State * World :=
  let '(s, w) := sw in
  match SecurityUtils.decrypt data (encryptionKey options) with
  | Js.Throw _ => (s, call_onError "Failed to process message" w)
  | Js.Normal decryptedData =>
    match Js.JSON_parse decryptedData with
    | None => (s, call_onError "Failed to process message" w)
    | Some message =>
      match onMessage options with
      | None => (s, w)
      | Some f =>
        let '(a', thrown) := f message (app w) in
        let w' := mkWorld a' (called w ++ [OnMessage message]) in
        match thrown with
        | None => (s, w')
        | Some _ => (s, call_onError "Failed to process message" w')
        end
      end
    end
  end.

(** [disconnect]. *)
Definition disconnect (sw : State * World) : State * World :=
  let '(s, w) := sw in
  let timers' := match reconnectTimeout s with
                 | Some t => alter (fun tm => (fst tm, false)) t (timers s)
                 | None => timers s
                 end in
  let sockets' := match ws s with
                  | Some i => alter WebSocket.close i (sockets s)
                  | None => sockets s
                  end in
  (mkState sockets' (ws s) (reconnectTimeout s) timers', w).

(** [sendMessage(message)]; [salt] is the randomness the cipher draws. *)
Definition sendMessage (message : Envelope.WebSocketMessage)
    (salt : SecurityUtils.Salt) (sw : State * World) : State * World :=
  let '(s, w) := sw in
  match ws s, current s with
  | Some i, Some k =>
    if WebSocket.ReadyState_eqb (WebSocket.readyState k) WebSocket.OPEN then
      let encryptedData :=
        SecurityUtils.encrypt (Js.JSON_stringify (Envelope.to_value message))
          (encryptionKey options) salt in
      match WebSocket.send encryptedData k with
      | Js.Normal k' =>
        (mkState (<[i := k']> (sockets s)) (ws s) (reconnectTimeout s) (timers s), w)
      | Js.Throw _ => (s, call_onError "Failed to send message" w)
      end
    else (s, call_onError "WebSocket is not connected" w)
  | _, _ => (s, call_onError "WebSocket is not connected" w)
  end.

(** What can happen to a mounted hook: the effect runs ([connect]) or is
    cleaned up ([disconnect]), the browser reports on socket [i], timer
    [t] fires, or the component calls [sendMessage]. *)
Inductive Event : Type :=
| Mount
| Unmount
| SocketOpen (i : nat)
| SocketMessage (i : nat) (data : string)
| SocketClose (i : nat)
| SocketError (i : nat)
| TimerFires (t : nat)
| CallSendMessage (message : Envelope.WebSocketMessage) (salt : SecurityUtils.Salt).

(** Socket [i] of the hook with its ready state set to [r]. *)
Definition with_readyState (i : nat) (r : WebSocket.ReadyState) (k : WebSocket.Socket)
    (s : State) : State :=
  mkState (<[i := WebSocket.set_readyState r k]> (sockets s)) (ws s)
    (reconnectTimeout s) (timers s).

(** One event; [None] when the browser cannot raise it in this state (only
    a connecting socket opens, a closed socket does not close again, only a
    pending timer fires). *)
Definition step (e : Event) (sw : State * World) : option (State * World) :=
  let '(s, w) := sw in
  match e with
  | Mount => Some (connect sw)
  | Unmount => Some (disconnect sw)
  | SocketOpen i =>
    match sockets s !! i with
    | Some k =>
      match WebSocket.readyState k with
      | WebSocket.CONNECTING => Some (onopen (with_readyState i WebSocket.OPEN k s, w))
      | _ => None
      end
    | None => None
    end
  | SocketMessage i data =>
    match sockets s !! i with
    | Some k =>
      match WebSocket.readyState k with
      | WebSocket.OPEN | WebSocket.CLOSING => Some (onmessage data sw)
      | _ => None
      end
    | None => None
    end
  | SocketClose i =>
    match sockets s !! i with
    | Some k =>
      match WebSocket.readyState k with
      | WebSocket.CLOSED => None
      | _ => Some (onclose (with_readyState i WebSocket.CLOSED k s, w))
      end
    | None => None
    end
  | SocketError i =>
    match sockets s !! i with
    | Some _ => Some (onerror sw)
    | None => None
    end
  | TimerFires t =>
    match timers s !! t with
    | Some (d, true) =>
      Some (connect (mkState (sockets s) (ws s) (reconnectTimeout s)
                       (<[t := (d, false)]> (timers s)), w))
    | _ => None
    end
  | CallSendMessage message salt => Some (sendMessage message salt sw)
  end.

(** A sequence of events, oldest first. *)
Fixpoint run (es : list Event) (sw : State * World) : option (State * World) :=
  match es with
  | [] => Some sw
  | e :: rest =>
    match step e sw with
    | Some sw' => run rest sw'
    | None => None
    end
  end.

End Hook.

Arguments mkWorld {A} app called.
Arguments app {A} w.
Arguments called {A} w.

End useSecureWebSocket.

(** ** [NodePreviewHandler] (components/WorkflowBuilder/NodePreviewHandler) *)

Module NodePreviewHandler.

Inductive Status : Type := idle | loading | success | error.

(** [PreviewState]: [data] and [error] are optional properties. *)
Record PreviewState : Type := mkPreview {
  status : Status;
  data : option Js.value;
  error_text : option Js.value
}.

(** The props of the component. *)
Record Props : Type := mkProps {
  nodeId : string;
  nodeType : string;
  node_data : Js.value
}.

(** The [onMessage] callback the component gives to the hook: the new
    preview state, and the exception if reading the message threw. *)
Definition onMessage (props : Props) (message : Js.value) (preview : PreviewState)
    : PreviewState * option string :=
  match Js.get (Some message) "type" with
  | Js.Throw e => (preview, Some e)
  | Js.Normal type =>
    if Js.is_string type (Envelope.enum_value Envelope.PREVIEW_UPDATE) then
      match Js.get (Some message) "payload" with
      | Js.Throw e => (preview, Some e)
      | Js.Normal payload =>
        match Js.get payload "nodeId" with
        | Js.Throw e => (preview, Some e)
        | Js.Normal id =>
          if Js.is_string id (nodeId props)
          then (mkPreview success payload None, None)
          else (preview, None)
        end
      end
    else if Js.is_string type (Envelope.enum_value Envelope.ERROR) then
      match Js.get (Some message) "payload" with
      | Js.Throw e => (preview, Some e)
      | Js.Normal payload =>
        match Js.get payload "nodeId" with
        | Js.Throw e => (preview, Some e)
        | Js.Normal id =>
          if Js.is_string id (nodeId props)
          then
            match Js.get payload "error" with
            | Js.Throw e => (preview, Some e)
            | Js.Normal err => (mkPreview error None err, None)
            end
          else (preview, None)
        end
      end
    else (preview, None)
  end.

Section Component.

Context {json : Js.JSON} {crypto : SecurityUtils.CryptoJS}.

(** [window.location.hostname], and what [sessionStorage] holds under
    [ws_encryption_key], if anything. *)
Variable hostname : string.
Variable stored_key : option string.
Variable urlAccepted : bool.

(** The options the component passes to [useSecureWebSocket]. *)
Definition options (props : Props) : useSecureWebSocket.Options PreviewState :=
  useSecureWebSocket.mkOptions PreviewState
    ("ws://" ++ hostname ++ ":8000/ws")
    urlAccepted
    (default "" stored_key)
    (Some (onMessage props))
    None None None.



(** A frame arrives on the component's socket. *)
Definition receive (props : Props) (frame : string)
    (sw : useSecureWebSocket.State * useSecureWebSocket.World PreviewState)
    : useSecureWebSocket.State * useSecureWebSocket.World PreviewState :=
  useSecureWebSocket.onmessage PreviewState (options props) frame sw.

End Component.

End NodePreviewHandler.

(** ** [DragDropCanvas] (components/WorkflowBuilder/DragDropCanvas) *)

Module DragDropCanvas.

Record Position : Type := mkPosition {
  x : float;
  y : float
}.

(** [Node] of WorkflowBuilder/types: the edges that leave a node are the
    ids in its [connections]. *)
Record Node : Type := mkNode {
  id : string;
  type : string;
  position : Position;
  data : list (string * Js.value);
  connections : list string
}.

(** The [nodes] prop as the parent last set it through [onNodesChange],
    the [previewData] state cell, and the [useWebSocket] instance. *)
Record Canvas : Type := mkCanvas {
  nodes : list Node;
  previewData : gmap string Js.value;
  hook : useWebSocket.State
}.

(** The edges held in the node list, as (source, target). *)
Definition edges (ns : list Node) : list (string * string) :=
  flat_map (fun n => map (fun targetId => (id n, targetId)) (connections n)) ns.

(** [nodes.find((n) => n.id === targetId)] finds a node. *)
Definition has_node (targetId : string) (ns : list Node) : bool :=
  existsb (fun n => String.eqb (id n) targetId) ns.

(** The lines the [svg] draws: an edge whose target is not in the list is
    skipped. *)
Definition lines (ns : list Node) : list (string * string) :=
  filter (fun e => has_node (snd e) ns) (edges ns).

Section Component.

Context {json : Js.JSON}.

(** [handlePreviewUpdate(nodeId, data)]. *)
Definition handlePreviewUpdate (nodeId : string) (data : Js.value) (c : Canvas) : Canvas :=
  mkCanvas (nodes c) (<[nodeId := data]> (previewData c)) (hook c).

(** The [onClick] of the Delete Node button of the node with id [nodeId]. *)
Definition deleteNode_onClick (nodeId : string) (c : Canvas) : Canvas :=
  let updatedNodes := filter (fun n => negb (String.eqb (id n) nodeId)) (nodes c) in
  mkCanvas updatedNodes (previewData c)
    (useWebSocket.sendMessage
       (useWebSocket.Text
          (Js.JSON_stringify
             (Js.Obj [("type", Js.Str "node_deleted");
                      ("payload", Js.Obj [("id", Js.Str nodeId)])])))
       (hook c)).

(** [handleNodeDrag(nodeId, newPosition)]. *)
Definition handleNodeDrag (nodeId : string) (newPosition : Position) (c : Canvas) : Canvas :=
  let updatedNodes :=
    map (fun node =>
           if String.eqb (id node) nodeId
           then mkNode (id node) (type node) newPosition (data node) (connections node)
           else node) (nodes c) in
  mkCanvas updatedNodes (previewData c)
    (useWebSocket.sendMessage
       (useWebSocket.Text
          (Js.JSON_stringify
             (Js.Obj [("type", Js.Str "node_moved");
                      ("payload",
                       Js.Obj [("id", Js.Str nodeId);
                               ("position",
                                Js.Obj [("x", Js.Num (x newPosition));
                                        ("y", Js.Num (y newPosition))])])])))
       (hook c)).

End Component.

(** [Connection] of WorkflowBuilder/types; its [id] is [connectionId]
    here, [id] being the field of [Node]. *)
Record Connection : Type := mkConnection {
  connectionId : string;
  sourceId : string;
  targetId : string
}.

(** The state cells [selectedNode], [connecting] and [zoom]. *)
Record Interaction : Type := mkInteraction {
  selectedNode : option string;
  connecting : option string;
  zoom : float
}.

(** The cells of a freshly rendered canvas. *)
Definition initial_interaction : Interaction := mkInteraction None None 1.

(** [handleNodeClick(nodeId, event)]: the new cells, and the connection
    handed to [onConnect], if any.  [if (connecting)] takes the id
    consisting of no character for no id. *)
Definition handleNodeClick (nodeId : string) (ui : Interaction)
    : Interaction * option Connection :=
  match connecting ui with
  | Some source =>
    if String.eqb source "" then
      (mkInteraction
         (if decide (selectedNode ui = Some nodeId) then None else Some nodeId)
         (connecting ui) (zoom ui), None)
    else
      (mkInteraction (selectedNode ui) None (zoom ui),
       if String.eqb source nodeId then None
       else Some (mkConnection (source ++ "-" ++ nodeId) source nodeId))
  | None =>
    (mkInteraction
       (if decide (selectedNode ui = Some nodeId) then None else Some nodeId)
       (connecting ui) (zoom ui), None)
  end.

(** [startConnecting(nodeId, event)]. *)
Definition startConnecting (nodeId : string) (ui : Interaction) : Interaction :=
  mkInteraction (selectedNode ui) (Some nodeId) (zoom ui).

(** [handleCanvasClick]. *)
Definition handleCanvasClick (ui : Interaction) : Interaction :=
  mkInteraction None None (zoom ui).

(** [Math.max] on two numbers. *)
Definition Math_max (a b : float) : float :=
  if PrimFloat.is_nan a || PrimFloat.is_nan b then PrimFloat.nan
  else if PrimFloat.ltb a b then b
  else if PrimFloat.ltb b a then a
  else if PrimFloat.get_sign a then b else a.

(** [handleZoom(delta)]. *)
Definition handleZoom (delta : float) (ui : Interaction) : Interaction :=
  let newZoom := Js.Math_min (Math_max (zoom ui + delta)%float 0.5%float) 2%float in
  mkInteraction (selectedNode ui) (connecting ui) newZoom.

#[local] Set Warnings "-inexact-float".

(** The two zoom buttons: [handleZoom(0.1)] and [handleZoom(-0.1)]. *)
Inductive ZoomButton : Type := ZoomIn | ZoomOut.

Definition zoom_onClick (b : ZoomButton) (ui : Interaction) : Interaction :=
  match b with
  | ZoomIn => handleZoom 0.1%float ui
  | ZoomOut => handleZoom (-0.1)%float ui
  end.

(** The zoom after a click on button [b] at zoom [z]. *)
Definition zoom_after (b : ZoomButton) (z : float) : float :=
  zoom (zoom_onClick b (mkInteraction None None z)).

(** The zoom levels the two buttons lead to from the initial zoom, found
    by following both buttons from every level found so far until nothing
    new turns up. *)
Definition seen (z : float) (l : list float) : bool :=
  existsb (PrimFloat.Leibniz.eqb z) l.

Definition visit (z : float) (l : list float) : list float :=
  if seen z l then l else l ++ [z].

Definition explore (l : list float) : list float :=
  fold_left (fun found z => visit (zoom_after ZoomOut z) (visit (zoom_after ZoomIn z) found))
    l l.

Definition zoom_levels : list float :=
  Eval vm_compute in Nat.iter 64 explore [zoom initial_interaction].

End DragDropCanvas.

(** ** The singleton [WebSocketClient] (utils/websocketClient)

    [reconnectAttempts] only takes the integer values 0 to 5 and the delay
    is 1000 times a power of two up to 16; on these binary64 arithmetic is
    exact, and they are carried as integers. *)

Module WebSocketClient.

Definition maxReconnectAttempts : Z := 5.
Definition reconnectDelay : Z := 1000.

#[local] Set Primitive Projections.

(** The fields of the instance, with the sockets it has created and the
    timers it has set (delay, still pending). *)
Record State : Type := mkState {
  clientId : string;
  reconnectAttempts : Z;
  sockets : list WebSocket.Socket;
  ws : option nat;
  timers : list (Z * bool)
}.

Definition set_reconnectAttempts (v : Z) (s : State) : State :=
  let 'mkState c _ ss w tm := s in mkState c v ss w tm.
Definition set_sockets (v : list WebSocket.Socket) (s : State) : State :=
  let 'mkState c r _ w tm := s in mkState c r v w tm.
Definition set_ws (v : option nat) (s : State) : State :=
  let 'mkState c r ss _ tm := s in mkState c r ss v tm.
Definition set_timers (v : list (Z * bool)) (s : State) : State :=
  let 'mkState c r ss w _ := s in mkState c r ss w v.

(** What [handleReconnect] below does to the instance. *)
Definition reconnected (s : State) : State :=
  if (reconnectAttempts s <? maxReconnectAttempts)%Z then
    set_timers
      (timers s ++ [((reconnectDelay * 2 ^ (reconnectAttempts s + 1 - 1))%Z, true)])
      (set_reconnectAttempts (reconnectAttempts s + 1)%Z s)
  else s.

(** The counter and the timers after closes in a row, from the counter
    alone. *)
Fixpoint schedule (n : nat) (a : Z) : Z * list (Z * bool) :=
  match n with
  | 0 => (a, [])
  | S n =>
    let '(a1, tm) := schedule n a in
    if (a1 <? maxReconnectAttempts)%Z
    then ((a1 + 1)%Z, (tm ++ [((reconnectDelay * 2 ^ (a1 + 1 - 1))%Z, true)])%list)
    else (a1, tm)
  end.

(** [new WebSocketClient(options)]; [uuid] is what [uuidv4()] returns. *)
Definition construct (uuid : string) : State := mkState uuid 0 [] None [].

Definition current (s : State) : option WebSocket.Socket :=
  match ws s with
  | Some i => sockets s !! i
  | None => None
  end.

(** [isConnected()]. *)
Definition isConnected (s : State) : bool := WebSocket.is_open (current s).


Section Client.

Context {json : Js.JSON}.

(** Which urls [new WebSocket(url)] accepts. *)
Variable url_ok : string -> bool.

(** The state of the code that installed the callbacks. *)
Variable A : Type.

(** What lies outside the instance: that state, and the console. *)
Record World : Type := mkWorld {
  app : A;
  console : list Js.LogEntry
}.

Definition log (e : Js.LogEntry) (w : World) : World :=
  mkWorld (app w) (console w ++ [e]).

(** [WebSocketOptions]; [onMessage] returns the exception it threw. *)
Record WebSocketOptions : Type := mkOptions {
  onMessage : option (Js.value -> World -> World * option string);
  onConnect : option (World -> World);
  onDisconnect : option (World -> World);
  onError : option (World -> World);
  metadata : list (string * Js.value)
}.

Variable options : WebSocketOptions.

Definition call (f : option (World -> World)) (w : World) : World :=
  match f with
  | Some f => f w
  | None => w
  end.

(** [handleReconnect].  The timer's callback is [connect(this.ws.url)]. *)
Definition handleReconnect (sw : State * World) : State * World :=
  let '(s, w) := sw in
  if (reconnectAttempts s <? maxReconnectAttempts)%Z then
    let s1 := set_reconnectAttempts (reconnectAttempts s + 1)%Z s in
    let delay := (reconnectDelay * 2 ^ (reconnectAttempts s1 - 1))%Z in
    (set_timers (timers s1 ++ [(delay, true)]) s1,
     log (Js.ConsoleLog "Attempting to reconnect" None) w)
  else
    (s, log (Js.ConsoleError "Max reconnection attempts reached" None) w).

(** [connect(url)]; [setupEventListeners] attaches the handlers below to
    the new socket. *)
Definition connect (u : string) (sw : State * World) : State * World :=
  let '(s, w) := sw in
  if url_ok u then
    (set_ws (Some (length (sockets s)))
       (set_sockets (sockets s ++ [WebSocket.create u]) s), w)
  else
    handleReconnect
      (s, log (Js.ConsoleError "WebSocket connection error:" (Some (Js.Str "SyntaxError"))) w).

(** [send(type, data)]; [now] is [new Date().toISOString()]. *)
Definition send (type : string) (data : Js.value) (now : string)
    (sw : State * World) : State * World :=
  let '(s, w) := sw in
  match ws s, current s with
  | Some i, Some k =>
    if WebSocket.ReadyState_eqb (WebSocket.readyState k) WebSocket.OPEN then
      let message := Js.Obj [("type", Js.Str type); ("data", data);
                             ("client_id", Js.Str (clientId s));
                             ("timestamp", Js.Str now)] in
      match WebSocket.send (Js.JSON_stringify message) k with
      | Js.Normal k' => (set_sockets (<[i := k']> (sockets s)) s, w)
      | Js.Throw _ => (s, w)
      end
    else (s, log (Js.ConsoleError "WebSocket is not connected" None) w)
  | _, _ => (s, log (Js.ConsoleError "WebSocket is not connected" None) w)
  end.

(** The [onopen] handler. *)
Definition onopen (now : string) (sw : State * World) : State * World :=
  let '(s, w) := sw in
  let w1 := log (Js.ConsoleLog "WebSocket connected" None) w in
  let s1 := set_reconnectAttempts 0 s in
  let '(s2, w2) :=
    send "client_metadata"
      (Js.Obj (("client_id", Js.Str (clientId s1)) :: metadata options))
      now (s1, w1) in
  (s2, call (onConnect options) w2).

(** The [onmessage] handler. *)
Definition onmessage (data : string) (sw : State * World) : State * World :=
  let '(s, w) := sw in
  match Js.JSON_parse data with
  | None =>
    (s, log (Js.ConsoleError "Error parsing WebSocket message:" (Some (Js.Str "SyntaxError"))) w)
  | Some message =>
    match onMessage options with
    | None => (s, w)
    | Some f =>
      match f message w with
      | (w', None) => (s, w')
      | (w', Some e) =>
        (s, log (Js.ConsoleError "Error parsing WebSocket message:" (Some (Js.Str e))) w')
      end
    end
  end.

(** The [onclose] handler. *)
Definition onclose (sw : State * World) : State * World :=
  let '(s, w) := sw in
  let w1 := log (Js.ConsoleLog "WebSocket disconnected" None) w in
  handleReconnect (s, call (onDisconnect options) w1).

(** The [onerror] handler. *)
Definition onerror (sw : State * World) : State * World :=
  let '(s, w) := sw in
  (s, call (onError options) (log (Js.ConsoleError "WebSocket error:" None) w)).

(** [disconnect]. *)
Definition disconnect (sw : State * World) : State * World :=
  let '(s, w) := sw in
  match ws s with
  | Some i => (set_ws None (set_sockets (alter WebSocket.close i (sockets s)) s), w)
  | None => (s, w)
  end.

(** The callback of a reconnect timer: [if (this.ws?.url) connect(this.ws.url)]. *)
Definition timer_callback (sw : State * World) : State * World :=
  match current (fst sw) with
  | Some k =>
    if String.eqb (WebSocket.url k) "" then sw else connect (WebSocket.url k) sw
  | None => sw
  end.

(** What can happen to the instance: a method is called, the browser
    reports on socket [i], or timer [t] fires. *)
Inductive Event : Type :=
| CallConnect (u : string)
| CallSend (type : string) (data : Js.value) (now : string)
| CallDisconnect
| SocketOpen (i : nat) (now : string)
| SocketMessage (i : nat) (data : string)
| SocketClose (i : nat)
| SocketError (i : nat)
| TimerFires (t : nat).

(** One event; [None] when the browser cannot raise it in this state. *)
Definition step (e : Event) (sw : State * World) : option (State * World) :=
  let '(s, w) := sw in
  match e with
  | CallConnect u => Some (connect u sw)
  | CallSend type data now => Some (send type data now sw)
  | CallDisconnect => Some (disconnect sw)
  | SocketOpen i now =>
    match sockets s !! i with
    | Some k =>
      match WebSocket.readyState k with
      | WebSocket.CONNECTING =>
        Some (onopen now
                (set_sockets (<[i := WebSocket.set_readyState WebSocket.OPEN k]> (sockets s)) s,
                 w))
      | _ => None
      end
    | None => None
    end
  | SocketMessage i data =>
    match sockets s !! i with
    | Some k =>
      match WebSocket.readyState k with
      | WebSocket.OPEN | WebSocket.CLOSING => Some (onmessage data sw)
      | _ => None
      end
    | None => None
    end
  | SocketClose i =>
    match sockets s !! i with
    | Some k =>
      match WebSocket.readyState k with
      | WebSocket.CLOSED => None
      | _ =>
        Some (onclose
                (set_sockets (<[i := WebSocket.set_readyState WebSocket.CLOSED k]> (sockets s)) s,
                 w))
      end
    | None => None
    end
  | SocketError i =>
    match sockets s !! i with
    | Some _ => Some (onerror sw)
    | None => None
    end
  | TimerFires t =>
    match timers s !! t with
    | Some (d, true) =>
      Some (timer_callback (set_timers (<[t := (d, false)]> (timers s)) s, w))
    | _ => None
    end
  end.

(** A sequence of events, oldest first. *)
Fixpoint run (es : list Event) (sw : State * World) : option (State * World) :=
  match es with
  | [] => Some sw
  | e :: rest =>
    match step e sw with
    | Some sw' => run rest sw'
    | None => None
    end
  end.



End Client.

Arguments mkWorld {A} app console.
Arguments app {A} w.
Arguments console {A} w.
Arguments log {A} e w.

End WebSocketClient.

(** ** [WebSocketProvider] (contexts/WebSocketContext) *)

Module WebSocketProvider.

(** A [CustomEvent] dispatched on [window]. *)
Record CustomEvent : Type := mkCustomEvent {
  name : string;
  detail : list (string * option Js.value) + option Js.value
}.

(** The provider's [isConnected] state cell and the events dispatched on
    [window], oldest first. *)
Record Window : Type := mkWindow {
  isConnected : bool;
  dispatched : list CustomEvent
}.

Definition dispatchEvent (e : CustomEvent) (w : WebSocketClient.World Window)
    : WebSocketClient.World Window :=
  WebSocketClient.mkWorld
    (mkWindow (isConnected (WebSocketClient.app w))
              (dispatched (WebSocketClient.app w) ++ [e]))
    (WebSocketClient.console w).

(** [handleMessage]: the new world, and the exception if reading the
    message threw. *)
Definition handleMessage (message : Js.value) (w : WebSocketClient.World Window)
    : WebSocketClient.World Window * option string :=
  match Js.get (Some message) "type" with
  | Js.Throw e => (w, Some e)
  | Js.Normal type =>
    if Js.is_string type "document_processed" then
      match Js.get (Some message) "data" with
      | Js.Throw e => (w, Some e)
      | Js.Normal data =>
        match Js.get data "documentId", Js.get data "metadata", Js.get data "content" with
        | Js.Normal documentId, Js.Normal metadata, Js.Normal content =>
          (dispatchEvent
             (mkCustomEvent "documentProcessed"
                (inl [("documentId", documentId); ("metadata", metadata);
                      ("content", content)])) w, None)
        | Js.Throw e, _, _ | _, Js.Throw e, _ | _, _, Js.Throw e => (w, Some e)
        end
      end
    else if Js.is_string type "workflow_updated" then
      match Js.get (Some message) "data" with
      | Js.Throw e => (w, Some e)
      | Js.Normal data => (dispatchEvent (mkCustomEvent "workflowUpdated" (inr data)) w, None)
      end
    else if Js.is_string type "element_updated" then
      match Js.get (Some message) "data" with
      | Js.Throw e => (w, Some e)
      | Js.Normal data => (dispatchEvent (mkCustomEvent "elementUpdated" (inr data)) w, None)
      end
    else if Js.is_string type "error" then
      match Js.get (Some message) "data" with
      | Js.Throw e => (w, Some e)
      | Js.Normal data =>
        (dispatchEvent (mkCustomEvent "wsError" (inr data))
           (WebSocketClient.log (Js.ConsoleError "WebSocket error:" data) w), None)
      end
    else
      (WebSocketClient.log (Js.ConsoleLog "Received message:" (Some message)) w, None)
  end.

(** The cases of the [switch]. *)
Definition known_type (type : option Js.value) : bool :=
  Js.is_string type "document_processed" || Js.is_string type "workflow_updated"
  || Js.is_string type "element_updated" || Js.is_string type "error".

(** The options the provider's effect installs with [Object.assign]. *)
Definition installed_options : WebSocketClient.WebSocketOptions Window :=
  WebSocketClient.mkOptions Window
    (Some handleMessage)
    (Some (fun w => WebSocketClient.mkWorld
                      (mkWindow true (dispatched (WebSocketClient.app w)))
                      (WebSocketClient.console w)))
    (Some (fun w => WebSocketClient.mkWorld
                      (mkWindow false (dispatched (WebSocketClient.app w)))
                      (WebSocketClient.console w)))
    (Some (fun w =>
             dispatchEvent
               (mkCustomEvent "wsError"
                  (inl [("message", Some (Js.Str "WebSocket connection error"));
                        ("error", None)]))
               (WebSocketClient.log (Js.ConsoleError "WebSocket error:" None) w)))
    [("userAgent", Js.Str "navigator.userAgent");
     ("language", Js.Str "navigator.language");
     ("groups", Js.Arr [Js.Str "default"]);
     ("features",
      Js.Obj [("documentProcessing", Js.Bool true);
              ("workflowBuilder", Js.Bool true);
              ("search", Js.Bool true);
              ("urlIntegration", Js.Bool true);
              ("notionIntegration", Js.Bool true);
              ("confluenceIntegration", Js.Bool true)])].

End WebSocketProvider.

(** ** Stand-ins for the libraries, for runs on concrete inputs *)

Module Examples.

(** A cipher that leaves the text as it is. *)
Definition null_cipher : SecurityUtils.CryptoJS :=
  {| SecurityUtils.Salt := unit;
     SecurityUtils.CipherParams := string;
     SecurityUtils.WordArray := string;
     SecurityUtils.AES_encrypt := fun data _ _ => data;
     SecurityUtils.CipherParams_toString := fun c => c;
     SecurityUtils.AES_decrypt := fun encrypted _ => encrypted;
     SecurityUtils.Utf8_stringify := fun bytes => Some bytes |}.

(** A [JSON] that knows one text and the value it stands for. *)
Definition one_text_json (text : string) (v : Js.value) : Js.JSON :=
  {| Js.JSON_stringify := fun _ => text;
     Js.JSON_parse := fun t => if String.eqb t text then Some v else None |}.

(** Handlers that count their calls; handler 1 throws. *)
Definition counting_handlers (h : nat) (payload : option Js.value) (a : nat)
    : nat * option string :=
  (S a, if Nat.eqb h 1 then Some "boom" else None).

Definition localhost : string := "ws://localhost:8000/ws".

(** The props of the preview handler of node [n1], and a
    [preview_update] for that node. *)
Definition n1_props : NodePreviewHandler.Props :=
  NodePreviewHandler.mkProps "n1" "processor" Js.Null.


(** A [JSON] for runs in which no text is parsed. *)
Definition stub_json : Js.JSON := one_text_json "{}" (Js.Obj []).

(** The registry hook after its first connect and three sends. *)
Definition three_sends : useWebSocket.State :=
  foldl (fun s m => useWebSocket.sendMessage (json := stub_json) m s)
    (useWebSocket.connect (useWebSocket.initial localhost true))
    [useWebSocket.Text "a"; useWebSocket.Text "b"; useWebSocket.Text "c"].

(** The registry hook after two sockets have failed one after the other:
    the effect connects, a message is sent before the socket is open, and
    both sockets close uncleanly. *)
Definition two_failures : useWebSocket.State :=
  default (useWebSocket.initial localhost true)
    (useWebSocket.run (json := stub_json)
       [useWebSocket.Mount; useWebSocket.CallSendMessage (useWebSocket.Text "a");
        useWebSocket.SocketClose 0 false; useWebSocket.SocketClose 1 false]
       (useWebSocket.initial localhost true)).

(** The singleton client after [connect] and the open of its socket. *)
Definition connected_client : WebSocketClient.State * WebSocketClient.World unit :=
  default (WebSocketClient.construct "client", WebSocketClient.mkWorld tt [])
    (WebSocketClient.run (json := stub_json) (fun _ => true) unit
       (WebSocketClient.mkOptions unit None None None None [])
       [WebSocketClient.CallConnect localhost; WebSocketClient.SocketOpen 0 "t0"]
       (WebSocketClient.construct "client", WebSocketClient.mkWorld tt [])).

(** Word arrays that are their own hexadecimal text, a key derivation
    that returns the password and a cipher that leaves the text as it
    is. *)
Definition plain_words : SecurityUtils.CryptoJSWords :=
  {| SecurityUtils.Words := string;
     SecurityUtils.Hex_stringify := fun w => w;
     SecurityUtils.Hex_parse := fun v => match v with
                                         | Some (Js.Str s) => Js.Normal s
                                         | _ => Js.Throw "TypeError"
                                         end;
     SecurityUtils.PBKDF2 := fun password _ _ _ => password;
     SecurityUtils.AES_CBC_encrypt := fun text _ _ => text;
     SecurityUtils.AES_CBC_decrypt := fun encrypted _ _ => Some encrypted;
     SecurityUtils.SHA256 := fun text => text |}.

(** A [JSON] that knows two texts: one for an object whose first property
    is [data], one for every other value. *)
Definition two_text_json (text1 : string) (v1 : Js.value) (text2 : string) (v2 : Js.value)
    : Js.JSON :=
  {| Js.JSON_stringify := fun v => match v with
                                   | Js.Obj (("data", _) :: _) => text1
                                   | _ => text2
                                   end;
     Js.JSON_parse := fun t => if String.eqb t text1 then Some v1
                               else if String.eqb t text2 then Some v2
                               else None |}.

Definition salt32 : string := "000102030405060708090a0b0c0d0e0f".

(** A conversion to numbers for runs in which every [expiresAt] is a
    number. *)
Definition number_or_nan (v : Js.value) : float :=
  match v with
  | Js.Num n => n
  | _ => PrimFloat.nan
  end.

(** Lower case for texts of ASCII letters. *)
Definition ascii_lower (s : string) : string :=
  string_of_list_ascii
    (map (fun a => let n := Ascii.nat_of_ascii a in
                   if Nat.leb 65 n && Nat.leb n 90 then Ascii.ascii_of_nat (n + 32) else a)
       (list_ascii_of_string s)).

(** A canvas with an edge from [n1] to [n2] and preview data stored for
    [n2]; and the preview data a later update brings for [n2]. *)
Definition two_nodes : list DragDropCanvas.Node :=
  [DragDropCanvas.mkNode "n1" "document" (DragDropCanvas.mkPosition 0 0) [] ["n2"];
   DragDropCanvas.mkNode "n2" "processor" (DragDropCanvas.mkPosition 200 0) [] []].

Definition n2_preview : Js.value := Js.Obj [("status", Js.Str "loading")].

Definition n2_update : Js.value :=
  Js.Obj [("status", Js.Str "unknown"); ("message", Js.Str "Unknown node type")].

Definition canvas : DragDropCanvas.Canvas :=
  DragDropCanvas.mkCanvas two_nodes {["n2" := n2_preview]}
    (useWebSocket.initial localhost true).

(** The same canvas with no preview data yet. *)
Definition canvas_without_previews : DragDropCanvas.Canvas :=
  DragDropCanvas.mkCanvas two_nodes ∅ (useWebSocket.initial localhost true).

End Examples.

(** * What the code guarantees *)

Open Scope list_scope.

(** From [Some x = Some y], replace [y] by [x], keeping [x] as it is
    written. *)
Ltac from_some H :=
  match type of H with
  | Some ?x = Some ?y =>
    let E := fresh in
    assert (E : x = y) by congruence; clear H; destruct E
  end.

(** ** The registry hook: backoff and queue *)

Module UseWebSocketFacts.

Import useWebSocket.

(** Two binary64 numbers that compare unequal are different. *)
Lemma float_neq (a b : float) :
  PrimFloat.eqb a a = true -> PrimFloat.eqb a b = false -> a <> b.
Proof. intros Ha Hab E. rewrite <- E in Hab. congruence. Qed.

(** [n] unclean closes in a row, no open in between: the delay is advanced
    [n] times and the [k]-th timer carries the delay advanced [k] times. *)
Lemma unclean_closes (n : nat) (s : State) :
  retryDelay (Nat.iter n (onclose false) s) = Nat.iter n next_delay (retryDelay s) /\
  map delay (timers (Nat.iter n (onclose false) s)) =
    map delay (timers s) ++
    map (fun k => Nat.iter (S k) next_delay (retryDelay s)) (seq 0 n).
Proof.
  induction n as [|n [IHr IHt]].
  - split; [reflexivity|]. cbn. now rewrite app_nil_r.
  - split.
    + rewrite !Nat.iter_succ.
      change (retryDelay (onclose false ?x)) with (next_delay (retryDelay x)).
      now rewrite IHr.
    + rewrite seq_S, map_app, (Nat.iter_succ n).
      change (timers (onclose false ?x))
        with (timers x ++ [mkTimer (next_delay (retryDelay x)) true]).
      rewrite map_app, IHt, IHr, <- app_assoc. reflexivity.
Qed.

(** C1, as stated, fails: with [retryDelay] at its initial 1000 ms, the
    reconnect after the first unclean close is scheduled after 1500 ms, not
    after the 1000 ms that [retryDelay] holds when the socket closes. *)
Lemma first_retry_is_not_after_the_current_delay :
  let s := connect (initial Examples.localhost true) in
  retryDelay s = 1000%float /\
  map delay (timers (onclose false s)) = [1500%float] /\
  map delay (timers (onclose false s)) <> [retryDelay s].
Proof.
  split; [reflexivity|]. split; [vm_compute; reflexivity|].
  vm_compute. intros E. apply (f_equal (hd 0%float)) in E. simpl in E.
  revert E. apply float_neq; vm_compute; reflexivity.
Qed.

(** C1, amended: on an unclean close the handler first computes
    [min(retryDelay * 1.5, 30000)], stores it in [retryDelay], and schedules
    the reconnect after that updated value; a clean close schedules
    nothing.  From the initial 1000 ms the attempts after consecutive
    unclean closes are scheduled after 1500, 2250, 3375, ... ms, and after
    30000 ms from the ninth on. *)
Theorem unclean_close_schedules_after_updated_delay :
  (forall s : State,
     let d := Js.Math_min (retryDelay s * RETRY_MULTIPLIER)%float MAX_RETRY_DELAY in
     let s' := onclose false s in
     timers s' = timers s ++ [mkTimer d true] /\
     reconnectTimeout s' = Some (length (timers s)) /\
     retryDelay s' = d /\
     isConnected s' = false) /\
  (forall s : State,
     timers (onclose true s) = timers s /\
     retryDelay (onclose true s) = retryDelay s) /\
  (forall s : State,
     retryDelay s = INITIAL_RETRY_DELAY ->
     map delay (timers (Nat.iter 12 (onclose false) s)) =
     map delay (timers s) ++
       [1500; 2250; 3375; 5062.5; 7593.75; 11390.625; 17085.9375;
        25628.90625; 30000; 30000; 30000; 30000]%float).
Proof.
  split; [|split].
  - intros s. cbn. repeat split; reflexivity.
  - intros s. split; reflexivity.
  - intros s H. rewrite (proj2 (unclean_closes 12 s)), H. f_equal.
Qed.

(** The amended C1 at a run: twelve unclean closes after the first
    connect. *)
Lemma backoff_from_the_initial_state :
  map delay (timers (Nat.iter 12 (onclose false) (connect (initial Examples.localhost true))))
  = [1500; 2250; 3375; 5062.5; 7593.75; 11390.625; 17085.9375; 25628.90625;
     30000; 30000; 30000; 30000]%float.
Proof.
  exact (proj2 (proj2 unclean_close_schedules_after_updated_delay)
           (connect (initial Examples.localhost true)) eq_refl).
Defined.

Lemma capped_delay_stays (n : nat) :
  Nat.iter (9 + n) next_delay INITIAL_RETRY_DELAY = MAX_RETRY_DELAY.
Proof.
  induction n as [|n IH].
  - vm_compute. reflexivity.
  - rewrite Nat.add_succ_r, Nat.iter_succ, IH. vm_compute. reflexivity.
Qed.

(** X7: from its initial value the retry delay never decreases from one
    unclean close to the next and never exceeds the maximum. *)
Theorem retry_delay_non_decreasing_and_capped (n : nat) :
  let d := Nat.iter n next_delay INITIAL_RETRY_DELAY in
  PrimFloat.leb d (next_delay d) = true /\
  PrimFloat.leb (next_delay d) MAX_RETRY_DELAY = true.
Proof.
  destruct (le_lt_dec 9 n) as [H|H].
  - replace n with (9 + (n - 9)) by lia. cbn zeta. rewrite capped_delay_stays.
    vm_compute. split; reflexivity.
  - do 9 (destruct n as [|n]; [vm_compute; split; reflexivity|]). lia.
Qed.

(** *** The pending queue *)

Section Queue.

Context {json : Js.JSON}.

Lemma socket_eta (k : WebSocket.Socket) :
  WebSocket.mkSocket (WebSocket.url k) (WebSocket.readyState k) (WebSocket.sent k) = k.
Proof. now destruct k. Qed.

(** Flushing a queue onto an open current socket appends it to what that
    socket has sent and touches nothing else. *)
Lemma forEach_send_open (q : list string) :
  forall (s : State) (i : nat) (k : WebSocket.Socket),
    ws s = Some i ->
    sockets s !! i = Some k ->
    WebSocket.readyState k = WebSocket.OPEN ->
    forEach_send q s =
      (set_sockets
         (<[i := WebSocket.mkSocket (WebSocket.url k) WebSocket.OPEN (WebSocket.sent k ++ q)]>
            (sockets s)) s,
       None).
Proof.
  induction q as [|m q IH]; intros s i k Hws Hk Hopen.
  - cbn. rewrite app_nil_r, <- Hopen, socket_eta, list_insert_id by exact Hk.
    reflexivity.
  - cbn [forEach_send]. unfold send_current. rewrite Hws, Hk.
    unfold WebSocket.send. rewrite Hopen.
    pose (k' := WebSocket.mkSocket (WebSocket.url k) WebSocket.OPEN (WebSocket.sent k ++ [m])).
    fold k'.
    rewrite (IH (set_sockets (<[i := k']> (sockets s)) s) i k');
      [ | exact Hws
        | cbn; apply list_lookup_insert_eq; now apply lookup_lt_Some in Hk
        | reflexivity ].
    cbn. rewrite list_insert_insert_eq, <- app_assoc. reflexivity.
Qed.

(** A call of [sendMessage] while the current socket is not open. *)
Lemma sendMessage_not_open (m : Message) (s : State) :
  WebSocket.is_open (current s) = false ->
  sendMessage m s =
    let s1 := set_messageQueue (messageQueue s ++ [text_of m]) s in
    if isConnected s then s1 else connect s1.
Proof. intros H. unfold sendMessage. rewrite H. reflexivity. Qed.

Lemma connect_not_open (s : State) :
  WebSocket.is_open (current s) = false ->
  WebSocket.is_open (current (connect s)) = false /\
  messageQueue (connect s) = messageQueue s /\
  isConnected (connect s) = isConnected s /\
  urlAccepted (connect s) = urlAccepted s /\
  transmitted (connect s) = transmitted s /\
  length (sockets (connect s)) =
    length (sockets s) + (if urlAccepted s then 1 else 0).
Proof.
  intros H. unfold connect. rewrite H.
  destruct (urlAccepted s) eqn:Hurl.
  - unfold current, transmitted. cbn.
    rewrite lookup_app_r, Nat.sub_diag, map_app, concat_app, length_app by lia.
    cbn. rewrite !app_nil_r. repeat split; assumption.
  - cbn. rewrite Nat.add_0_r. repeat split; assumption.
Qed.

(** X1: messages sent while the current socket is not open and the hook
    is not connected are appended to the queue in call order; none is
    transmitted, and every call makes a connect attempt, which creates a
    socket when the url is accepted. *)
Theorem sendMessage_while_disconnected_queues (ms : list Message) :
  forall s : State,
    WebSocket.is_open (current s) = false ->
    isConnected s = false ->
    let s' := foldl (fun s m => sendMessage m s) s ms in
    messageQueue s' = messageQueue s ++ map text_of ms /\
    transmitted s' = transmitted s /\
    WebSocket.is_open (current s') = false /\
    isConnected s' = false /\
    length (sockets s') =
      length (sockets s) + (if urlAccepted s then length ms else 0).
Proof.
  induction ms as [|m ms IH]; intros s Hopen Hconn; cbn zeta.
  - cbn. rewrite app_nil_r. destruct (urlAccepted s); repeat split; auto.
  - cbn [foldl]. rewrite (sendMessage_not_open m s Hopen). cbn zeta. rewrite Hconn.
    set (s1 := set_messageQueue (messageQueue s ++ [text_of m]) s).
    assert (H1 : WebSocket.is_open (current s1) = false) by exact Hopen.
    destruct (connect_not_open s1 H1) as (Ho & Hq & Hc & Hu & Ht & Hl).
    specialize (IH (connect s1) Ho). cbn zeta in IH.
    rewrite Hc in IH. destruct (IH Hconn) as (IHq & IHt & IHo & IHc & IHl).
    rewrite IHq, IHt, IHl, Hq, Ht, Hl, Hu. cbn.
    rewrite <- app_assoc. repeat split; auto.
    assert (E : forall (b : bool) (n l : nat),
               n + (if b then 1 else 0) + (if b then l else 0)
               = n + (if b then S l else 0)) by (intros [] ? ?; lia).
    apply E.
Qed.

(** X2: when the socket [ws.current] points to opens, the whole queue is
    transmitted on it, in order and once, and the queue is empty
    afterwards; the retry delay is back at its initial value. *)
Theorem open_of_current_socket_flushes_queue
    (s : State) (i : nat) (k : WebSocket.Socket) :
  ws s = Some i ->
  sockets s !! i = Some k ->
  WebSocket.readyState k = WebSocket.CONNECTING ->
  exists s' : State,
    step (SocketOpen i) s = Some s' /\
    sockets s' =
      <[i := WebSocket.mkSocket (WebSocket.url k) WebSocket.OPEN
               (WebSocket.sent k ++ messageQueue s)]> (sockets s) /\
    messageQueue s' = [] /\
    isConnected s' = true /\
    retryDelay s' = INITIAL_RETRY_DELAY.
Proof.
  intros Hws Hk Hconn. unfold step. rewrite Hk, Hconn.
  eexists. split; [reflexivity|]. unfold onopen.
  set (k1 := WebSocket.set_readyState WebSocket.OPEN k).
  set (s1 := set_retryDelay _ _).
  rewrite (forEach_send_open (messageQueue s1) s1 i k1);
    [ | exact Hws
      | cbn; apply list_lookup_insert_eq; now apply lookup_lt_Some in Hk
      | reflexivity ].
  cbn. rewrite list_insert_insert_eq. repeat split; reflexivity.
Qed.

(** X3: while the current socket is open a message is transmitted at once
    and the queue is left alone. *)
Theorem sendMessage_while_open_transmits
    (m : Message) (s : State) (i : nat) (k : WebSocket.Socket) :
  ws s = Some i ->
  sockets s !! i = Some k ->
  WebSocket.readyState k = WebSocket.OPEN ->
  sendMessage m s =
    set_sockets
      (<[i := WebSocket.mkSocket (WebSocket.url k) WebSocket.OPEN
               (WebSocket.sent k ++ [text_of m])]> (sockets s)) s.
Proof.
  intros Hws Hk Hopen. unfold sendMessage.
  assert (Ho : WebSocket.is_open (current s) = true).
  { unfold current. rewrite Hws, Hk. cbn. now rewrite Hopen. }
  rewrite Ho. unfold send_current. rewrite Hws, Hk. unfold WebSocket.send.
  now rewrite Hopen.
Qed.

(** C2 fails on the code at this run: the effect connects (socket 0), a
    message is sent before that socket is open, so it is queued and a
    second socket is created and becomes current (socket 1); socket 1 fails
    (an error, then an unclean close), then socket 0 opens.  Its [onopen]
    hands the queue to [ws.current], the closed socket 1, which discards
    it, and resets the queue: the message has been transmitted by no
    socket and is no longer queued. *)
Theorem queued_message_lost_when_superseded_socket_opens :
  exists s1 s2 : State,
    run [Mount; CallSendMessage (Text "m1")] (initial Examples.localhost true)
      = Some s1 /\
    messageQueue s1 = ["m1"] /\ isConnected s1 = false /\ ws s1 = Some 1 /\
    run [SocketError 1; SocketClose 1 false; SocketOpen 0] s1 = Some s2 /\
    messageQueue s2 = [] /\ transmitted s2 = [] /\ isConnected s2 = true /\
    map WebSocket.readyState (sockets s2) = [WebSocket.OPEN; WebSocket.CLOSED].
Proof.
  do 2 eexists. split; [vm_compute; reflexivity|].
  repeat split; vm_compute; reflexivity.
Qed.

(** The same defect at a shorter run: socket 0 opens while socket 1 is
    still connecting.  The flush throws, the queue is kept, and nothing has
    been transmitted although a socket has opened. *)
Lemma superseded_socket_opens_while_current_connects :
  exists s : State,
    run [Mount; CallSendMessage (Text "m1"); SocketOpen 0]
      (initial Examples.localhost true) = Some s /\
    messageQueue s = ["m1"] /\ transmitted s = [] /\
    uncaught s = ["InvalidStateError"] /\ isConnected s = true.
Proof.
  eexists. split; [vm_compute; reflexivity|].
  repeat split; vm_compute; reflexivity.
Qed.

(** The flush changes nothing but the sockets. *)
Lemma forEach_send_refs (q : list string) :
  forall s : State,
    fst (forEach_send q s) = set_sockets (sockets (fst (forEach_send q s))) s.
Proof.
  induction q as [|m q IH]; intros s; [reflexivity|].
  cbn [forEach_send]. unfold send_current.
  destruct (ws s) as [i|]; [|apply IH].
  destruct (sockets s !! i) as [k|]; [|apply IH].
  destruct (WebSocket.send m k) as [k'|e]; [|reflexivity].
  rewrite IH at 1. reflexivity.
Qed.

(** X6: the open of any socket the hook has created puts [retryDelay]
    back to its initial value and sets [isConnected]. *)
Theorem open_resets_retry_delay (s : State) :
  retryDelay (onopen s) = INITIAL_RETRY_DELAY /\ isConnected (onopen s) = true.
Proof.
  unfold onopen.
  set (s1 := set_retryDelay _ _).
  pose proof (forEach_send_refs (messageQueue s1) s1) as H.
  destruct (forEach_send (messageQueue s1) s1) as [s2 [e|]]; cbn [fst] in H;
    rewrite H; split; reflexivity.
Qed.

End Queue.

(** X5: registering a handler twice for a type has the effect of
    registering it once. *)
Theorem on_twice (T : string) (h : nat) (s : State) :
  on T h (on T h s) = on T h s.
Proof.
  unfold on. cbn. rewrite lookup_insert_eq, insert_insert_eq. cbn.
  unfold Set_add at 1.
  destruct (decide (h ∈ Set_add h (default [] (eventHandlers s !! T)))) as [_|H];
    [reflexivity|].
  destruct H. unfold Set_add. destruct (decide _) as [H|H]; [exact H|].
  apply elem_of_app. right. now left.
Qed.

(** X1 to X3 at a run: three messages sent right after the first connect,
    the socket of the last connect attempt opens, a fourth message is
    sent. *)
Lemma three_messages_queued :
  messageQueue Examples.three_sends = ["a"; "b"; "c"] /\
  transmitted Examples.three_sends = [] /\
  length (sockets Examples.three_sends) = 4.
Proof.
  destruct (sendMessage_while_disconnected_queues (json := Examples.stub_json)
              [Text "a"; Text "b"; Text "c"]
              (connect (initial Examples.localhost true)) eq_refl eq_refl)
    as (Hq & Ht & _ & _ & Hl).
  split; [exact Hq|]. split; [exact Ht | exact Hl].
Defined.

Lemma three_messages_flushed :
  exists s : State,
    step (json := Examples.stub_json) (SocketOpen 3) Examples.three_sends = Some s /\
    map WebSocket.sent (sockets s) = [[]; []; []; ["a"; "b"; "c"]] /\
    messageQueue s = [].
Proof.
  destruct (open_of_current_socket_flushes_queue (json := Examples.stub_json)
              Examples.three_sends 3 (WebSocket.create Examples.localhost)
              eq_refl eq_refl eq_refl)
    as (s & Hstep & Hsockets & Hqueue & _).
  exists s. split; [exact Hstep|]. split; [|exact Hqueue].
  rewrite Hsockets. reflexivity.
Defined.

Lemma fourth_message_transmitted :
  let s := onopen (set_sockets
                     (<[3 := WebSocket.mkSocket Examples.localhost WebSocket.OPEN []]>
                        (sockets Examples.three_sends)) Examples.three_sends) in
  map WebSocket.sent (sockets (sendMessage (json := Examples.stub_json) (Text "d") s))
  = [[]; []; []; ["a"; "b"; "c"; "d"]].
Proof.
  intros s.
  rewrite (sendMessage_while_open_transmits (json := Examples.stub_json)
             (Text "d") s 3
             (WebSocket.mkSocket Examples.localhost WebSocket.OPEN ["a"; "b"; "c"])
             eq_refl eq_refl eq_refl).
  reflexivity.
Defined.

End UseWebSocketFacts.

(** ** The registry hook: dispatch of a decoded message *)

Module DispatchFacts.

Import useWebSocket.

Section Handlers.

Context {A : Type} (handler_body : nat -> option Js.value -> A -> A * option string).

(** The loop calls every handler of the list with the payload, in the
    order of the list, whatever the handlers throw, and writes one console
    entry per exception; it changes nothing else of the hook. *)
Lemma forEach_handler_spec (T : string) (payload : option Js.value) (hs : list nat) :
  forall (s : State) (w : World A),
    let r := forEach_handler A handler_body T payload hs (s, w) in
    calls (snd r) = calls w ++ map (fun h => (h, payload)) hs /\
    console (fst r) =
      console s ++ map (handler_error T) (thrown_by A handler_body payload hs (app w)) /\
    fst r = set_console (console (fst r)) s.
Proof.
  induction hs as [|h hs IH]; intros s w; cbn zeta.
  - cbn. rewrite !app_nil_r. repeat split; reflexivity.
  - cbn [forEach_handler thrown_by].
    destruct (handler_body h payload (app w)) as [a' [e|]] eqn:Hb.
    + specialize (IH (log (handler_error T e) s) (mkWorld a' (calls w ++ [(h, payload)]))).
      cbn zeta in IH. destruct IH as (Hc & Hl & Hs).
      repeat split.
      * rewrite Hc. cbn. now rewrite <- app_assoc.
      * rewrite Hl. cbn. now rewrite <- app_assoc.
      * rewrite Hs at 1. reflexivity.
    + specialize (IH s (mkWorld a' (calls w ++ [(h, payload)]))).
      cbn zeta in IH. destruct IH as (Hc & Hl & Hs).
      repeat split.
      * rewrite Hc. cbn. now rewrite <- app_assoc.
      * exact Hl.
      * exact Hs.
Qed.

Lemma truthy_nonempty (T : string) : T <> "" -> Js.truthy (Some (Js.Str T)) = true.
Proof.
  intros H. cbn. destruct (String.eqb_spec T ""); [contradiction|reflexivity].
Qed.




(** A message whose type is a non-empty string under which no handler is
    registered changes nothing: no handler runs, nothing is logged, no
    error is set. *)
Lemma dispatch_without_handlers
    (s : State) (w : World A) (message : Js.value) (T : string) :
  Js.get (Some message) "type" = Js.Normal (Some (Js.Str T)) ->
  T <> "" ->
  registered T s = [] ->
  dispatch A handler_body message (s, w) = (s, w).
Proof.
  intros Htype Hne Hreg. unfold dispatch.
  rewrite Htype, (truthy_nonempty T Hne). cbn [negb handlers_get].
  unfold registered in Hreg.
  destruct (eventHandlers s !! T) as [hs|]; [|reflexivity].
  cbn in Hreg. subst hs.
  destruct message; cbn in Htype; try discriminate. reflexivity.
Qed.

End Handlers.

(** X4: [off] called twice for a handler has the effect of one call. *)
Theorem off_twice (T : string) (h : nat) (s : State) :
  off T h (off T h s) = off T h s.
Proof.
  unfold off. destruct (eventHandlers s !! T) as [hs|] eqn:Hhs.
  - cbn. rewrite lookup_insert_eq, insert_insert_eq.
    unfold Set_delete. rewrite list_filter_filter.
    replace (filter (fun a => a ≠ h ∧ a ≠ h) hs) with (filter (fun x => x ≠ h) hs)
      by (apply list_filter_iff; tauto).
    reflexivity.
  - now rewrite Hhs.
Qed.



End DispatchFacts.

(** ** The encrypting hook *)

Module UseSecureWebSocketFacts.

Import useSecureWebSocket.

Section Hook.

Context {json : Js.JSON} {crypto : SecurityUtils.CryptoJS}.
Context {A : Type} (options : Options A).

(** What [onError?.(...)] adds to the calls made: one call when the
    callback is there, nothing otherwise. *)
Lemma called_call_onError (description : string) (w : World A) :
  called (call_onError A options description w) =
    called w ++ match onError A options with
                | Some _ => [OnError description]
                | None => []
                end.
Proof.
  unfold call_onError. destruct (onError A options); cbn; [reflexivity|].
  now rewrite app_nil_r.
Qed.

(** C10: [sendMessage] while the socket is not open discards the message:
    the hook's refs and its sockets are as before, nothing has been put on
    the wire or kept for later, and the only effect is the call of the
    error callback with [WebSocket is not connected]. *)
Theorem send_while_not_open_reports_and_discards
    (message : Envelope.WebSocketMessage) (salt : SecurityUtils.Salt)
    (s : State) (w : World A) :
  WebSocket.is_open (current s) = false ->
  let r := sendMessage A options message salt (s, w) in
  fst r = s /\
  snd r = call_onError A options "WebSocket is not connected" w /\
  called (snd r) =
    called w ++ match onError A options with
                | Some _ => [OnError "WebSocket is not connected"]
                | None => []
                end.
Proof.
  intros Hopen r.
  assert (Hr : r = (s, call_onError A options "WebSocket is not connected" w)).
  { subst r. unfold sendMessage. unfold current in *.
    destruct (ws s) as [i|]; [|reflexivity].
    destruct (sockets s !! i) as [k|]; [|reflexivity].
    cbn in Hopen. now rewrite Hopen. }
  rewrite Hr. cbn [fst snd]. repeat split. apply called_call_onError.
Qed.

(** C6: a frame whose decryption throws, or whose decrypted text does not
    parse, is dropped: [onMessage] is not called, the hook is left as it
    was, and the error callback is called once with the fixed text
    [Failed to process message], which carries nothing of the frame. *)
Theorem undecodable_frame_is_dropped (data : string) (s : State) (w : World A) :
  (exists e, SecurityUtils.decrypt data (encryptionKey A options) = Js.Throw e) \/
  (exists text, SecurityUtils.decrypt data (encryptionKey A options) = Js.Normal text /\
                Js.JSON_parse text = None) ->
  let r := onmessage A options data (s, w) in
  fst r = s /\
  snd r = call_onError A options "Failed to process message" w /\
  called (snd r) =
    called w ++ match onError A options with
                | Some _ => [OnError "Failed to process message"]
                | None => []
                end.
Proof.
  intros H r.
  assert (Hr : r = (s, call_onError A options "Failed to process message" w)).
  { subst r. unfold onmessage.
    destruct H as [[e He] | (text & Hd & Hp)].
    - now rewrite He.
    - now rewrite Hd, Hp. }
  rewrite Hr. cbn [fst snd]. repeat split. apply called_call_onError.
Qed.


End Hook.

(** C10 at a run: a send before the hook has a socket. *)
Lemma send_before_connect_reports :
  let options := mkOptions nat Examples.localhost true "key" None
                   (Some (fun _ a => S a)) None None in
  let m := Envelope.createWebSocketMessage Envelope.NODE_UPDATE Js.Null None 0%float in
  let r := sendMessage (json := Examples.one_text_json "{}" Js.Null)
             (crypto := Examples.null_cipher) nat options m tt
             (initial, mkWorld 0 []) in
  fst r = initial /\
  called (snd r) = [OnError "WebSocket is not connected"].
Proof.
  intros options m r.
  destruct (send_while_not_open_reports_and_discards
              (json := Examples.one_text_json "{}" Js.Null)
              (crypto := Examples.null_cipher)
              options m tt initial (mkWorld 0 []))
    as (Hs & _ & Hc); [reflexivity|].
  split; [exact Hs | exact Hc].
Defined.

(** C6 at a run: a frame that is not the encryption of a JSON text. *)
Lemma garbage_frame_reports :
  let options := mkOptions nat Examples.localhost true "key"
                   (Some (fun _ a => (S a, None)))
                   (Some (fun _ a => a)) None None in
  let r := onmessage (json := Examples.one_text_json "{}" Js.Null)
             (crypto := Examples.null_cipher) nat options "garbage"
             (initial, mkWorld 0 []) in
  fst r = initial /\
  called (snd r) = [OnError "Failed to process message"] /\
  app (snd r) = 0.
Proof.
  intros options r.
  destruct (undecodable_frame_is_dropped
              (json := Examples.one_text_json "{}" Js.Null)
              (crypto := Examples.null_cipher)
              options "garbage" initial (mkWorld 0 []))
    as (Hs & Hw & Hc).
  { right. exists "garbage". split; reflexivity. }
  split; [exact Hs|]. split; [exact Hc|].
  fold r in Hw. rewrite Hw. reflexivity.
Defined.

End UseSecureWebSocketFacts.

(** ** The preview handler of a node *)

Module NodePreviewHandlerFacts.

Import NodePreviewHandler.




Section Component.

Context {json : Js.JSON} {crypto : SecurityUtils.CryptoJS}.
Variable hostname : string.
Variable stored_key : option string.
Variable urlAccepted : bool.



End Component.



End NodePreviewHandlerFacts.

(** ** Deleting a node on the canvas *)

Module DragDropCanvasFacts.

Import DragDropCanvas.

Lemma edges_cons (n : Node) (ns : list Node) :
  edges (n :: ns) = map (fun targetId => (id n, targetId)) (connections n) ++ edges ns.
Proof. reflexivity. Qed.

Lemma filter_edges_of_node (nodeId : string) (n : Node) :
  filter (fun e : string * string => negb (String.eqb (fst e) nodeId))
    (map (fun targetId => (id n, targetId)) (connections n))
  = if String.eqb (id n) nodeId then []
    else map (fun targetId => (id n, targetId)) (connections n).
Proof.
  induction (connections n) as [|t ts IH].
  - cbn. now destruct (String.eqb (id n) nodeId).
  - rewrite map_cons, filter_cons, IH. cbn [fst].
    destruct (String.eqb (id n) nodeId); cbn; reflexivity.
Qed.

(** The edges kept by a deletion are those that do not leave the node. *)
Lemma edges_after_delete (nodeId : string) (ns : list Node) :
  edges (filter (fun n => negb (String.eqb (id n) nodeId)) ns)
  = filter (fun e : string * string => negb (String.eqb (fst e) nodeId)) (edges ns).
Proof.
  induction ns as [|n ns IH]; [reflexivity|].
  rewrite filter_cons, edges_cons, filter_app, filter_edges_of_node, <- IH.
  destruct (String.eqb (id n) nodeId) eqn:E; cbn.
  - destruct (decide _) as [H|H]; [contradiction | reflexivity].
  - destruct (decide _) as [H|H]; [reflexivity | now destruct H].
Qed.

Lemma has_node_true (targetId : string) (ns : list Node) :
  has_node targetId ns = true -> exists n, In n ns /\ id n = targetId.
Proof.
  unfold has_node. rewrite existsb_exists. intros (n & Hn & E).
  apply String.eqb_eq in E. eauto.
Qed.

Section Component.

Context {json : Js.JSON}.

(** C7, amended: deleting a node removes it from the node list and with
    it the edges that leave it; the edges drawn afterwards touch it
    neither as source nor as target.  The entries of other nodes that
    point to it stay in their [connections], the preview data is left as
    it is, and a later preview update for the node's id is stored under
    that id. *)
Theorem delete_node_removes_node_and_outgoing_edges (nodeId : string) (c : Canvas) :
  let c' := deleteNode_onClick nodeId c in
  nodes c' = filter (fun n => negb (String.eqb (id n) nodeId)) (nodes c) /\
  (forall n, In n (nodes c') -> id n <> nodeId) /\
  edges (nodes c')
  = filter (fun e : string * string => negb (String.eqb (fst e) nodeId)) (edges (nodes c)) /\
  (forall e, In e (lines (nodes c')) -> fst e <> nodeId /\ snd e <> nodeId) /\
  map connections (nodes c')
  = map connections (filter (fun n => negb (String.eqb (id n) nodeId)) (nodes c)) /\
  previewData c' = previewData c /\
  (forall data, previewData (handlePreviewUpdate nodeId data c') !! nodeId = Some data).
Proof.
  intros c'.
  assert (Hnodes : forall n, In n (nodes c') -> id n <> nodeId).
  { intros n Hn. apply list_elem_of_In, list_elem_of_filter in Hn.
    destruct Hn as [Hn _]. cbn in Hn.
    destruct (String.eqb_spec (id n) nodeId); [contradiction | assumption]. }
  assert (Hedges : edges (nodes c')
            = filter (fun e : string * string => negb (String.eqb (fst e) nodeId))
                (edges (nodes c))) by apply edges_after_delete.
  repeat split; try reflexivity; try assumption.
  - apply list_elem_of_In in H. unfold lines in H.
    apply list_elem_of_filter in H. destruct H as [_ H].
    rewrite Hedges in H. apply list_elem_of_filter in H. destruct H as [H _].
    cbn in H. destruct (String.eqb_spec (fst e) nodeId); [contradiction | assumption].
  - apply list_elem_of_In in H. unfold lines in H.
    apply list_elem_of_filter in H. destruct H as [H _].
    apply Is_true_true, has_node_true in H. destruct H as (n & Hn & <-).
    now apply Hnodes.
  - intros data. cbn. apply lookup_insert_eq.
Qed.

End Component.

(** C7, as stated, fails: [n2] is deleted while preview state is stored
    for it.  The edge from [n1] to [n2] is still in the graph, the preview
    state of [n2] is still there, and a preview update that arrives
    afterwards is stored for [n2]; where no preview state was stored for
    [n2], that update creates it. *)
Lemma deleted_node_keeps_incoming_edge_and_preview_state :
  let c := deleteNode_onClick (json := Examples.stub_json) "n2" Examples.canvas in
  let c0 := deleteNode_onClick (json := Examples.stub_json) "n2"
              Examples.canvas_without_previews in
  map id (nodes c) = ["n1"] /\
  edges (nodes c) = [("n1", "n2")] /\
  previewData c !! "n2" = Some Examples.n2_preview /\
  previewData (handlePreviewUpdate "n2" Examples.n2_update c) !! "n2"
  = Some Examples.n2_update /\
  previewData c0 !! "n2" = None /\
  previewData (handlePreviewUpdate "n2" Examples.n2_update c0) !! "n2"
  = Some Examples.n2_update.
Proof. vm_compute. repeat split; reflexivity. Qed.

End DragDropCanvasFacts.

(** ** The singleton client: bounded reconnection *)

Module WebSocketClientFacts.

Import WebSocketClient.

Section Client.

Context {json : Js.JSON}.
Variable url_ok : string -> bool.
Context {A : Type} (options : WebSocketOptions A).

Lemma handleReconnect_state (s : State) (w : World A) :
  fst (handleReconnect A (s, w)) = reconnected s.
Proof.
  unfold handleReconnect, reconnected.
  destruct (reconnectAttempts s <? maxReconnectAttempts)%Z; reflexivity.
Qed.

Lemma reconnected_fields (s : State) :
  reconnectAttempts (reconnected s)
  = (if (reconnectAttempts s <? maxReconnectAttempts)%Z
     then reconnectAttempts s + 1 else reconnectAttempts s)%Z /\
  timers (reconnected s)
  = (if (reconnectAttempts s <? maxReconnectAttempts)%Z
     then timers s ++ [((reconnectDelay * 2 ^ (reconnectAttempts s + 1 - 1))%Z, true)]
     else timers s).
Proof.
  unfold reconnected.
  destruct (reconnectAttempts s <? maxReconnectAttempts)%Z; split; reflexivity.
Qed.

Lemma handleReconnect_bounded (s : State) (w : World A) :
  (0 <= reconnectAttempts s <= maxReconnectAttempts)%Z ->
  (0 <= reconnectAttempts (fst (handleReconnect A (s, w))) <= maxReconnectAttempts)%Z.
Proof.
  intros H. rewrite handleReconnect_state, (proj1 (reconnected_fields s)).
  destruct (Z.ltb_spec (reconnectAttempts s) maxReconnectAttempts); lia.
Qed.

Lemma connect_bounded (u : string) (s : State) (w : World A) :
  (0 <= reconnectAttempts s <= maxReconnectAttempts)%Z ->
  (0 <= reconnectAttempts (fst (connect url_ok A u (s, w))) <= maxReconnectAttempts)%Z.
Proof.
  intros H. unfold connect. destruct (url_ok u); [exact H|].
  now apply handleReconnect_bounded.
Qed.

Lemma send_attempts (type : string) (data : Js.value) (now : string)
    (s : State) (w : World A) :
  reconnectAttempts (fst (send A type data now (s, w))) = reconnectAttempts s.
Proof.
  unfold send. destruct (ws s); [|reflexivity].
  destruct (current s) as [k|]; [|reflexivity].
  destruct (WebSocket.ReadyState_eqb _ _); [|reflexivity].
  destruct (WebSocket.send _ k); reflexivity.
Qed.

Lemma onopen_attempts (now : string) (s : State) (w : World A) :
  reconnectAttempts (fst (onopen A options now (s, w))) = 0%Z.
Proof.
  unfold onopen.
  pose proof (send_attempts "client_metadata"
                (Js.Obj (("client_id", Js.Str (clientId (set_reconnectAttempts 0 s)))
                         :: metadata A options))
                now (set_reconnectAttempts 0 s)
                (log (Js.ConsoleLog "WebSocket connected" None) w)) as H.
  destruct (send A _ _ now _) as [s2 w2]. exact H.
Qed.

Lemma onmessage_state (data : string) (s : State) (w : World A) :
  fst (onmessage A options data (s, w)) = s.
Proof.
  unfold onmessage. destruct (Js.JSON_parse data); [|reflexivity].
  destruct (onMessage A options) as [f|]; [|reflexivity].
  destruct (f _ w) as [w' [e|]]; reflexivity.
Qed.

(** Every event keeps the counter between 0 and 5. *)
Lemma step_bounded (e : Event) (sw sw' : State * World A) :
  step url_ok A options e sw = Some sw' ->
  (0 <= reconnectAttempts (fst sw) <= maxReconnectAttempts)%Z ->
  (0 <= reconnectAttempts (fst sw') <= maxReconnectAttempts)%Z.
Proof.
  destruct sw as [s w]. intros Hstep H. cbn [fst] in H.
  destruct e; unfold step in Hstep; cbv beta iota zeta in Hstep.
  - from_some Hstep. now apply connect_bounded.
  - from_some Hstep. now rewrite send_attempts.
  - from_some Hstep. unfold disconnect. now destruct (ws s).
  - destruct (sockets s !! i) as [k|]; [|discriminate].
    destruct (WebSocket.readyState k); try discriminate.
    from_some Hstep. rewrite onopen_attempts. unfold maxReconnectAttempts. lia.
  - destruct (sockets s !! i) as [k|]; [|discriminate].
    destruct (WebSocket.readyState k); try discriminate;
      from_some Hstep; now rewrite onmessage_state.
  - destruct (sockets s !! i) as [k|]; [|discriminate].
    destruct (WebSocket.readyState k); try discriminate;
      from_some Hstep; unfold onclose; now apply handleReconnect_bounded.
  - destruct (sockets s !! i); [|discriminate].
    from_some Hstep. exact H.
  - destruct (timers s !! t) as [[d []]|]; try discriminate.
    from_some Hstep. unfold timer_callback. cbn [fst].
    destruct (current _) as [k|]; [|exact H].
    destruct (String.eqb _ _); [exact H|].
    now apply connect_bounded.
Qed.

Lemma run_bounded (es : list Event) :
  forall sw sw' : State * World A,
    run url_ok A options es sw = Some sw' ->
    (0 <= reconnectAttempts (fst sw) <= maxReconnectAttempts)%Z ->
    (0 <= reconnectAttempts (fst sw') <= maxReconnectAttempts)%Z.
Proof.
  induction es as [|e es IH]; intros sw sw' Hrun H; cbn [run] in Hrun.
  - now from_some Hrun.
  - destruct (step url_ok A options e sw) as [sw1|] eqn:Hstep; [|discriminate].
    apply (IH sw1 sw' Hrun). exact (step_bounded e sw sw1 Hstep H).
Qed.

(** A close does to the instance what [handleReconnect] does. *)
Lemma onclose_state (s : State) (w : World A) :
  fst (onclose A options (s, w)) = reconnected s.
Proof. unfold onclose. now rewrite handleReconnect_state. Qed.

Lemma iter_onclose_state (n : nat) (s : State) (w : World A) :
  fst (Nat.iter n (onclose A options) (s, w)) = Nat.iter n reconnected s.
Proof.
  induction n as [|n IH]; [reflexivity|].
  rewrite !Nat.iter_succ. destruct (Nat.iter n _ _) as [s1 w1].
  cbn [fst] in IH. subst s1. apply onclose_state.
Qed.

Lemma reconnected_schedule (n : nat) (s : State) :
  reconnectAttempts (Nat.iter n reconnected s) = fst (schedule n (reconnectAttempts s)) /\
  timers (Nat.iter n reconnected s) = timers s ++ snd (schedule n (reconnectAttempts s)).
Proof.
  induction n as [|n [IHa IHt]].
  - cbn. now rewrite app_nil_r.
  - rewrite Nat.iter_succ. cbn [schedule].
    destruct (reconnected_fields (Nat.iter n reconnected s)) as [Ea Et].
    rewrite Ea, Et, IHa, IHt.
    destruct (schedule n (reconnectAttempts s)) as [a1 tm1]. cbn [fst snd].
    destruct (a1 <? maxReconnectAttempts)%Z; cbn [fst snd].
    + now rewrite app_assoc.
    + split; reflexivity.
Qed.

(** C9: in every state the instance can reach the counter is at most 5.
    A call of [handleReconnect] that finds it below 5 raises it by one, to
    [n], and sets one timer, of [1000 * 2^(n-1)] ms; one that finds it at 5
    sets no timer and changes nothing; [onopen] puts it back to 0.  So
    closes in a row set timers of 1000, 2000, 4000, 8000 and 16000 ms and
    then none. *)
Theorem reconnect_attempts_bounded :
  (forall es uuid w sw',
     run url_ok A options es (construct uuid, w) = Some sw' ->
     (0 <= reconnectAttempts (fst sw') <= maxReconnectAttempts)%Z) /\
  (forall s w,
     (0 <= reconnectAttempts s < maxReconnectAttempts)%Z ->
     let s' := fst (handleReconnect A (s, w)) in
     reconnectAttempts s' = (reconnectAttempts s + 1)%Z /\
     timers s' = timers s ++ [((1000 * 2 ^ (reconnectAttempts s' - 1))%Z, true)]) /\
  (forall s w,
     reconnectAttempts s = maxReconnectAttempts ->
     fst (handleReconnect A (s, w)) = s) /\
  (forall s w now, reconnectAttempts (fst (onopen A options now (s, w))) = 0%Z) /\
  (forall s w,
     reconnectAttempts s = 0%Z ->
     let s' := fst (Nat.iter 7 (onclose A options) (s, w)) in
     reconnectAttempts s' = 5%Z /\
     timers s' =
       timers s ++ [(1000, true); (2000, true); (4000, true); (8000, true);
                    (16000, true)]%Z).
Proof.
  split; [|split; [|split; [|split]]].
  - intros es uuid w sw' Hrun. apply (run_bounded es _ sw' Hrun).
    cbn. unfold maxReconnectAttempts. lia.
  - intros s w H s'. subst s'. rewrite handleReconnect_state.
    destruct (reconnected_fields s) as [Ea Et]. rewrite Ea, Et.
    destruct (Z.ltb_spec (reconnectAttempts s) maxReconnectAttempts); [|lia].
    split; reflexivity.
  - intros s w H. rewrite handleReconnect_state. unfold reconnected.
    now rewrite H.
  - intros s w now. apply onopen_attempts.
  - intros s w H s'. subst s'. rewrite iter_onclose_state.
    destruct (reconnected_schedule 7 s) as [Ha Ht]. rewrite Ha, Ht, H.
    split; reflexivity.
Qed.

End Client.

(** C9 at a run: the socket fails six times in a row, each reconnect
    timer firing before the next failure. *)
Lemma six_failures_five_timers :
  let options := mkOptions unit None None None None [] in
  let es := [CallConnect Examples.localhost;
             SocketClose 0; TimerFires 0; SocketClose 1; TimerFires 1;
             SocketClose 2; TimerFires 2; SocketClose 3; TimerFires 3;
             SocketClose 4; TimerFires 4; SocketClose 5] in
  (exists sw',
     run (json := Examples.stub_json) (fun _ => true) unit options es
       (construct "client", mkWorld tt []) = Some sw' /\
     map fst (timers (fst sw')) = [1000; 2000; 4000; 8000; 16000]%Z /\
     (0 <= reconnectAttempts (fst sw') <= maxReconnectAttempts)%Z) /\
  reconnectAttempts
    (fst (Nat.iter 7 (onclose unit options) (construct "client", mkWorld tt []))) = 5%Z.
Proof.
  intros options es.
  destruct (reconnect_attempts_bounded (json := Examples.stub_json)
              (fun _ => true) options) as (Hrun & _ & _ & _ & Hcloses).
  split.
  - eexists. split; [vm_compute; reflexivity|]. split; [reflexivity|].
    apply (Hrun es "client" (mkWorld tt [])). vm_compute. reflexivity.
  - exact (proj1 (Hcloses (construct "client") (mkWorld tt []) eq_refl)).
Defined.

End WebSocketClientFacts.

(** ** Messages of a type nobody handles *)

Module UnknownTypeFacts.

(** C8, as stated, fails in the registry hook: a message of a type with
    no registered handler is dropped and nothing is written to the
    console. *)
Lemma message_of_unregistered_type_leaves_no_trace :
  let s := useWebSocket.on "preview_update" 0 (useWebSocket.initial Examples.localhost true) in
  let message := Js.Obj [("type", Js.Str "mystery"); ("payload", Js.Null)] in
  let r := useWebSocket.dispatch nat Examples.counting_handlers message
             (s, useWebSocket.mkWorld 0 []) in
  useWebSocket.registered "mystery" s = [] /\
  useWebSocket.console (fst r) = [] /\
  useWebSocket.calls (snd r) = [] /\
  useWebSocket.error (fst r) = None.
Proof. vm_compute. repeat split; reflexivity. Qed.

Lemma known_type_false (type : option Js.value) :
  WebSocketProvider.known_type type = false ->
  Js.is_string type "document_processed" = false /\
  Js.is_string type "workflow_updated" = false /\
  Js.is_string type "element_updated" = false /\
  Js.is_string type "error" = false.
Proof.
  unfold WebSocketProvider.known_type. intros H.
  repeat (apply orb_false_elim in H; destruct H as [H ?]). auto.
Qed.

(** C8, amended: in the registry hook a decoded message whose type is a
    non-empty string with no registered handler is ignored, and no trace
    of it is left: no handler runs, nothing is logged, no error is set.  In
    the provider's [handleMessage] a message whose type is none of the four
    it knows is written to the console with [console.log] and has no other
    effect. *)
Theorem unregistered_type_is_ignored :
  (forall (A : Type) (handler_body : nat -> option Js.value -> A -> A * option string)
          (s : useWebSocket.State) (w : useWebSocket.World A) (message : Js.value) (T : string),
     Js.get (Some message) "type" = Js.Normal (Some (Js.Str T)) ->
     T <> "" ->
     useWebSocket.registered T s = [] ->
     useWebSocket.dispatch A handler_body message (s, w) = (s, w)) /\
  (forall (message : Js.value) (type : option Js.value)
          (w : WebSocketClient.World WebSocketProvider.Window),
     Js.get (Some message) "type" = Js.Normal type ->
     WebSocketProvider.known_type type = false ->
     WebSocketProvider.handleMessage message w =
       (WebSocketClient.log (Js.ConsoleLog "Received message:" (Some message)) w, None)).
Proof.
  split.
  - intros A handler_body s w message T. apply DispatchFacts.dispatch_without_handlers.
  - intros message type w Htype Hknown.
    destruct (known_type_false type Hknown) as (H1 & H2 & H3 & H4).
    unfold WebSocketProvider.handleMessage. now rewrite Htype, H1, H2, H3, H4.
Qed.

(** The amended C8 at a run. *)
Lemma mystery_message_dropped_or_logged :
  let s := useWebSocket.on "preview_update" 0 (useWebSocket.initial Examples.localhost true) in
  let message := Js.Obj [("type", Js.Str "mystery"); ("payload", Js.Null)] in
  let w := WebSocketClient.mkWorld (WebSocketProvider.mkWindow true []) [] in
  useWebSocket.dispatch nat Examples.counting_handlers message (s, useWebSocket.mkWorld 0 [])
  = (s, useWebSocket.mkWorld 0 []) /\
  WebSocketProvider.handleMessage message w
  = (WebSocketClient.mkWorld (WebSocketProvider.mkWindow true [])
       [Js.ConsoleLog "Received message:" (Some message)], None).
Proof.
  intros s message w. destruct unregistered_type_is_ignored as [Hhook Hprovider]. split.
  - apply (Hhook nat Examples.counting_handlers s _ message "mystery");
      [reflexivity | discriminate | reflexivity].
  - apply (Hprovider message (Some (Js.Str "mystery")) w); reflexivity.
Defined.

End UnknownTypeFacts.

(** ** The registry hook along every run *)

Module UseWebSocketRunFacts.

Import useWebSocket.

(** Replacing a socket by one that has sent the same frames leaves the
    frames on the wire as they are. *)
Lemma sent_insert_same (l : list WebSocket.Socket) (i : nat) (k k' : WebSocket.Socket) :
  l !! i = Some k -> WebSocket.sent k' = WebSocket.sent k ->
  map WebSocket.sent (<[i := k']> l) = map WebSocket.sent l.
Proof.
  intros Hk E.
  change (map WebSocket.sent (<[i := k']> l)) with (WebSocket.sent <$> <[i := k']> l).
  rewrite list_fmap_insert, E. apply list_insert_id.
  rewrite list_lookup_fmap, Hk. reflexivity.
Qed.

Lemma sent_alter_close (l : list WebSocket.Socket) (i : nat) :
  map WebSocket.sent (alter WebSocket.close i l) = map WebSocket.sent l.
Proof.
  revert i. induction l as [|k l IH]; intros [|i]; cbn; try reflexivity.
  - f_equal. unfold WebSocket.close. destruct (WebSocket.readyState k); reflexivity.
  - f_equal. apply IH.
Qed.

(** A socket that sends [q] more frames adds [q] to the frames on the
    wire. *)
Lemma sent_insert_more (l : list WebSocket.Socket) (i : nat) (k k' : WebSocket.Socket)
    (q : list string) :
  l !! i = Some k -> WebSocket.sent k' = WebSocket.sent k ++ q ->
  concat (map WebSocket.sent (<[i := k']> l)) ≡ₚ concat (map WebSocket.sent l) ++ q.
Proof.
  revert i. induction l as [|a l IH]; intros [|i] Hk E; try discriminate.
  - cbn in Hk. injection Hk as ->. cbn. rewrite E, <- !app_assoc.
    apply Permutation_app_head, Permutation_app_comm.
  - cbn in Hk. cbn. rewrite <- app_assoc. apply Permutation_app_head.
    now apply IH.
Qed.

Section Runs.

Context {json : Js.JSON}.

(** What the flush of [onopen] does, by the state of the socket
    [ws.current] points to: an open socket takes the whole queue; in every
    other case nothing changes, and a socket that is still connecting
    throws at the first message. *)
Lemma forEach_send_cases (q : list string) (s : State) :
  (exists i k,
     ws s = Some i /\ sockets s !! i = Some k /\
     WebSocket.readyState k = WebSocket.OPEN /\
     forEach_send q s =
       (set_sockets
          (<[i := WebSocket.mkSocket (WebSocket.url k) WebSocket.OPEN (WebSocket.sent k ++ q)]>
             (sockets s)) s, None)) \/
  (WebSocket.is_open (current s) = false /\ exists r, forEach_send q s = (s, r)).
Proof.
  unfold current. destruct (ws s) as [i|] eqn:Hws.
  2:{ right. split; [reflexivity|]. exists None.
      induction q as [|m q IH]; [reflexivity|].
      cbn [forEach_send]. unfold send_current. now rewrite Hws. }
  destruct (sockets s !! i) as [k|] eqn:Hk.
  2:{ right. split; [reflexivity|]. exists None.
      induction q as [|m q IH]; [reflexivity|].
      cbn [forEach_send]. unfold send_current. now rewrite Hws, Hk. }
  destruct (WebSocket.readyState k) eqn:Hr.
  - right. split; [cbn; now rewrite Hr|].
    destruct q as [|m q]; [now exists None|]. exists (Some "InvalidStateError").
    cbn [forEach_send]. unfold send_current, WebSocket.send. now rewrite Hws, Hk, Hr.
  - left. exists i, k. repeat split; try assumption.
    now apply UseWebSocketFacts.forEach_send_open.
  - right. split; [cbn; now rewrite Hr|]. exists None.
    induction q as [|m q IH]; [reflexivity|].
    cbn [forEach_send]. unfold send_current, WebSocket.send. rewrite Hws, Hk, Hr.
    rewrite list_insert_id by exact Hk. exact IH.
  - right. split; [cbn; now rewrite Hr|]. exists None.
    induction q as [|m q IH]; [reflexivity|].
    cbn [forEach_send]. unfold send_current, WebSocket.send. rewrite Hws, Hk, Hr.
    rewrite list_insert_id by exact Hk. exact IH.
Qed.

Lemma connect_frames (s : State) :
  transmitted (connect s) = transmitted s /\ messageQueue (connect s) = messageQueue s.
Proof.
  unfold connect. destruct (WebSocket.is_open (current s)); [now split|].
  destruct (urlAccepted s); [|now split].
  unfold transmitted. cbn. rewrite map_app, concat_app. cbn.
  rewrite !app_nil_r. now split.
Qed.

Lemma close_current_frames (s : State) :
  transmitted (close_current s) = transmitted s /\
  messageQueue (close_current s) = messageQueue s.
Proof.
  unfold close_current. destruct (ws s) as [i|]; [|now split].
  unfold transmitted. cbn. rewrite sent_alter_close. now split.
Qed.

Lemma reconnect_frames (s : State) :
  transmitted (reconnect s) = transmitted s /\ messageQueue (reconnect s) = messageQueue s.
Proof.
  unfold reconnect.
  destruct (connect_frames (set_retryDelay INITIAL_RETRY_DELAY (close_current s)))
    as [-> ->].
  exact (close_current_frames s).
Qed.

(** The frames on the wire and in the queue after [onopen]. *)
Lemma onopen_frames (s : State) :
  transmitted (onopen s) ++ messageQueue (onopen s) ⊆+ transmitted s ++ messageQueue s.
Proof.
  unfold onopen. set (s1 := set_retryDelay _ _).
  change (transmitted s ++ messageQueue s) with (transmitted s1 ++ messageQueue s1).
  destruct (forEach_send_cases (messageQueue s1) s1)
    as [(i & k & Hws & Hk & Hopen & ->) | (_ & r & ->)].
  - unfold transmitted. cbn. rewrite app_nil_r.
    rewrite (sent_insert_more (sockets s) i k _ (messageQueue s) Hk); reflexivity.
  - destruct r as [e|]; cbn; [reflexivity|].
    rewrite app_nil_r. apply submseteq_inserts_r. reflexivity.
Qed.

Lemma sendMessage_frames (m : Message) (s : State) :
  transmitted (sendMessage m s) ++ messageQueue (sendMessage m s)
  ≡ₚ (transmitted s ++ messageQueue s) ++ [text_of m].
Proof.
  unfold sendMessage. destruct (WebSocket.is_open (current s)) eqn:Hopen.
  - unfold current in Hopen. unfold send_current.
    destruct (ws s) as [i|]; [|discriminate].
    destruct (sockets s !! i) as [k|] eqn:Hk; [|discriminate].
    cbn in Hopen. unfold WebSocket.send.
    destruct (WebSocket.readyState k); try discriminate.
    unfold transmitted. cbn.
    rewrite (sent_insert_more (sockets s) i k _ [text_of m] Hk); [|reflexivity].
    rewrite <- !app_assoc. apply Permutation_app_head, Permutation_app_comm.
  - set (s1 := set_messageQueue _ s).
    assert (E : transmitted s1 ++ messageQueue s1
                = (transmitted s ++ messageQueue s) ++ [text_of m])
      by (cbn; now rewrite app_assoc).
    destruct (isConnected s1); [now rewrite E|].
    destruct (connect_frames s1) as [-> ->]. now rewrite E.
Qed.

(** One event adds to the frames on the wire and in the queue at most the
    text it hands to [sendMessage]. *)
Lemma step_frames (e : Event) (s s' : State) :
  step e s = Some s' ->
  transmitted s' ++ messageQueue s' ⊆+ (transmitted s ++ messageQueue s) ++ texts [e].
Proof.
  intros Hstep. destruct e; unfold step in Hstep; cbn [texts flat_map];
    rewrite ?app_nil_r.
  - from_some Hstep. now destruct (connect_frames s) as [-> ->].
  - from_some Hstep. unfold cleanup.
    destruct (close_current_frames
                (match reconnectTimeout s with
                 | Some t => clearTimeout t s
                 | None => s
                 end)) as [-> ->].
    now destruct (reconnectTimeout s).
  - destruct (sockets s !! i) as [k|] eqn:Hk; [|discriminate].
    destruct (WebSocket.readyState k); try discriminate.
    from_some Hstep. etransitivity; [apply onopen_frames|].
    unfold transmitted. cbn. now rewrite (sent_insert_same (sockets s) i k _ Hk).
  - destruct (sockets s !! i) as [k|] eqn:Hk; [|discriminate].
    assert (E : transmitted
                  (onclose wasClean
                     (set_sockets
                        (<[i := WebSocket.set_readyState WebSocket.CLOSED k]> (sockets s)) s))
                = transmitted s /\
                messageQueue
                  (onclose wasClean
                     (set_sockets
                        (<[i := WebSocket.set_readyState WebSocket.CLOSED k]> (sockets s)) s))
                = messageQueue s).
    { unfold transmitted. destruct wasClean; cbn;
        now rewrite (sent_insert_same (sockets s) i k _ Hk). }
    destruct (WebSocket.readyState k); try discriminate;
      from_some Hstep; now destruct E as [-> ->].
  - destruct (sockets s !! i); [|discriminate]. now from_some Hstep.
  - destruct (timers s !! t) as [tm|]; [|discriminate].
    destruct (pending tm); [|discriminate].
    from_some Hstep. now destruct (connect_frames (set_timers (<[t := mkTimer (delay tm) false]> (timers s)) s)) as [-> ->].
  - from_some Hstep. now rewrite sendMessage_frames.
  - now from_some Hstep.
  - from_some Hstep. unfold off. now destruct (eventHandlers s !! type).
  - from_some Hstep. now destruct (reconnect_frames s) as [-> ->].
Qed.

Lemma texts_cons (e : Event) (es : list Event) : texts (e :: es) = texts [e] ++ texts es.
Proof. unfold texts. cbn. now rewrite app_nil_r. Qed.

Lemma run_frames (es : list Event) :
  forall s s' : State,
    run es s = Some s' ->
    transmitted s' ++ messageQueue s' ⊆+ (transmitted s ++ messageQueue s) ++ texts es.
Proof.
  induction es as [|e es IH]; intros s s' Hrun; cbn [run] in Hrun.
  - from_some Hrun. cbn. now rewrite app_nil_r.
  - destruct (step e s) as [s1|] eqn:Hstep; [|discriminate].
    rewrite texts_cons, app_assoc.
    etransitivity; [exact (IH s1 s' Hrun)|].
    apply submseteq_app; [|reflexivity]. now apply step_frames.
Qed.

(** X8: whatever happens to a mounted hook, the frames its sockets have
    put on the wire, together with the messages still queued, are among
    the texts handed to [sendMessage], each at most as often as it was
    handed over: no frame is made up and none is transmitted twice. *)
Theorem frames_are_sent_messages (es : list Event) (u : string) (ok : bool) (s : State) :
  run es (initial u ok) = Some s ->
  transmitted s ++ messageQueue s ⊆+ texts es /\
  length (transmitted s) + length (messageQueue s) <= length (texts es).
Proof.
  intros Hrun. pose proof (run_frames es _ s Hrun) as H. cbn in H.
  split; [exact H|]. apply submseteq_length in H. now rewrite length_app in H.
Qed.

(** *** The queue is empty while the current socket is open *)

Lemma current_set_sockets (v : list WebSocket.Socket) (s : State) :
  current (set_sockets v s) = match ws s with
                              | Some i => v !! i
                              | None => None
                              end.
Proof. reflexivity. Qed.

Lemma close_current_not_open (s : State) :
  WebSocket.is_open (current (close_current s)) = false.
Proof.
  unfold close_current, current. destruct (ws s) as [i|] eqn:Hws; [|now rewrite Hws].
  change (WebSocket.is_open
            match ws s with
            | Some j => alter WebSocket.close i (sockets s) !! j
            | None => None
            end = false).
  rewrite Hws, list_lookup_alter_eq.
  destruct (sockets s !! i) as [k|]; [|reflexivity].
  cbn. unfold WebSocket.close. destruct (WebSocket.readyState k) eqn:E; cbn; now rewrite ?E.
Qed.

Lemma connect_queue (s : State) :
  queue_empty_while_open s -> queue_empty_while_open (connect s).
Proof.
  intros H Ho. destruct (WebSocket.is_open (current s)) eqn:E.
  - unfold connect in *. rewrite E in *. now apply H.
  - destruct (UseWebSocketFacts.connect_not_open s E) as [Hn _]. congruence.
Qed.

Lemma connect_after_close_queue (s : State) :
  WebSocket.is_open (current s) = false -> queue_empty_while_open (connect s).
Proof.
  intros E Ho. destruct (UseWebSocketFacts.connect_not_open s E) as [Hn _]. congruence.
Qed.

Lemma onopen_queue (s : State) : queue_empty_while_open (onopen s).
Proof.
  unfold onopen. set (s1 := set_retryDelay _ _).
  destruct (forEach_send_cases (messageQueue s1) s1)
    as [(i & k & Hws & Hk & Hopen & ->) | (Hn & r & ->)].
  - intros _. reflexivity.
  - intros Ho. destruct r; [|reflexivity].
    change (WebSocket.is_open (current s1) = true) in Ho. congruence.
Qed.

(** Closing socket [i] opens nothing. *)
Lemma closed_socket_queue (s : State) (i : nat) (k : WebSocket.Socket) :
  sockets s !! i = Some k ->
  queue_empty_while_open s ->
  queue_empty_while_open
    (set_sockets (<[i := WebSocket.set_readyState WebSocket.CLOSED k]> (sockets s)) s).
Proof.
  intros Hk H Ho. apply H. revert Ho. rewrite current_set_sockets. unfold current.
  destruct (ws s) as [j|]; [|trivial].
  destruct (decide (j = i)) as [->|Hne].
  - rewrite list_lookup_insert_eq by (now apply lookup_lt_Some in Hk). discriminate.
  - now rewrite list_lookup_insert_ne by congruence.
Qed.

Lemma sendMessage_queue (m : Message) (s : State) :
  queue_empty_while_open s -> queue_empty_while_open (sendMessage m s).
Proof.
  intros H. destruct (WebSocket.is_open (current s)) eqn:Hopen.
  - intros _. specialize (H Hopen).
    unfold sendMessage. rewrite Hopen.
    pose proof (UseWebSocketFacts.forEach_send_refs [text_of m] s) as E.
    cbn [forEach_send] in E.
    destruct (send_current (text_of m) s) as [s' [e|]]; cbn [fst] in E; rewrite E; exact H.
  - rewrite (UseWebSocketFacts.sendMessage_not_open m s Hopen). cbn zeta.
    set (s1 := set_messageQueue _ s).
    destruct (isConnected s).
    + intros Ho. change (WebSocket.is_open (current s) = true) in Ho. congruence.
    + now apply connect_after_close_queue.
Qed.

Lemma step_queue (e : Event) (s s' : State) :
  step e s = Some s' -> queue_empty_while_open s -> queue_empty_while_open s'.
Proof.
  intros Hstep H. destruct e; unfold step in Hstep.
  - from_some Hstep. now apply connect_queue.
  - from_some Hstep. intros Ho. unfold cleanup in Ho.
    now rewrite close_current_not_open in Ho.
  - destruct (sockets s !! i) as [k|]; [|discriminate].
    destruct (WebSocket.readyState k); try discriminate.
    from_some Hstep. apply onopen_queue.
  - destruct (sockets s !! i) as [k|] eqn:Hk; [|discriminate].
    pose proof (closed_socket_queue s i k Hk H) as H1.
    destruct (WebSocket.readyState k); try discriminate; from_some Hstep;
      destruct wasClean; exact H1.
  - destruct (sockets s !! i); [|discriminate]. from_some Hstep. exact H.
  - destruct (timers s !! t) as [tm|]; [|discriminate].
    destruct (pending tm); [|discriminate].
    from_some Hstep. apply connect_queue. exact H.
  - from_some Hstep. now apply sendMessage_queue.
  - from_some Hstep. exact H.
  - from_some Hstep. unfold off. destruct (eventHandlers s !! type); exact H.
  - from_some Hstep. unfold reconnect. apply connect_after_close_queue.
    exact (close_current_not_open s).
Qed.

Lemma connect_last (s : State) : ws_is_last s -> ws_is_last (connect s).
Proof.
  unfold connect. destruct (WebSocket.is_open (current s)); [trivial|].
  destruct (urlAccepted s); [|trivial].
  intros _. unfold ws_is_last. cbn. rewrite length_app. cbn. lia.
Qed.

Lemma close_current_last (s : State) : ws_is_last s -> ws_is_last (close_current s).
Proof.
  unfold close_current. destruct (ws s) as [i|] eqn:Hws; [|trivial].
  unfold ws_is_last. intros H.
  change (match ws s with
          | Some j => S j = length (alter WebSocket.close i (sockets s))
          | None => alter WebSocket.close i (sockets s) = []
          end).
  rewrite Hws in *. now rewrite length_alter.
Qed.

Lemma insert_last (s : State) (i : nat) (k k' : WebSocket.Socket) :
  sockets s !! i = Some k -> ws_is_last s ->
  ws_is_last (set_sockets (<[i := k']> (sockets s)) s).
Proof.
  intros Hk H. unfold ws_is_last in *.
  change (match ws s with
          | Some j => S j = length (<[i := k']> (sockets s))
          | None => <[i := k']> (sockets s) = []
          end).
  destruct (ws s).
  - now rewrite length_insert.
  - rewrite H in Hk. discriminate.
Qed.

Lemma forEach_send_last (q : list string) (s : State) :
  ws_is_last s -> ws_is_last (fst (forEach_send q s)).
Proof.
  destruct (forEach_send_cases q s) as [(i & k & Hws & Hk & Hopen & ->) | (_ & r & ->)];
    [|trivial].
  cbn [fst]. now apply (insert_last s i k).
Qed.

Lemma step_last (e : Event) (s s' : State) :
  step e s = Some s' -> ws_is_last s -> ws_is_last s'.
Proof.
  intros Hstep H. destruct e; unfold step in Hstep.
  - from_some Hstep. now apply connect_last.
  - from_some Hstep. unfold cleanup. apply close_current_last.
    now destruct (reconnectTimeout s).
  - destruct (sockets s !! i) as [k|] eqn:Hk; [|discriminate].
    destruct (WebSocket.readyState k); try discriminate.
    from_some Hstep. unfold onopen. set (s1 := set_retryDelay _ _).
    assert (H1 : ws_is_last s1) by exact (insert_last s i k _ Hk H).
    pose proof (forEach_send_last (messageQueue s1) s1 H1) as H2.
    destruct (forEach_send (messageQueue s1) s1) as [s2 [e|]]; exact H2.
  - destruct (sockets s !! i) as [k|] eqn:Hk; [|discriminate].
    pose proof (insert_last s i k (WebSocket.set_readyState WebSocket.CLOSED k) Hk H) as H1.
    destruct (WebSocket.readyState k); try discriminate; from_some Hstep;
      destruct wasClean; exact H1.
  - destruct (sockets s !! i); [|discriminate]. from_some Hstep. exact H.
  - destruct (timers s !! t) as [tm|]; [|discriminate].
    destruct (pending tm); [|discriminate].
    from_some Hstep. apply connect_last. exact H.
  - from_some Hstep. unfold sendMessage.
    destruct (WebSocket.is_open (current s)).
    + pose proof (forEach_send_last [text_of m] s H) as H1. cbn [forEach_send] in H1.
      destruct (send_current (text_of m) s) as [s1 [e|]]; exact H1.
    + cbn zeta. destruct (isConnected _); [exact H|]. apply connect_last. exact H.
  - from_some Hstep. exact H.
  - from_some Hstep. unfold off. destruct (eventHandlers s !! type); exact H.
  - from_some Hstep. unfold reconnect. apply connect_last.
    exact (close_current_last s H).
Qed.

(** X9: in every state a mounted hook can reach, [ws.current] is the
    socket created last (or unset while none has been created), and while
    that socket is open the pending queue is empty: no message waits while
    the connection is up. *)
Theorem queue_is_empty_while_current_is_open
    (es : list Event) (u : string) (ok : bool) (s : State) :
  run es (initial u ok) = Some s ->
  (WebSocket.is_open (current s) = true -> messageQueue s = []) /\
  match ws s with
  | Some i => S i = length (sockets s)
  | None => sockets s = []
  end.
Proof.
  assert (G : forall s0, queue_empty_while_open s0 -> ws_is_last s0 ->
                run es s0 = Some s -> queue_empty_while_open s /\ ws_is_last s).
  { induction es as [|e es IH]; intros s0 Hq Hl Hrun; cbn [run] in Hrun.
    - from_some Hrun. now split.
    - destruct (step e s0) as [s1|] eqn:Hstep; [|discriminate].
      exact (IH s1 (step_queue e s0 s1 Hstep Hq) (step_last e s0 s1 Hstep Hl) Hrun). }
  intros Hrun. apply (G (initial u ok)); [discriminate | reflexivity | exact Hrun].
Qed.

(** *** The delays of the reconnect timers *)

Lemma connect_delays (s : State) : delay_view (connect s) = delay_view s.
Proof.
  unfold connect. destruct (WebSocket.is_open (current s)); [reflexivity|].
  destruct (urlAccepted s); reflexivity.
Qed.

Lemma map_delay_alter (t : nat) (l : list Timer) :
  map delay (alter (fun tm => mkTimer (delay tm) false) t l) = map delay l.
Proof.
  revert t. induction l as [|tm l IH]; intros [|t]; cbn; try reflexivity.
  f_equal. apply IH.
Qed.

Lemma map_delay_insert (t : nat) (tm : Timer) (l : list Timer) :
  l !! t = Some tm ->
  map delay (<[t := mkTimer (delay tm) false]> l) = map delay l.
Proof.
  revert t. induction l as [|a l IH]; intros [|t] H; cbn; try reflexivity.
  - cbn in H. injection H as ->. reflexivity.
  - f_equal. now apply IH.
Qed.

Lemma sendMessage_delays (m : Message) (s : State) :
  delay_view (sendMessage m s) = delay_view s.
Proof.
  unfold sendMessage. destruct (WebSocket.is_open (current s)).
  - pose proof (UseWebSocketFacts.forEach_send_refs [text_of m] s) as E.
    cbn [forEach_send] in E.
    destruct (send_current (text_of m) s) as [s' [e|]]; cbn [fst] in E; now rewrite E.
  - cbn zeta. destruct (isConnected _); [reflexivity|]. now rewrite connect_delays.
Qed.

Lemma onopen_delays (s : State) :
  delay_view (onopen s) = (INITIAL_RETRY_DELAY, snd (delay_view s)).
Proof.
  unfold onopen. set (s1 := set_retryDelay _ _).
  pose proof (UseWebSocketFacts.forEach_send_refs (messageQueue s1) s1) as E.
  destruct (forEach_send (messageQueue s1) s1) as [s2 [e|]]; cbn [fst] in E;
    now rewrite E.
Qed.

Lemma step_delays (e : Event) (s s' : State) :
  step e s = Some s' ->
  delay_view s' = delay_view s \/
  delay_view s' = (INITIAL_RETRY_DELAY, snd (delay_view s)) \/
  delay_view s' = (next_delay (retryDelay s),
                   snd (delay_view s) ++ [next_delay (retryDelay s)]).
Proof.
  intros Hstep. destruct e; unfold step in Hstep.
  - from_some Hstep. left. apply connect_delays.
  - from_some Hstep. left. unfold cleanup, close_current, delay_view.
    destruct (reconnectTimeout s) as [t|].
    + destruct (ws (clearTimeout t s)); cbn; now rewrite map_delay_alter.
    + now destruct (ws s).
  - destruct (sockets s !! i) as [k|]; [|discriminate].
    destruct (WebSocket.readyState k); try discriminate.
    from_some Hstep. right. left. now rewrite onopen_delays.
  - destruct (sockets s !! i) as [k|]; [|discriminate].
    assert (H : delay_view
                  (onclose wasClean
                     (set_sockets
                        (<[i := WebSocket.set_readyState WebSocket.CLOSED k]> (sockets s)) s))
                = (if wasClean then delay_view s
                   else (next_delay (retryDelay s),
                         snd (delay_view s) ++ [next_delay (retryDelay s)]))).
    { destruct wasClean; [reflexivity|].
      unfold onclose, setTimeout_connect, delay_view. cbn. now rewrite map_app. }
    destruct (WebSocket.readyState k); try discriminate; from_some Hstep;
      rewrite H; destruct wasClean; auto.
  - destruct (sockets s !! i); [|discriminate]. from_some Hstep. now left.
  - destruct (timers s !! t) as [tm|] eqn:Ht; [|discriminate].
    destruct (pending tm); [|discriminate].
    from_some Hstep. left. rewrite connect_delays. unfold delay_view. cbn.
    now rewrite (map_delay_insert t tm (timers s) Ht).
  - from_some Hstep. left. apply sendMessage_delays.
  - from_some Hstep. now left.
  - from_some Hstep. left. unfold off. now destruct (eventHandlers s !! type).
  - from_some Hstep. right. left. unfold reconnect. rewrite connect_delays.
    unfold close_current. now destruct (ws s).
Qed.

Lemma tl_In_delays (d : float) : In d (tl delays) -> In d delays.
Proof. intros H. now right. Qed.

Lemma next_delay_in (d : float) : In d delays -> In (next_delay d) (tl delays).
Proof.
  unfold delays. cbn [In tl]. intros H.
  repeat (destruct H as [<-|H];
          [vm_compute; repeat first [left; reflexivity | right]|]).
  destruct H.
Qed.

Lemma delays_bounds (d : float) :
  In d delays ->
  PrimFloat.leb INITIAL_RETRY_DELAY d = true /\ PrimFloat.leb d MAX_RETRY_DELAY = true.
Proof.
  unfold delays. cbn [In]. intros H.
  repeat (destruct H as [<-|H]; [vm_compute; split; reflexivity|]).
  destruct H.
Qed.

Lemma timer_delays_bounds (d : float) :
  In d (tl delays) ->
  PrimFloat.leb 1500 d = true /\ PrimFloat.leb d MAX_RETRY_DELAY = true.
Proof.
  unfold delays. cbn [In tl]. intros H.
  repeat (destruct H as [<-|H]; [vm_compute; split; reflexivity|]).
  destruct H.
Qed.

Lemma run_delays (es : list Event) :
  forall s s' : State,
    run es s = Some s' ->
    In (retryDelay s) delays -> Forall (fun d => In d (tl delays)) (map delay (timers s)) ->
    In (retryDelay s') delays /\ Forall (fun d => In d (tl delays)) (map delay (timers s')).
Proof.
  induction es as [|e es IH]; intros s s' Hrun Hd Ht; cbn [run] in Hrun.
  - from_some Hrun. now split.
  - destruct (step e s) as [s1|] eqn:Hstep; [|discriminate].
    apply (IH s1 s' Hrun);
      destruct (step_delays e s s1 Hstep) as [E | [E | E]];
      unfold delay_view in E; cbn [snd] in E;
      apply (f_equal fst) in E as E1; apply (f_equal snd) in E as E2;
      cbn [fst snd] in E1, E2; rewrite ?E1, ?E2; try assumption.
    + now left.
    + apply tl_In_delays. now apply next_delay_in.
    + apply Forall_app. split; [assumption|].
      apply Forall_cons. split; [now apply next_delay_in | constructor].
Qed.

(** X10: whatever happens to a mounted hook, every reconnect timer it has
    set carries a delay between 1500 ms and [MAX_RETRY_DELAY], and
    [retryDelay.current] lies between [INITIAL_RETRY_DELAY] and
    [MAX_RETRY_DELAY]. *)
Theorem reconnect_delays_within_bounds
    (es : list Event) (u : string) (ok : bool) (s : State) :
  run es (initial u ok) = Some s ->
  Forall (fun tm => PrimFloat.leb 1500 (delay tm) = true /\
                    PrimFloat.leb (delay tm) MAX_RETRY_DELAY = true) (timers s) /\
  PrimFloat.leb INITIAL_RETRY_DELAY (retryDelay s) = true /\
  PrimFloat.leb (retryDelay s) MAX_RETRY_DELAY = true.
Proof.
  intros Hrun.
  destruct (run_delays es _ s Hrun) as [Hd Ht]; [now left | constructor |].
  split; [|now apply delays_bounds].
  apply Forall_fmap in Ht. eapply Forall_impl; [exact Ht|].
  intros tm H. apply timer_delays_bounds. exact H.
Qed.

(** *** [reconnect] and the clean-up of the effect *)

Lemma close_current_refs (s : State) :
  close_current s = set_sockets (sockets (close_current s)) s.
Proof. unfold close_current. now destruct (ws s). Qed.

Lemma reconnect_eq (s : State) :
  urlAccepted s = true ->
  reconnect s =
    set_ws (Some (length (sockets (close_current s))))
      (set_sockets (sockets (close_current s) ++ [WebSocket.create (hookUrl s)])
         (set_retryDelay INITIAL_RETRY_DELAY s)).
Proof.
  intros Hurl. unfold reconnect, connect.
  change (current (set_retryDelay INITIAL_RETRY_DELAY (close_current s)))
    with (current (close_current s)).
  rewrite close_current_not_open, (close_current_refs s).
  change (urlAccepted (set_retryDelay _ (set_sockets _ s))) with (urlAccepted s).
  now rewrite Hurl.
Qed.

(** X11: [reconnect] always creates a new WebSocket, also when the
    current one is open: it closes the current socket, puts [retryDelay]
    back to its initial value, and the new socket becomes [ws.current].
    The pending queue, the handlers and [isConnected] are left as they
    are, and nothing is put on the wire. *)
Theorem reconnect_replaces_the_current_socket (s : State) :
  urlAccepted s = true ->
  let s' := reconnect s in
  sockets s' =
    match ws s with
    | Some i => alter WebSocket.close i (sockets s)
    | None => sockets s
    end ++ [WebSocket.create (hookUrl s)] /\
  ws s' = Some (length (sockets s)) /\
  current s' = Some (WebSocket.create (hookUrl s)) /\
  retryDelay s' = INITIAL_RETRY_DELAY /\
  messageQueue s' = messageQueue s /\
  eventHandlers s' = eventHandlers s /\
  isConnected s' = isConnected s /\
  transmitted s' = transmitted s.
Proof.
  intros Hurl s'. subst s'.
  assert (Hlen : length (sockets (close_current s)) = length (sockets s)).
  { unfold close_current. destruct (ws s); cbn; now rewrite ?length_alter. }
  assert (Hsock : sockets (close_current s)
                  = match ws s with
                    | Some i => alter WebSocket.close i (sockets s)
                    | None => sockets s
                    end).
  { unfold close_current. now destruct (ws s). }
  rewrite (reconnect_eq s Hurl), <- Hsock, <- Hlen.
  repeat split.
  - unfold current. cbn. now rewrite lookup_app_r, Nat.sub_diag by lia.
  - unfold transmitted. cbn. rewrite map_app, concat_app. cbn.
    rewrite !app_nil_r. exact (proj1 (close_current_frames s)).
Qed.

Lemma connect_creates (s : State) :
  WebSocket.is_open (current s) = false ->
  urlAccepted s = true ->
  length (sockets (connect s)) = S (length (sockets s)) /\
  current (connect s) = Some (WebSocket.create (hookUrl s)).
Proof.
  intros Ho Hu. unfold connect. rewrite Ho, Hu. split.
  - cbn. rewrite length_app. cbn. lia.
  - unfold current. cbn. now rewrite lookup_app_r, Nat.sub_diag by lia.
Qed.

(** X14: the clean-up of the effect cancels only the reconnect timer set
    last.  A timer set before it stays pending, and when it fires after
    the clean-up has closed the socket, the hook creates a new WebSocket
    and makes it [ws.current]. *)
Theorem earlier_timer_reconnects_after_cleanup (s : State) (t : nat) (tm : Timer) :
  timers s !! t = Some tm ->
  pending tm = true ->
  reconnectTimeout s <> Some t ->
  urlAccepted s = true ->
  timers (cleanup s) !! t = Some tm /\
  exists s' : State,
    step (TimerFires t) (cleanup s) = Some s' /\
    length (sockets s') = S (length (sockets s)) /\
    current s' = Some (WebSocket.create (hookUrl s)).
Proof.
  intros Ht Hp Hrt Hurl.
  assert (Ht' : timers (cleanup s) !! t = Some tm).
  { unfold cleanup. rewrite close_current_refs.
    destruct (reconnectTimeout s) as [t0|]; [|exact Ht].
    change (alter (fun tm => mkTimer (delay tm) false) t0 (timers s) !! t = Some tm).
    rewrite list_lookup_alter_ne by congruence. exact Ht. }
  split; [exact Ht'|].
  unfold step. rewrite Ht', Hp. eexists. split; [reflexivity|].
  set (s1 := set_timers _ (cleanup s)).
  assert (Ho : WebSocket.is_open (current s1) = false).
  { unfold s1, cleanup. exact (close_current_not_open _). }
  assert (Hu : urlAccepted s1 = true).
  { unfold s1, cleanup. rewrite close_current_refs.
    now destruct (reconnectTimeout s). }
  assert (Hl : length (sockets s1) = length (sockets s)).
  { unfold s1, cleanup, close_current.
    destruct (reconnectTimeout s); cbn;
      match goal with |- context [match ?w with _ => _ end] => destruct w end;
      cbn; now rewrite ?length_alter. }
  assert (Hh : hookUrl s1 = hookUrl s).
  { unfold s1, cleanup. rewrite close_current_refs.
    now destruct (reconnectTimeout s). }
  destruct (connect_creates s1 Ho Hu) as [H1 H2]. now rewrite H1, H2, Hl, Hh.
Qed.

End Runs.

Section Handlers.

Context {json : Js.JSON} {A : Type}.
Variable handler_body : nat -> option Js.value -> A -> A * option string.

Lemma registered_off_same (T : string) (h : nat) (s : State) :
  registered T (off T h s) = Set_delete h (registered T s).
Proof.
  unfold registered, off. destruct (eventHandlers s !! T) as [hs|] eqn:E.
  - cbn. now rewrite lookup_insert_eq.
  - now rewrite E.
Qed.

Lemma registered_off_other (T T' : string) (h : nat) (s : State) :
  T' <> T -> registered T' (off T h s) = registered T' s.
Proof.
  intros H. unfold registered, off. destruct (eventHandlers s !! T); [|reflexivity].
  cbn. now rewrite lookup_insert_ne by congruence.
Qed.

(** The calls a dispatch makes. *)
Lemma dispatch_calls (s : State) (w : World A) (message : Js.value) (T : string)
    (payload : option Js.value) :
  Js.get (Some message) "type" = Js.Normal (Some (Js.Str T)) ->
  T <> "" ->
  Js.get (Some message) "payload" = Js.Normal payload ->
  calls (snd (dispatch A handler_body message (s, w)))
  = calls w ++ map (fun h => (h, payload)) (registered T s).
Proof.
  intros Htype Hne Hpayload. unfold dispatch.
  rewrite Htype, (DispatchFacts.truthy_nonempty T Hne). cbn [negb handlers_get].
  unfold registered. destruct (eventHandlers s !! T) as [hs|]; cbn [default].
  - rewrite Hpayload. apply DispatchFacts.forEach_handler_spec.
  - cbn. now rewrite app_nil_r.
Qed.

(** X12: after [off(T, h)] a message of type [T] no longer reaches [h];
    the other handlers of [T] are still called, in the order they were
    registered in, and the handlers of the other types are as before. *)
Theorem off_stops_calls_of_the_handler
    (s : State) (w : World A) (message : Js.value) (T : string)
    (payload : option Js.value) (h : nat) :
  Js.get (Some message) "type" = Js.Normal (Some (Js.Str T)) ->
  T <> "" ->
  Js.get (Some message) "payload" = Js.Normal payload ->
  let r := dispatch A handler_body message (off T h s, w) in
  let called := filter (fun h' => h' <> h) (registered T s) in
  calls (snd r) = calls w ++ map (fun h' => (h', payload)) called /\
  ~ In h called /\
  (forall h', h' <> h -> In h' (registered T s) -> In h' called) /\
  (forall T', T' <> T -> registered T' (off T h s) = registered T' s).
Proof.
  intros Htype Hne Hpayload r called. subst r called.
  rewrite (dispatch_calls (off T h s) w message T payload Htype Hne Hpayload).
  rewrite registered_off_same. unfold Set_delete.
  split; [reflexivity|]. split; [|split].
  - intros H. apply list_elem_of_In, list_elem_of_filter in H. now destruct H.
  - intros h' Hh' H. apply list_elem_of_In, list_elem_of_filter.
    split; [exact Hh'|]. now apply list_elem_of_In.
  - intros T' HT'. now apply registered_off_other.
Qed.

Lemma dispatch_refs (message : Js.value) (s : State) (w : World A) :
  fst (dispatch A handler_body message (s, w))
  = set_console (console (fst (dispatch A handler_body message (s, w)))) s.
Proof.
  unfold dispatch. destruct (Js.get (Some message) "type") as [type|e]; [|reflexivity].
  destruct (negb (Js.truthy type)); [reflexivity|].
  destruct (handlers_get type s) as [hs|]; [|reflexivity].
  destruct (Js.get (Some message) "payload") as [payload|e]; [|reflexivity].
  apply DispatchFacts.forEach_handler_spec.
Qed.

(** X13: a frame that arrives changes nothing of the hook but what it
    writes to the console: sockets, queue, timers, retry delay, handlers,
    [isConnected] and [error] are as before.  A frame that is not JSON
    reaches no handler and leaves one entry in the console. *)
Theorem frame_changes_console_only (data : string) (s : State) (w : World A) :
  let r := onmessage A handler_body data (s, w) in
  fst r = set_console (console (fst r)) s /\
  (Js.JSON_parse data = None ->
   snd r = w /\
   console (fst r) =
     console s ++ [Js.ConsoleError "Error parsing WebSocket message:"
                     (Some (Js.Str "SyntaxError"))]).
Proof.
  intros r. subst r. unfold onmessage. destruct (Js.JSON_parse data) as [message|].
  - split; [apply dispatch_refs | discriminate].
  - split; [reflexivity|]. intros _. split; reflexivity.
Qed.

End Handlers.

(** X8 at a run: the effect connects, a message is sent before the
    socket is open, the socket that call created opens, and a second
    message is sent. *)
Lemma two_messages_two_frames :
  let es := [Mount; CallSendMessage (Text "a"); SocketOpen 1; CallSendMessage (Text "b")] in
  exists s : State,
    run (json := Examples.stub_json) es (initial Examples.localhost true) = Some s /\
    transmitted s = ["a"; "b"] /\
    transmitted s ++ messageQueue s ⊆+ texts (json := Examples.stub_json) es.
Proof.
  intros es. eexists. split; [vm_compute; reflexivity|]. split; [reflexivity|].
  apply (frames_are_sent_messages (json := Examples.stub_json) es Examples.localhost true).
  vm_compute. reflexivity.
Defined.

(** X9 at a run: the socket created by the first [sendMessage] opens. *)
Lemma queue_flushed_by_the_open :
  let es := [Mount; CallSendMessage (Text "a"); SocketOpen 1] in
  exists s : State,
    run (json := Examples.stub_json) es (initial Examples.localhost true) = Some s /\
    WebSocket.is_open (current s) = true /\ messageQueue s = [].
Proof.
  intros es. eexists. split; [vm_compute; reflexivity|]. split; [reflexivity|].
  apply (queue_is_empty_while_current_is_open (json := Examples.stub_json)
           es Examples.localhost true); vm_compute; reflexivity.
Defined.

(** X10 at a run: both sockets of the hook fail before they open. *)
Lemma delays_after_two_failures :
  let es := [Mount; CallSendMessage (Text "a"); SocketClose 0 false; SocketClose 1 false] in
  exists s : State,
    run (json := Examples.stub_json) es (initial Examples.localhost true) = Some s /\
    map delay (timers s) = [1500; 2250]%float /\
    PrimFloat.leb (retryDelay s) MAX_RETRY_DELAY = true.
Proof.
  intros es. eexists. split; [vm_compute; reflexivity|]. split; [reflexivity|].
  apply (reconnect_delays_within_bounds (json := Examples.stub_json)
           es Examples.localhost true).
  vm_compute. reflexivity.
Defined.

(** X11 at a run: [reconnect] while the only socket is open. *)
Lemma reconnect_while_open :
  let s := onopen (set_sockets [WebSocket.mkSocket Examples.localhost WebSocket.OPEN []]
                     (connect (initial Examples.localhost true))) in
  map WebSocket.readyState (sockets (reconnect s)) = [WebSocket.CLOSING; WebSocket.CONNECTING] /\
  ws (reconnect s) = Some 1 /\ isConnected (reconnect s) = true.
Proof.
  intros s.
  destruct (reconnect_replaces_the_current_socket s eq_refl)
    as (Hs & Hw & _ & _ & _ & _ & Hc & _).
  rewrite Hs, Hw, Hc. repeat split; reflexivity.
Defined.

(** X14 at a run: two sockets fail one after the other, the component is
    unmounted, and the timer of the first failure fires. *)
Lemma timer_of_first_failure_survives_unmount :
  map pending (timers Examples.two_failures) = [true; true] /\
  exists s' : State,
    run (json := Examples.stub_json) [Unmount; TimerFires 0] Examples.two_failures = Some s' /\
    length (sockets s') = 3 /\
    current s' = Some (WebSocket.create Examples.localhost).
Proof.
  split; [reflexivity|].
  destruct (earlier_timer_reconnects_after_cleanup (json := Examples.stub_json)
              Examples.two_failures 0 (mkTimer 1500 true) eq_refl eq_refl)
    as (_ & s' & Hstep & Hlen & Hcur); [discriminate | reflexivity |].
  exists s'. split; [|split; [exact Hlen | exact Hcur]].
  cbn [run]. change (step (json := Examples.stub_json) Unmount Examples.two_failures)
    with (Some (cleanup Examples.two_failures)).
  cbv beta iota. rewrite Hstep. reflexivity.
Defined.

(** X12 at a run: handlers 0, 1 and 2 are registered, handler 1 is taken
    off, and a message arrives. *)
Lemma handler_taken_off_is_not_called :
  let s := on "preview_update" 2 (on "preview_update" 1 (on "preview_update" 0
             (initial Examples.localhost true))) in
  let payload := Js.Obj [("nodeId", Js.Str "n1")] in
  let message := Js.Obj [("type", Js.Str "preview_update"); ("payload", payload)] in
  calls (snd (dispatch nat Examples.counting_handlers message
                (off "preview_update" 1 s, mkWorld 0 [])))
  = [(0, Some payload); (2, Some payload)].
Proof.
  intros s payload message.
  destruct (off_stops_calls_of_the_handler Examples.counting_handlers
              s (mkWorld 0 []) message "preview_update" (Some payload) 1)
    as (Hcalls & _); [reflexivity | discriminate | reflexivity |].
  rewrite Hcalls. reflexivity.
Defined.

End UseWebSocketRunFacts.

(** ** The encrypting hook along a run *)

Module UseSecureWebSocketRunFacts.

Import useSecureWebSocket.

Section Hook.

Context {json : Js.JSON} {crypto : SecurityUtils.CryptoJS}.
Context {A : Type} (options : Options A).

Lemma step_close (s : State) (w : World A) (i : nat) (k : WebSocket.Socket) :
  sockets s !! i = Some k ->
  WebSocket.readyState k <> WebSocket.CLOSED ->
  step A options (SocketClose i) (s, w) =
    Some (mkState (<[i := WebSocket.set_readyState WebSocket.CLOSED k]> (sockets s)) (ws s)
            (Some (length (timers s))) (timers s ++ [(3000%float, true)]),
          call_onDisconnect A options w).
Proof.
  intros Hk Hc. unfold step. rewrite Hk.
  destruct (WebSocket.readyState k); try reflexivity. congruence.
Qed.

Lemma step_timer (s : State) (w : World A) (t : nat) (d : float) :
  timers s !! t = Some (d, true) ->
  urlAccepted A options = true ->
  step A options (TimerFires t) (s, w) =
    Some (mkState (sockets s ++ [WebSocket.create (url A options)])
            (Some (length (sockets s))) (reconnectTimeout s)
            (<[t := (d, false)]> (timers s)), w).
Proof. intros Ht Hurl. unfold step, connect. now rewrite Ht, Hurl. Qed.

Lemma disconnect_eq (s : State) (w : World A) (i : nat) :
  ws s = Some i ->
  disconnect A (s, w) =
    (mkState (alter WebSocket.close i (sockets s)) (Some i) (reconnectTimeout s)
       match reconnectTimeout s with
       | Some t => alter (fun tm => (fst tm, false)) t (timers s)
       | None => timers s
       end, w).
Proof. intros Hws. unfold disconnect. now rewrite Hws. Qed.

(** X15: [disconnect] does not end the reconnection.  It closes the
    socket and cancels the timer set last; when the socket then reports
    its close, [onclose] sets a new timer of 3000 ms, and when that timer
    fires the hook creates a new WebSocket and makes it [ws.current]. *)
Theorem disconnect_is_followed_by_reconnect
    (s : State) (w : World A) (i : nat) (k : WebSocket.Socket) :
  urlAccepted A options = true ->
  ws s = Some i ->
  sockets s !! i = Some k ->
  WebSocket.readyState k <> WebSocket.CLOSED ->
  exists (s' : State) (w' : World A),
    run A options [Unmount; SocketClose i; TimerFires (length (timers s))] (s, w)
      = Some (s', w') /\
    length (sockets s') = S (length (sockets s)) /\
    current s' = Some (WebSocket.create (url A options)) /\
    timers s' !! length (timers s) = Some (3000%float, false) /\
    w' = call_onDisconnect A options w.
Proof.
  intros Hurl Hws Hk Hclosed.
  assert (Hc : WebSocket.readyState (WebSocket.close k) <> WebSocket.CLOSED).
  { unfold WebSocket.close. destruct (WebSocket.readyState k) eqn:E; cbn; congruence. }
  set (timers1 := match reconnectTimeout s with
                  | Some t => alter (fun tm => (fst tm, false)) t (timers s)
                  | None => timers s
                  end).
  assert (Hl1 : length timers1 = length (timers s)).
  { unfold timers1. destruct (reconnectTimeout s); now rewrite ?length_alter. }
  cbn [run]. change (step A options Unmount (s, w)) with (Some (disconnect A (s, w))).
  cbv beta iota. rewrite (disconnect_eq s w i Hws). fold timers1.
  rewrite (step_close _ w i (WebSocket.close k));
    [ | cbn; rewrite list_lookup_alter_eq, Hk; reflexivity | exact Hc ].
  cbn [sockets ws reconnectTimeout timers].
  rewrite (step_timer _ _ (length (timers s)) 3000%float);
    [ | cbn; rewrite <- Hl1, lookup_app_r, Nat.sub_diag by lia; reflexivity | exact Hurl ].
  do 2 eexists. split; [reflexivity|].
  cbn [sockets ws reconnectTimeout timers]. repeat split.
  - rewrite length_app, length_insert, length_alter. cbn. lia.
  - unfold current. cbn. now rewrite lookup_app_r, Nat.sub_diag by lia.
  - apply list_lookup_insert_eq. rewrite length_app, Hl1. cbn. lia.
Qed.

End Hook.

(** X15 at a run: the hook connects, its socket opens, and the component
    is unmounted. *)
Lemma unmounted_hook_connects_again :
  let options := mkOptions nat Examples.localhost true "key" None None None
                   (Some (fun a => S a)) in
  let s := mkState [WebSocket.mkSocket Examples.localhost WebSocket.OPEN []] (Some 0) None [] in
  exists s' w',
    run (json := Examples.stub_json) (crypto := Examples.null_cipher) nat options
      [Unmount; SocketClose 0; TimerFires 0] (s, mkWorld 0 []) = Some (s', w') /\
    length (sockets s') = 2 /\
    app w' = 1.
Proof.
  intros options s.
  destruct (disconnect_is_followed_by_reconnect
              (json := Examples.stub_json) (crypto := Examples.null_cipher)
              options s (mkWorld 0 []) 0
              (WebSocket.mkSocket Examples.localhost WebSocket.OPEN [])
              eq_refl eq_refl eq_refl)
    as (s' & w' & Hrun & Hlen & _ & _ & Hw); [discriminate|].
  exists s', w'. split; [exact Hrun|]. split; [exact Hlen|]. now rewrite Hw.
Defined.

End UseSecureWebSocketRunFacts.

(** ** The singleton client along every run *)

Module WebSocketClientRunFacts.

Import WebSocketClient.

Section Client.

Context {json : Js.JSON}.
Variable url_ok : string -> bool.
Context {A : Type} (options : WebSocketOptions A).

Lemma reconnected_refs (s : State) :
  ws (reconnected s) = ws s /\ sockets (reconnected s) = sockets s /\
  clientId (reconnected s) = clientId s.
Proof.
  unfold reconnected. destruct (reconnectAttempts s <? maxReconnectAttempts)%Z;
    repeat split; reflexivity.
Qed.

Lemma send_disconnected (type : string) (data : Js.value) (now : string)
    (s : State) (w : World A) :
  ws s = None -> fst (send A type data now (s, w)) = s.
Proof. intros H. unfold send. now rewrite H. Qed.

Lemma map_sent_insert (l : list WebSocket.Socket) (i : nat) (k : WebSocket.Socket)
    (r : WebSocket.ReadyState) :
  l !! i = Some k ->
  map WebSocket.sent (<[i := WebSocket.set_readyState r k]> l) = map WebSocket.sent l.
Proof.
  intros Hk. now apply (UseWebSocketRunFacts.sent_insert_same l i k).
Qed.

(** While [ws] is [null] no event but a call of [connect] sets it,
    creates a socket, or puts a frame on the wire. *)
Lemma step_disconnected (e : Event) (sw sw' : State * World A) :
  ws (fst sw) = None ->
  (forall u, e <> CallConnect u) ->
  step url_ok A options e sw = Some sw' ->
  ws (fst sw') = None /\
  map WebSocket.sent (sockets (fst sw')) = map WebSocket.sent (sockets (fst sw)).
Proof.
  destruct sw as [s w]. cbn [fst]. intros Hws Hne Hstep.
  destruct e; unfold step in Hstep; cbv beta iota zeta in Hstep.
  - now destruct (Hne u).
  - from_some Hstep. now rewrite send_disconnected.
  - from_some Hstep. unfold disconnect. now rewrite Hws.
  - destruct (sockets s !! i) as [k|] eqn:Hk; [|discriminate].
    destruct (WebSocket.readyState k); try discriminate.
    from_some Hstep. unfold onopen.
    set (s1 := set_reconnectAttempts 0 _).
    pose proof (send_disconnected "client_metadata"
                  (Js.Obj (("client_id", Js.Str (clientId s1)) :: metadata A options))
                  now s1 (log (Js.ConsoleLog "WebSocket connected" None) w) Hws) as E.
    destruct (send A _ _ now _) as [s2 w2]. cbn [fst] in E. subst s2. cbn [fst].
    split; [exact Hws|]. exact (map_sent_insert (sockets s) i k _ Hk).
  - destruct (sockets s !! i) as [k|]; [|discriminate].
    destruct (WebSocket.readyState k); try discriminate;
      from_some Hstep; now rewrite WebSocketClientFacts.onmessage_state.
  - destruct (sockets s !! i) as [k|] eqn:Hk; [|discriminate].
    assert (H : forall s0 w0,
              s0 = set_sockets (<[i := WebSocket.set_readyState WebSocket.CLOSED k]> (sockets s)) s ->
              ws (fst (onclose A options (s0, w0))) = None /\
              map WebSocket.sent (sockets (fst (onclose A options (s0, w0))))
              = map WebSocket.sent (sockets s)).
    { intros s0 w0 ->. rewrite WebSocketClientFacts.onclose_state.
      destruct (reconnected_refs
                  (set_sockets (<[i := WebSocket.set_readyState WebSocket.CLOSED k]> (sockets s)) s))
        as (-> & -> & _).
      split; [exact Hws|]. exact (map_sent_insert (sockets s) i k _ Hk). }
    destruct (WebSocket.readyState k); try discriminate; from_some Hstep;
      now apply H.
  - destruct (sockets s !! i); [|discriminate]. from_some Hstep. now split.
  - destruct (timers s !! t) as [[d []]|]; try discriminate.
    from_some Hstep. unfold timer_callback, current. cbn [fst].
    change (ws (set_timers _ s)) with (ws s). rewrite Hws. now split.
Qed.

Lemma run_disconnected (es : list Event) :
  forall sw sw' : State * World A,
    ws (fst sw) = None ->
    (forall u, ~ In (CallConnect u) es) ->
    run url_ok A options es sw = Some sw' ->
    ws (fst sw') = None /\
    map WebSocket.sent (sockets (fst sw')) = map WebSocket.sent (sockets (fst sw)).
Proof.
  induction es as [|e es IH]; intros sw sw' Hws Hne Hrun; cbn [run] in Hrun.
  - from_some Hrun. now split.
  - destruct (step url_ok A options e sw) as [sw1|] eqn:Hstep; [|discriminate].
    destruct (step_disconnected e sw sw1 Hws) as [H1 H2]; [ | exact Hstep | ].
    { intros u ->. apply (Hne u). now left. }
    destruct (IH sw1 sw' H1) as [H3 H4]; [ | exact Hrun | ].
    { intros u H. apply (Hne u). now right. }
    split; [exact H3 | congruence].
Qed.

(** X16: [disconnect] ends the reconnection.  After it, whatever the
    sockets report and whichever reconnect timers fire, until [connect] is
    called again [ws] stays [null], no WebSocket is created and no frame
    is put on the wire. *)
Theorem disconnect_ends_reconnection
    (es : list Event) (sw sw' : State * World A) :
  (forall u, ~ In (CallConnect u) es) ->
  run url_ok A options es (disconnect A sw) = Some sw' ->
  ws (fst sw') = None /\
  isConnected (fst sw') = false /\
  length (sockets (fst sw')) = length (sockets (fst sw)) /\
  map WebSocket.sent (sockets (fst sw')) = map WebSocket.sent (sockets (fst sw)).
Proof.
  intros Hne Hrun. destruct sw as [s w].
  assert (H0 : ws (fst (disconnect A (s, w))) = None /\
               map WebSocket.sent (sockets (fst (disconnect A (s, w))))
               = map WebSocket.sent (sockets s)).
  { unfold disconnect. destruct (ws s) eqn:E; cbn [fst]; [|now split].
    split; [reflexivity|]. cbn. apply UseWebSocketRunFacts.sent_alter_close. }
  destruct H0 as [H1 H2].
  destruct (run_disconnected es _ sw' H1 Hne Hrun) as [H3 H4].
  cbn [fst]. rewrite H2 in H4.
  split; [exact H3|]. split; [|split; [|exact H4]].
  - unfold isConnected, current. now rewrite H3.
  - apply (f_equal (@length _)) in H4. now rewrite !length_map in H4.
Qed.

(** *** Every frame carries the client's id *)







End Client.

(** X16 at a run: a connected client is disconnected; its socket reports
    the close, the reconnect timer fires, and [send] is called. *)
Lemma disconnected_client_creates_no_socket :
  let options := mkOptions unit None None None None [] in
  exists sw',
    run (json := Examples.stub_json) (fun _ => true) unit options
      [SocketClose 0; TimerFires 0; CallSend "ping" Js.Null "t1"]
      (disconnect unit Examples.connected_client) = Some sw' /\
    length (sockets (fst sw')) = 1 /\
    map fst (timers (fst sw')) = [1000%Z] /\
    ws (fst sw') = None.
Proof.
  intros options. eexists. split; [vm_compute; reflexivity|].
  split; [|split; [reflexivity|]].
  all: apply (disconnect_ends_reconnection (json := Examples.stub_json)
                (fun _ => true) options
                [SocketClose 0; TimerFires 0; CallSend "ping" Js.Null "t1"]
                Examples.connected_client);
    [ intros u [H|[H|[H|[]]]]; discriminate | vm_compute; reflexivity ].
Defined.


End WebSocketClientRunFacts.

(** ** The provider: what a frame does to the window *)

Module WebSocketProviderFacts.

Import WebSocketProvider.

(** The names of the events [handleMessage] dispatches. *)
Lemma handleMessage_effect (message : Js.value) (w : WebSocketClient.World Window) :
  let r := handleMessage message w in
  isConnected (WebSocketClient.app (fst r)) = isConnected (WebSocketClient.app w) /\
  (dispatched (WebSocketClient.app (fst r)) = dispatched (WebSocketClient.app w) \/
   exists e,
     dispatched (WebSocketClient.app (fst r)) = dispatched (WebSocketClient.app w) ++ [e] /\
     In (name e) ["documentProcessed"; "workflowUpdated"; "elementUpdated"; "wsError"]).
Proof.
  cbn zeta. unfold handleMessage.
  destruct (Js.get (Some message) "type") as [type|e]; [|now split; [|left]].
  destruct (Js.is_string type "document_processed").
  { destruct (Js.get (Some message) "data") as [data|e]; [|now split; [|left]].
    destruct (Js.get data "documentId"), (Js.get data "metadata"), (Js.get data "content");
      cbn; (split; [reflexivity|]); try (now left).
    right. eexists. split; [reflexivity|]. cbn. tauto. }
  destruct (Js.is_string type "workflow_updated").
  { destruct (Js.get (Some message) "data") as [data|e]; [|now split; [|left]].
    split; [reflexivity|]. right. eexists. split; [reflexivity|]. cbn. tauto. }
  destruct (Js.is_string type "element_updated").
  { destruct (Js.get (Some message) "data") as [data|e]; [|now split; [|left]].
    split; [reflexivity|]. right. eexists. split; [reflexivity|]. cbn. tauto. }
  destruct (Js.is_string type "error").
  { destruct (Js.get (Some message) "data") as [data|e]; [|now split; [|left]].
    split; [reflexivity|]. right. eexists. split; [reflexivity|]. cbn. tauto. }
  split; [reflexivity|]. now left.
Qed.

Section Provider.

Context {json : Js.JSON}.

(** X18: a frame the client receives under the provider's options leaves
    the client and the provider's [isConnected] as they are and dispatches
    at most one event on [window], named [documentProcessed],
    [workflowUpdated], [elementUpdated] or [wsError]. *)
Theorem frame_dispatches_at_most_one_event
    (data : string) (s : WebSocketClient.State) (w : WebSocketClient.World Window) :
  let r := WebSocketClient.onmessage Window installed_options data (s, w) in
  fst r = s /\
  isConnected (WebSocketClient.app (snd r)) = isConnected (WebSocketClient.app w) /\
  (dispatched (WebSocketClient.app (snd r)) = dispatched (WebSocketClient.app w) \/
   exists e,
     dispatched (WebSocketClient.app (snd r)) = dispatched (WebSocketClient.app w) ++ [e] /\
     In (name e) ["documentProcessed"; "workflowUpdated"; "elementUpdated"; "wsError"]).
Proof.
  cbn zeta. unfold WebSocketClient.onmessage.
  destruct (Js.JSON_parse data) as [message|]; [|now repeat split; try left].
  cbn [WebSocketClient.onMessage installed_options].
  pose proof (handleMessage_effect message w) as H. cbn zeta in H.
  destruct (handleMessage message w) as [w' [e|]]; cbn [fst snd] in *;
    (split; [reflexivity | exact H]).
Qed.

(** X19: a [document_processed] message whose [data] is an object is
    dispatched as [documentProcessed] with the object's [documentId],
    [metadata] and [content] and nothing else of it.  One whose [data] is
    missing or [null] dispatches nothing: reading the three properties
    throws, and the client's [catch] writes [Error parsing WebSocket
    message] to the console although the frame was parsed. *)
Theorem document_processed_needs_data
    (data : string) (message : Js.value) (s : WebSocketClient.State)
    (w : WebSocketClient.World Window) :
  Js.JSON_parse data = Some message ->
  Js.get (Some message) "type" = Js.Normal (Some (Js.Str "document_processed")) ->
  (forall fields,
     Js.get (Some message) "data" = Js.Normal (Some (Js.Obj fields)) ->
     WebSocketClient.onmessage Window installed_options data (s, w) =
       (s, dispatchEvent
             (mkCustomEvent "documentProcessed"
                (inl [("documentId", Js.assoc "documentId" fields);
                      ("metadata", Js.assoc "metadata" fields);
                      ("content", Js.assoc "content" fields)])) w)) /\
  (Js.get (Some message) "data" = Js.Normal None \/
   Js.get (Some message) "data" = Js.Normal (Some Js.Null) ->
   WebSocketClient.onmessage Window installed_options data (s, w) =
     (s, WebSocketClient.log
           (Js.ConsoleError "Error parsing WebSocket message:" (Some (Js.Str "TypeError")))
           w)).
Proof.
  intros Hp Ht. unfold WebSocketClient.onmessage. rewrite Hp.
  cbn [WebSocketClient.onMessage installed_options].
  unfold handleMessage. rewrite Ht. cbn [Js.is_string]. rewrite String.eqb_refl.
  split.
  - intros fields ->. reflexivity.
  - intros [-> | ->]; reflexivity.
Qed.

End Provider.

(** X19 at a run: a [document_processed] message with data, and one
    without. *)
Lemma document_processed_with_and_without_data :
  let with_data := Js.Obj [("type", Js.Str "document_processed");
                           ("data", Js.Obj [("documentId", Js.Str "d1");
                                            ("pages", Js.Str "12")])] in
  let without := Js.Obj [("type", Js.Str "document_processed")] in
  let s := WebSocketClient.construct "client" in
  let w := WebSocketClient.mkWorld (mkWindow true []) [] in
  dispatched (WebSocketClient.app
                (snd (WebSocketClient.onmessage
                        (json := Examples.one_text_json "frame" with_data)
                        Window installed_options "frame" (s, w))))
  = [mkCustomEvent "documentProcessed"
       (inl [("documentId", Some (Js.Str "d1")); ("metadata", None); ("content", None)])] /\
  WebSocketClient.onmessage (json := Examples.one_text_json "frame" without)
    Window installed_options "frame" (s, w)
  = (s, WebSocketClient.mkWorld (mkWindow true [])
          [Js.ConsoleError "Error parsing WebSocket message:" (Some (Js.Str "TypeError"))]).
Proof.
  intros with_data without s w. split.
  - destruct (document_processed_needs_data
                (json := Examples.one_text_json "frame" with_data)
                "frame" with_data s w eq_refl eq_refl) as [H _].
    rewrite (H _ eq_refl). reflexivity.
  - destruct (document_processed_needs_data
                (json := Examples.one_text_json "frame" without)
                "frame" without s w eq_refl eq_refl) as [_ H].
    rewrite H; [reflexivity | now left].
Defined.

End WebSocketProviderFacts.

(** ** The preview handler: frames for this node and for others *)

Module NodePreviewFrameFacts.

Import NodePreviewHandler.


Section Component.

Context {json : Js.JSON} {crypto : SecurityUtils.CryptoJS}.
Variable hostname : string.
Variable stored_key : option string.
Variable urlAccepted : bool.


End Component.

(** An [error] for node [n1] and one for another node. *)
Lemma error_for_n1_and_for_another_node :
  let mine := Js.Obj [("type", Js.Str "error");
                      ("payload", Js.Obj [("nodeId", Js.Str "n1");
                                          ("error", Js.Str "no such document")])] in
  let other := Js.Obj [("type", Js.Str "error");
                       ("payload", Js.Obj [("nodeId", Js.Str "n2");
                                           ("error", Js.Str "no such document")])] in
  let sw := (useSecureWebSocket.initial,
             useSecureWebSocket.mkWorld (mkPreview loading None None) []) in
  useSecureWebSocket.app
    (snd (receive (json := Examples.one_text_json "frame" mine)
            (crypto := Examples.null_cipher)
            "localhost" None true Examples.n1_props "frame" sw))
  = mkPreview error None (Some (Js.Str "no such document")) /\
  useSecureWebSocket.app
    (snd (receive (json := Examples.one_text_json "frame" other)
            (crypto := Examples.null_cipher)
            "localhost" None true Examples.n1_props "frame" sw))
  = mkPreview loading None None.
Proof. split; reflexivity. Qed.

End NodePreviewFrameFacts.

(** ** Binary64 comparisons *)

Module FloatFacts.

Lemma SFcompare_swap (x y : SpecFloat.spec_float) :
  SpecFloat.SFcompare y x = option_map CompOpp (SpecFloat.SFcompare x y).
Proof.
  destruct x as [sx| sx | |sx mx ex], y as [sy|sy| |sy my ey]; cbn;
    try reflexivity; try (destruct sx; reflexivity); try (destruct sy; reflexivity);
    try (destruct sx, sy; reflexivity).
  destruct sx, sy; try reflexivity; f_equal;
    rewrite (Z.compare_antisym ex ey); destruct (ex ?= ey)%Z; cbn; try reflexivity;
    rewrite (Pos.compare_cont_antisym mx my Eq); reflexivity.
Qed.

Lemma not_nan (a : float) :
  PrimFloat.is_nan a = false -> Prim2SF a <> SpecFloat.S754_nan.
Proof.
  unfold PrimFloat.is_nan. rewrite FloatAxioms.eqb_spec. intros H E.
  rewrite E in H. discriminate.
Qed.

Lemma SFcompare_some (x y : SpecFloat.spec_float) :
  x <> SpecFloat.S754_nan -> y <> SpecFloat.S754_nan ->
  exists c, SpecFloat.SFcompare x y = Some c.
Proof.
  intros Hx Hy. destruct x, y; try congruence; cbn; eauto.
Qed.

(** [a < b] gives [a <= b]. *)
Lemma ltb_leb (a b : float) : PrimFloat.ltb a b = true -> PrimFloat.leb a b = true.
Proof.
  rewrite FloatAxioms.ltb_spec, FloatAxioms.leb_spec.
  unfold SpecFloat.SFltb, SpecFloat.SFleb.
  destruct (SpecFloat.SFcompare _ _) as [[]|]; congruence.
Qed.

(** Two numbers are comparable: not [a < b] gives [b <= a]. *)
Lemma not_ltb_leb (a b : float) :
  PrimFloat.is_nan a = false -> PrimFloat.is_nan b = false ->
  PrimFloat.ltb a b = false -> PrimFloat.leb b a = true.
Proof.
  intros Ha Hb. rewrite FloatAxioms.ltb_spec, FloatAxioms.leb_spec.
  unfold SpecFloat.SFltb, SpecFloat.SFleb.
  rewrite (SFcompare_swap (Prim2SF a) (Prim2SF b)).
  destruct (SFcompare_some _ _ (not_nan a Ha) (not_nan b Hb)) as [c ->].
  now destruct c.
Qed.

End FloatFacts.

(** ** The canvas: dragging, connecting, zooming *)

Module CanvasInteractionFacts.

#[local] Set Warnings "-inexact-float".

Import DragDropCanvas.

Section Component.

Context {json : Js.JSON}.

Lemma edges_of_moved (nodeId : string) (newPosition : Position) (ns : list Node) :
  edges (map (fun node =>
                if String.eqb (id node) nodeId
                then mkNode (id node) (type node) newPosition (data node) (connections node)
                else node) ns) = edges ns.
Proof.
  induction ns as [|n ns IH]; [reflexivity|].
  rewrite map_cons, !DragDropCanvasFacts.edges_cons, IH.
  now destruct (String.eqb (id n) nodeId).
Qed.

Lemma has_node_of_moved (nodeId : string) (newPosition : Position) (t : string)
    (ns : list Node) :
  has_node t (map (fun node =>
                     if String.eqb (id node) nodeId
                     then mkNode (id node) (type node) newPosition (data node)
                            (connections node)
                     else node) ns) = has_node t ns.
Proof.
  induction ns as [|n ns IH]; [reflexivity|].
  cbn. unfold has_node in IH. rewrite IH.
  now destruct (String.eqb (id n) nodeId).
Qed.

(** X21: dragging a node changes positions only.  Every node with the
    dragged id gets the new position, every other node is left as it is;
    ids, types, data and connections, and with them the edges and the
    lines drawn, are the same, in the same order, and the preview data is
    untouched. *)
Theorem drag_changes_positions_only
    (nodeId : string) (newPosition : Position) (c : Canvas) :
  let c' := handleNodeDrag nodeId newPosition c in
  map id (nodes c') = map id (nodes c) /\
  map type (nodes c') = map type (nodes c) /\
  map data (nodes c') = map data (nodes c) /\
  map connections (nodes c') = map connections (nodes c) /\
  map position (nodes c') =
    map (fun n => if String.eqb (id n) nodeId then newPosition else position n) (nodes c) /\
  edges (nodes c') = edges (nodes c) /\
  lines (nodes c') = lines (nodes c) /\
  previewData c' = previewData c.
Proof.
  intros c'. subst c'. unfold handleNodeDrag. cbn [nodes previewData].
  assert (Hid : forall ns : list Node,
            map id (map (fun node =>
                           if String.eqb (id node) nodeId
                           then mkNode (id node) (type node) newPosition (data node)
                                  (connections node)
                           else node) ns) = map id ns).
  { intros ns. rewrite map_map. apply map_ext. intros n.
    now destruct (String.eqb (id n) nodeId). }
  repeat split.
  - apply Hid.
  - rewrite map_map. apply map_ext. intros n. now destruct (String.eqb (id n) nodeId).
  - rewrite map_map. apply map_ext. intros n. now destruct (String.eqb (id n) nodeId).
  - rewrite map_map. apply map_ext. intros n. now destruct (String.eqb (id n) nodeId).
  - rewrite map_map. apply map_ext. intros n. now destruct (String.eqb (id n) nodeId).
  - apply edges_of_moved.
  - unfold lines. rewrite edges_of_moved. apply list_filter_iff. intros e.
    now rewrite has_node_of_moved.
Qed.

End Component.

(** X22: a click on a node while a connection is being drawn from a
    source hands [onConnect] the connection from the source to the clicked
    node, with the id [source-target], and ends the drawing; a click on
    the source itself only ends the drawing.  No click ever connects a
    node to itself.  While no connection is being drawn a click selects
    the node, or clears the selection when the node is the selected
    one.  So [startConnecting] on one node and a click on another connect
    the two, and after a click on the canvas a click on a node connects
    nothing. *)
Theorem click_connects_or_selects (nodeId : string) (ui : Interaction) :
  let r := handleNodeClick nodeId ui in
  (forall c, snd r = Some c ->
     sourceId c <> targetId c /\
     connecting ui = Some (sourceId c) /\ targetId c = nodeId /\
     connectionId c = (sourceId c ++ "-" ++ targetId c)%string) /\
  (forall source, connecting ui = Some source -> source <> "" ->
     connecting (fst r) = None /\ selectedNode (fst r) = selectedNode ui /\
     (source <> nodeId -> snd r = Some (mkConnection (source ++ "-" ++ nodeId)%string source nodeId)) /\
     (source = nodeId -> snd r = None)) /\
  (connecting ui = None \/ connecting ui = Some "" ->
     snd r = None /\ connecting (fst r) = connecting ui /\
     (selectedNode ui = Some nodeId -> selectedNode (fst r) = None) /\
     (selectedNode ui <> Some nodeId -> selectedNode (fst r) = Some nodeId)) /\
  zoom (fst r) = zoom ui /\
  (forall source, source <> "" -> source <> nodeId ->
     snd (handleNodeClick nodeId (startConnecting source ui))
     = Some (mkConnection (source ++ "-" ++ nodeId)%string source nodeId)) /\
  snd (handleNodeClick nodeId (handleCanvasClick ui)) = None.
Proof.
  intros r. subst r.
  assert (Hstart : forall source, source <> "" -> source <> nodeId ->
            snd (handleNodeClick nodeId (startConnecting source ui))
            = Some (mkConnection (source ++ "-" ++ nodeId)%string source nodeId)).
  { intros source H1 H2. unfold handleNodeClick, startConnecting. cbn [connecting].
    destruct (String.eqb_spec source ""); [contradiction|].
    now destruct (String.eqb_spec source nodeId). }
  cut ((forall c, snd (handleNodeClick nodeId ui) = Some c ->
          sourceId c <> targetId c /\
          connecting ui = Some (sourceId c) /\ targetId c = nodeId /\
          connectionId c = (sourceId c ++ "-" ++ targetId c)%string) /\
       (forall source, connecting ui = Some source -> source <> "" ->
          connecting (fst (handleNodeClick nodeId ui)) = None /\
          selectedNode (fst (handleNodeClick nodeId ui)) = selectedNode ui /\
          (source <> nodeId ->
           snd (handleNodeClick nodeId ui)
           = Some (mkConnection (source ++ "-" ++ nodeId)%string source nodeId)) /\
          (source = nodeId -> snd (handleNodeClick nodeId ui) = None)) /\
       (connecting ui = None \/ connecting ui = Some "" ->
          snd (handleNodeClick nodeId ui) = None /\
          connecting (fst (handleNodeClick nodeId ui)) = connecting ui /\
          (selectedNode ui = Some nodeId ->
           selectedNode (fst (handleNodeClick nodeId ui)) = None) /\
          (selectedNode ui <> Some nodeId ->
           selectedNode (fst (handleNodeClick nodeId ui)) = Some nodeId)) /\
       zoom (fst (handleNodeClick nodeId ui)) = zoom ui).
  { intros (H1 & H2 & H3 & H4).
    split; [exact H1|]. split; [exact H2|]. split; [exact H3|]. split; [exact H4|].
    split; [exact Hstart | reflexivity]. }
  unfold handleNodeClick.
  assert (Hsel : forall sel : option string,
            (sel = Some nodeId ->
             (if decide (sel = Some nodeId) then None else Some nodeId) = None) /\
            (sel <> Some nodeId ->
             (if decide (sel = Some nodeId) then None else Some nodeId) = Some nodeId)).
  { intros sel. destruct (decide _); split; congruence. }
  destruct (connecting ui) as [source|] eqn:Hc.
  - destruct (String.eqb_spec source "") as [E|Hne].
    + subst source. cbn [fst snd selectedNode connecting zoom].
      split; [intros c [=]|]. split; [intros source [= <-] H; congruence|].
      split; [|reflexivity].
      intros _. split; [reflexivity|]. split; [reflexivity|]. apply Hsel.
    + destruct (String.eqb_spec source nodeId) as [E|Hn];
        cbn [fst snd selectedNode connecting zoom].
      * subst nodeId. split; [intros c [=]|]. split; [|split; [|reflexivity]].
        -- intros source' [= <-] _. repeat split; congruence.
        -- intros [H|H]; congruence.
      * split; [intros c [= <-]; cbn; repeat split; congruence|].
        split; [|split; [|reflexivity]].
        -- intros source' [= <-] _. repeat split; congruence.
        -- intros [H|H]; congruence.
  - cbn [fst snd selectedNode connecting zoom].
    split; [intros c [=]|]. split; [intros source [=]|].
    split; [|reflexivity].
    intros _. split; [reflexivity|]. split; [reflexivity|]. apply Hsel.
Qed.

(** X23: [handleZoom] keeps the zoom between 0.5 and 2: whenever
    [zoom + delta] is a number, the new zoom is at least 0.5 and at most
    2, and it is [zoom + delta] itself when that lies strictly between the
    two. *)
Theorem zoom_is_clamped (delta : float) (ui : Interaction) :
  PrimFloat.is_nan (zoom ui + delta) = false ->
  let z := zoom (handleZoom delta ui) in
  PrimFloat.leb 0.5 z = true /\ PrimFloat.leb z 2 = true /\
  (PrimFloat.ltb 0.5 (zoom ui + delta) = true ->
   PrimFloat.ltb (zoom ui + delta) 2 = true -> z = (zoom ui + delta)%float).
Proof.
  cbn [handleZoom zoom]. set (v := (zoom ui + delta)%float). intros Hv.
  assert (Hm : PrimFloat.is_nan (Math_max v 0.5) = false /\
               PrimFloat.leb 0.5 (Math_max v 0.5) = true /\
               (PrimFloat.ltb 0.5 v = true -> Math_max v 0.5 = v)).
  { unfold Math_max. rewrite Hv. cbn [orb].
    change (PrimFloat.is_nan 0.5) with false. cbv iota.
    destruct (PrimFloat.ltb v 0.5) eqn:E1.
    - split; [reflexivity|]. split; [reflexivity|]. intros H.
      exfalso. revert E1 H. rewrite !FloatAxioms.ltb_spec.
      unfold SpecFloat.SFltb. rewrite (FloatFacts.SFcompare_swap (Prim2SF v) (Prim2SF 0.5)).
      destruct (SpecFloat.SFcompare _ _) as [[]|]; cbn; congruence.
    - destruct (PrimFloat.ltb 0.5 v) eqn:E2.
      + split; [exact Hv|]. split; [now apply FloatFacts.ltb_leb | reflexivity].
      + destruct (PrimFloat.get_sign v).
        * split; [reflexivity|]. split; [reflexivity | discriminate].
        * split; [exact Hv|]. split; [now apply FloatFacts.not_ltb_leb | discriminate]. }
  destruct Hm as (Hn & Hlo & Hid). set (m := Math_max v 0.5) in *.
  unfold Js.Math_min. rewrite Hn. cbn [orb].
  change (PrimFloat.is_nan 2) with false. cbv iota.
  destruct (PrimFloat.ltb m 2) eqn:E1.
  - split; [exact Hlo|]. split; [now apply FloatFacts.ltb_leb | intros H _; exact (Hid H)].
  - assert (Hin : PrimFloat.ltb 0.5 v = true -> PrimFloat.ltb v 2 = true -> False).
    { intros H1 H2. rewrite (Hid H1) in E1. congruence. }
    destruct (PrimFloat.ltb 2 m) eqn:E2.
    + split; [reflexivity|]. split; [reflexivity|]. intros H1 H2. now destruct (Hin H1 H2).
    + destruct (PrimFloat.get_sign m).
      * split; [exact Hlo|]. split; [now apply FloatFacts.not_ltb_leb|].
        intros H1 H2. now destruct (Hin H1 H2).
      * split; [reflexivity|]. split; [reflexivity|]. intros H1 H2. now destruct (Hin H1 H2).
Qed.

(** *** The zoom buttons *)

Lemma seen_In (z : float) (l : list float) : seen z l = true -> In z l.
Proof.
  unfold seen. rewrite existsb_exists. intros (z' & Hin & E).
  apply FloatAxioms.Leibniz.eqb_spec in E. now subst.
Qed.

(** Both buttons lead from a zoom level to a zoom level. *)
Lemma zoom_levels_closed (b : ZoomButton) (z : float) :
  In z zoom_levels -> In (zoom_after b z) zoom_levels.
Proof.
  intros H. apply seen_In.
  assert (C : forallb (fun z => seen (zoom_after ZoomIn z) zoom_levels &&
                                seen (zoom_after ZoomOut z) zoom_levels) zoom_levels = true)
    by (vm_compute; reflexivity).
  rewrite forallb_forall in C. specialize (C z H).
  apply andb_prop in C. destruct b; tauto.
Qed.

(** X24: however the two zoom buttons are clicked, the zoom of the canvas
    stays a number between 0.5 and 2. *)
Theorem zoom_buttons_keep_zoom_in_range (clicks : list ZoomButton) :
  let ui := fold_left (fun ui b => zoom_onClick b ui) clicks initial_interaction in
  PrimFloat.leb 0.5 (zoom ui) = true /\ PrimFloat.leb (zoom ui) 2 = true.
Proof.
  assert (G : forall ui, In (zoom ui) zoom_levels ->
                In (zoom (fold_left (fun ui b => zoom_onClick b ui) clicks ui)) zoom_levels).
  { induction clicks as [|b clicks IH]; intros ui H; [exact H|].
    cbn [fold_left]. apply IH.
    replace (zoom (zoom_onClick b ui)) with (zoom_after b (zoom ui))
      by (now destruct b).
    now apply zoom_levels_closed. }
  intros ui. subst ui.
  assert (B : forallb (fun z => PrimFloat.leb 0.5 z && PrimFloat.leb z 2) zoom_levels = true)
    by (vm_compute; reflexivity).
  rewrite forallb_forall in B.
  assert (I : In (zoom initial_interaction) zoom_levels)
    by (apply seen_In; vm_compute; reflexivity).
  specialize (B _ (G initial_interaction I)).
  now apply andb_prop in B.
Qed.

(** X23 at a run: zooming in from the initial zoom, and zooming in at
    the upper bound. *)
Lemma zoom_in_from_one_and_from_two :
  zoom (handleZoom 0.1 initial_interaction) = 1.1%float /\
  PrimFloat.leb (zoom (handleZoom 0.1 (mkInteraction None None 2))) 2 = true.
Proof.
  split.
  - apply (zoom_is_clamped 0.1 initial_interaction); reflexivity.
  - apply (zoom_is_clamped 0.1 (mkInteraction None None 2)). reflexivity.
Defined.

End CanvasInteractionFacts.

(** ** [SecurityUtils.sanitizeInput] *)

Module SanitizeFacts.

Import SecurityUtils.

Lemma sublist_In {X : Type} (x : X) (l1 l2 : list X) :
  sublist l1 l2 -> In x l1 -> In x l2.
Proof.
  induction 1 as [|y l1 l2 _ IH|y l1 l2 _ IH]; cbn; intros H; auto.
  destruct H as [->|H]; auto.
Qed.

Lemma filter_sublist {X : Type} (f : X -> bool) (l : list X) :
  sublist (List.filter f l) l.
Proof.
  induction l as [|x l IH]; cbn; [constructor|].
  destruct (f x); now constructor.
Qed.

Lemma remove_matches_sublist (m : list N -> option nat) (input : list N) :
  forall skip, sublist (remove_matches m skip input) input.
Proof.
  induction input as [|c rest IH]; intros skip; cbn [remove_matches]; [constructor|].
  destruct skip as [|skip]; [|constructor; apply IH].
  destruct (m (c :: rest)) as [[|skip]|]; constructor; apply IH.
Qed.

Lemma trim_start_sublist (input : list N) : sublist (trim_start input) input.
Proof.
  induction input as [|c rest IH]; cbn; [constructor|].
  destruct (white_space c); [now constructor | reflexivity].
Qed.

Lemma trim_end_sublist (input : list N) : sublist (trim_end input) input.
Proof.
  induction input as [|c rest IH]; cbn; [constructor|].
  destruct (trim_end rest) as [|c' rest'].
  - destruct (white_space c); [constructor; exact IH | constructor; exact IH].
  - now constructor.
Qed.

(** What [trim_end] returns starts like its input. *)
Lemma trim_end_head (input : list N) (c : N) :
  head (trim_end input) = Some c -> head input = Some c.
Proof.
  destruct input as [|c0 rest]; cbn; [discriminate|].
  destruct (trim_end rest); [destruct (white_space c0)|]; cbn; congruence.
Qed.

Lemma trim_start_head (input : list N) (c : N) :
  head (trim_start input) = Some c -> white_space c = false.
Proof.
  induction input as [|c0 rest IH]; cbn; [discriminate|].
  destruct (white_space c0) eqn:E; [exact IH|]. cbn. congruence.
Qed.

Lemma trim_end_last (input : list N) (c : N) :
  last (trim_end input) = Some c -> white_space c = false.
Proof.
  induction input as [|c0 rest IH]; cbn; [discriminate|].
  destruct (trim_end rest) as [|c1 rest'] eqn:E.
  - destruct (white_space c0) eqn:Ew; cbn; congruence.
  - intros H. apply IH. exact H.
Qed.

(** X25: whatever the input, the sanitized text holds neither [<] nor
    [>], neither starts nor ends with white space, and is made of
    characters of the input in their order: nothing is added, replaced or
    moved. *)
Theorem sanitized_text_is_trimmed_and_free_of_angle_brackets (input : list N) :
  let output := sanitizeInput input in
  ~ In 60%N output /\ ~ In 62%N output /\
  sublist output input /\
  (forall c, head output = Some c -> white_space c = false) /\
  (forall c, last output = Some c -> white_space c = false).
Proof.
  intros output. subst output. unfold sanitizeInput, trim.
  set (f := fun c : N => negb ((c =? 60)%N || (c =? 62)%N)).
  set (l1 := List.filter f input).
  set (l2 := remove_matches match_javascript 0 l1).
  set (l3 := remove_matches match_on_handler 0 l2).
  assert (S1 : sublist (trim_end (trim_start l3)) l1).
  { etransitivity; [apply trim_end_sublist|].
    etransitivity; [apply trim_start_sublist|].
    etransitivity; apply remove_matches_sublist. }
  assert (Hf : forall c, In c (trim_end (trim_start l3)) -> f c = true).
  { intros c H. apply (sublist_In c _ _ S1) in H. unfold l1 in H.
    now apply List.filter_In in H. }
  split; [|split; [|split; [|split]]].
  - intros H. apply Hf in H. discriminate.
  - intros H. apply Hf in H. discriminate.
  - etransitivity; [exact S1 | apply filter_sublist].
  - intros c H. apply trim_end_head in H. now apply trim_start_head in H.
  - intros c. apply trim_end_last.
Qed.

(** *** Input the sanitizer leaves alone *)

Lemma starts_with_last (p c : N) (pattern input : list N) :
  starts_with (pattern ++ [p]) input = true ->
  (forall x, matches_ignoring_case p x = true -> x = c) ->
  In c input.
Proof.
  intros H Hp. revert input H. induction pattern as [|q pattern IH]; intros input H.
  - destruct input as [|x input]; cbn in H; [discriminate|].
    apply andb_prop in H. destruct H as [H _]. left. now apply Hp.
  - destruct input as [|x input]; cbn in H; [discriminate|].
    apply andb_prop in H. destruct H as [_ H]. right. now apply IH.
Qed.

Lemma match_javascript_colon (input : list N) :
  match_javascript input <> None -> In 58%N input.
Proof.
  unfold match_javascript. destruct (starts_with _ input) eqn:E; [|congruence].
  intros _. apply (starts_with_last 58 58 (code_units "javascript") input E).
  intros x H. unfold matches_ignoring_case in H. cbn in H.
  rewrite !orb_false_r in H. now apply N.eqb_eq in H.
Qed.

Lemma match_on_handler_equals (input : list N) :
  match_on_handler input <> None -> In 61%N input.
Proof.
  unfold match_on_handler. destruct input as [|o [|n rest]]; try congruence.
  destruct (_ && _); [|congruence].
  destruct (word_run rest) as [|run]; [congruence|].
  destruct (nth_error rest (S run)) as [c|] eqn:E; [|congruence].
  destruct (N.eqb_spec c 61) as [->|]; [|congruence].
  intros _. right. right. now apply nth_error_In in E.
Qed.

(** Where the pattern needs a character the input does not hold, nothing
    is removed. *)
Lemma remove_matches_without (m : list N -> option nat) (c : N) (input : list N) :
  (forall s, m s <> None -> In c s) ->
  ~ In c input ->
  remove_matches m 0 input = input.
Proof.
  intros Hm. induction input as [|x rest IH]; intros Hc; [reflexivity|].
  cbn [remove_matches]. destruct (m (x :: rest)) as [k|] eqn:E.
  - destruct Hc. apply Hm. congruence.
  - f_equal. apply IH. intros H. apply Hc. now right.
Qed.

Lemma filter_without (f : N -> bool) (input : list N) :
  (forall c, In c input -> f c = true) -> List.filter f input = input.
Proof.
  induction input as [|x rest IH]; intros H; [reflexivity|].
  cbn. rewrite (H x) by now left. f_equal. apply IH. intros c Hc. apply H. now right.
Qed.

Lemma trim_start_id (input : list N) :
  (forall c, head input = Some c -> white_space c = false) -> trim_start input = input.
Proof.
  destruct input as [|x rest]; [reflexivity|]. intros H. cbn.
  now rewrite (H x eq_refl).
Qed.

Lemma trim_end_id (input : list N) :
  (forall c, last input = Some c -> white_space c = false) -> trim_end input = input.
Proof.
  induction input as [|x rest IH]; [reflexivity|]. intros H. cbn [trim_end].
  destruct rest as [|y rest'].
  - cbn. now rewrite (H x eq_refl).
  - rewrite IH by (intros c Hc; apply H; exact Hc). reflexivity.
Qed.

Lemma remove_javascript_without (input : list N) :
  occurs (code_units "javascript:") input = false ->
  remove_matches match_javascript 0 input = input.
Proof.
  induction input as [|x rest IH]; intros H; [reflexivity|].
  cbn [occurs] in H. apply orb_false_elim in H. destruct H as [H1 H2].
  cbn [remove_matches]. unfold match_javascript at 1. rewrite H1.
  f_equal. now apply IH.
Qed.

(** X26: a text that holds none of [<], [>] and [=], in which
    [javascript:] does not occur in whatever letter case, and that neither
    starts nor ends with white space is returned as it is. *)
Theorem clean_text_is_returned_unchanged (input : list N) :
  (forall c, In c input -> c <> 60%N /\ c <> 62%N /\ c <> 61%N) ->
  occurs (code_units "javascript:") input = false ->
  (forall c, head input = Some c -> white_space c = false) ->
  (forall c, last input = Some c -> white_space c = false) ->
  sanitizeInput input = input.
Proof.
  intros Hc Hj Hh Hl. unfold sanitizeInput, trim.
  rewrite filter_without.
  2:{ intros c H. destruct (Hc c H) as (H1 & H2 & _).
      apply N.eqb_neq in H1, H2. now rewrite H1, H2. }
  rewrite (remove_javascript_without input Hj).
  rewrite (remove_matches_without match_on_handler 61 input match_on_handler_equals)
    by (intros H; apply Hc in H; tauto).
  rewrite (trim_start_id input Hh). exact (trim_end_id input Hl).
Qed.

Lemma remove_matches_keep (m : list N -> option nat) (c : N) (rest : list N) :
  m (c :: rest) = None ->
  remove_matches m 0 (c :: rest) = c :: remove_matches m 0 rest.
Proof. intros H. cbn [remove_matches]. now rewrite H. Qed.

Lemma remove_matches_drop (m : list N -> option nat) (c : N) (rest : list N) (k : nat) :
  m (c :: rest) = Some (S k) ->
  remove_matches m 0 (c :: rest) = remove_matches m k rest.
Proof. intros H. cbn [remove_matches]. now rewrite H. Qed.

(** X27: the passes are not repeated.  Where [javascript:] is written
    into the middle of another [javascript:], the pass removes the inner
    one and returns the outer one: for every text [t] without [<], [>],
    [:] and [=] that does not end with white space, the sanitized
    [javajavascript:script:t] is [javascript:t]. *)
Theorem nested_javascript_protocol_survives (t : list N) :
  (forall c, In c t -> c <> 60%N /\ c <> 62%N /\ c <> 58%N /\ c <> 61%N) ->
  (forall c, last t = Some c -> white_space c = false) ->
  sanitizeInput (code_units "javajavascript:script:" ++ t) = code_units "javascript:" ++ t.
Proof.
  intros Hc Hl. unfold sanitizeInput, trim.
  assert (Hf : List.filter (fun c : N => negb ((c =? 60)%N || (c =? 62)%N)) t = t).
  { apply filter_without. intros c H. destruct (Hc c H) as (H1 & H2 & _).
    apply N.eqb_neq in H1, H2. now rewrite H1, H2. }
  assert (H58 : ~ In 58%N t) by (intros H; apply Hc in H; tauto).
  assert (H61 : ~ In 61%N t) by (intros H; apply Hc in H; tauto).
  rewrite List.filter_app, Hf.
  change (List.filter _ (code_units "javajavascript:script:"))
    with (code_units "javajavascript:script:").
  change (code_units "javajavascript:script:" ++ t)
    with (106 :: 97 :: 118 :: 97 :: code_units "javascript:script:" ++ t)%N.
  do 4 (rewrite (remove_matches_keep match_javascript) by reflexivity).
  change (code_units "javascript:script:" ++ t)
    with (106 :: code_units "avascript:script:" ++ t)%N.
  rewrite (remove_matches_drop match_javascript _ _ 10) by reflexivity.
  change (remove_matches match_javascript 10 (code_units "avascript:script:" ++ t))
    with (remove_matches match_javascript 0 (code_units "script:" ++ t)).
  change (code_units "script:" ++ t)
    with (115 :: 99 :: 114 :: 105 :: 112 :: 116 :: 58 :: t)%N.
  do 7 (rewrite (remove_matches_keep match_javascript) by reflexivity).
  rewrite (remove_matches_without match_javascript 58 t match_javascript_colon H58).
  change (106 :: 97 :: 118 :: 97 :: 115 :: 99 :: 114 :: 105 :: 112 :: 116 :: 58 :: t)%N
    with (code_units "javascript:" ++ t).
  change (code_units "javascript:" ++ t)
    with (106 :: 97 :: 118 :: 97 :: 115 :: 99 :: 114 :: 105 :: 112 :: 116 :: 58 :: t)%N at 1.
  do 10 (rewrite (remove_matches_keep match_on_handler) by reflexivity).
  rewrite (remove_matches_keep match_on_handler) by (now destruct t).
  rewrite (remove_matches_without match_on_handler 61 t match_on_handler_equals H61).
  change (trim_start (106 :: ?l)%N) with (106 :: l)%N.
  apply trim_end_id. intros c H.
  change (last (58%N :: t) = Some c) in H.
  destruct t as [|x t'].
  - injection H as <-. reflexivity.
  - apply Hl. exact H.
Qed.

(** X26 and X27 at a run. *)
Lemma notion_url_is_unchanged :
  sanitizeInput (code_units "https://team.notion.site/page")
  = code_units "https://team.notion.site/page".
Proof.
  apply clean_text_is_returned_unchanged.
  - intros c H. cbn in H.
    repeat (destruct H as [<-|H]; [repeat split; discriminate|]). destruct H.
  - reflexivity.
  - intros c [= <-]. reflexivity.
  - intros c [= <-]. reflexivity.
Defined.

Lemma nested_protocol_with_alert :
  sanitizeInput (code_units "javajavascript:script:alert(1)") = code_units "javascript:alert(1)".
Proof.
  apply (nested_javascript_protocol_survives (code_units "alert(1)")).
  - intros c H. cbn in H.
    repeat (destruct H as [<-|H]; [repeat split; discriminate|]). destruct H.
  - intros c [= <-]. reflexivity.
Defined.

End SanitizeFacts.

(** ** [SecurityUtils]: encrypted storage, sessions and file types *)

Module SecureStoreFacts.

Import SecurityUtils.

Lemma substring_prefix (a b : string) :
  String.substring 0 (String.length a) (a ++ b)%string = a.
Proof.
  induction a as [|c a IH].
  - now destruct b.
  - change (String c (String.substring 0 (String.length a) (a ++ b)%string) = String c a).
    now rewrite IH.
Qed.

Lemma substring_from_app (a b : string) :
  substring_from (String.length a) (a ++ b)%string = b.
Proof. induction a as [|c a IH]; [reflexivity | exact IH]. Qed.

Section Storage.

Context {json : Js.JSON} {words : CryptoJSWords}.
Variable ToNumber : Js.value -> float.

(** [decryptData] undoes [encryptData]: the salt is found again in the
    first 32 characters of [data] and the cipher text behind them. *)
Lemma decryptData_encryptData (value : Js.value) (password : string) (salt iv : Words) :
  libraries_invert value password salt iv ->
  decryptData (EncryptedData_to_value (encryptData value password salt iv)) password
  = Js.Normal value.
Proof.
  intros (Hlen & (salt' & Hsalt & Hhex) & (iv' & Hiv & Hcipher) & Hjson & _).
  unfold decryptData, encryptData, EncryptedData_to_value.
  cbn [Js.get Js.assoc SecurityUtils.data SecurityUtils.iv String.eqb Ascii.eqb Bool.eqb].
  rewrite <- Hlen at 1. rewrite substring_prefix, Hsalt, Hiv, Hhex.
  rewrite <- Hlen. rewrite substring_from_app, Hcipher, Hjson. reflexivity.
Qed.

Lemma getItem_setItem (key : string) (value : Js.value) (password : string)
    (salt iv : Words) (storage : Storage) :
  libraries_invert value password salt iv ->
  getItem key password (setItem key value password salt iv storage) = Js.Normal value.
Proof.
  intros H. pose proof (decryptData_encryptData value password salt iv H) as Hd.
  destruct H as (_ & _ & _ & _ & Hjson & Hne).
  unfold getItem, setItem. cbv zeta. rewrite lookup_insert_eq.
  destruct (String.eqb_spec
              (Js.JSON_stringify
                 (EncryptedData_to_value (encryptData value password salt iv))) "")
    as [E|_]; [contradiction|].
  now rewrite Hjson, Hd.
Qed.

Lemma getItem_removeItem (key password : string) (storage : Storage) :
  getItem key password (removeItem key storage) = Js.Normal Js.Null.
Proof. unfold getItem, removeItem. now rewrite lookup_delete_eq. Qed.

(** X28: what [secureStore.setItem] stores, [getItem] returns under the
    same key and password, where the libraries invert themselves; the
    items under keys with another hash are left as they are, and after
    [removeItem] the answer is [null].  In the same way
    [websocket.parseMessage] returns the message [secureMessage] was
    given. *)
Theorem stored_item_is_read_back
    (key : string) (value : Js.value) (password : string) (salt iv : Words)
    (storage : Storage) :
  libraries_invert value password salt iv ->
  let storage' := setItem key value password salt iv storage in
  getItem key password storage' = Js.Normal value /\
  (forall key', SHA256 key' <> SHA256 key ->
     getItem key' password storage' = getItem key' password storage) /\
  getItem key password (removeItem key storage') = Js.Normal Js.Null /\
  parseMessage (secureMessage value password salt iv) password = Js.Normal value.
Proof.
  intros H storage'. subst storage'.
  split; [now apply getItem_setItem|]. split; [|split].
  - intros key' Hk. unfold getItem, setItem. cbv zeta.
    now rewrite lookup_insert_ne by congruence.
  - apply getItem_removeItem.
  - pose proof (decryptData_encryptData value password salt iv H) as Hd.
    destruct H as (_ & _ & _ & _ & Hjson & _).
    unfold parseMessage, secureMessage. now rewrite Hjson, Hd.
Qed.

(** X29: a session created at [timestamp] is valid at every time up to
    and including [timestamp] plus 24 hours.  Validated later it is
    rejected and deleted; a deleted session is rejected. *)
Theorem session_is_valid_for_a_day
    (userData : Js.value) (password : string) (sessionId : Words) (timestamp : float)
    (salt iv : Words) (storage : Storage) (now : float) :
  let expiresAt := (timestamp + 24 * 60 * 60 * 1000)%float in
  let sessionData :=
    Js.Obj [("id", Js.Str (Hex_stringify sessionId)); ("userData", userData);
            ("timestamp", Js.Num timestamp); ("expiresAt", Js.Num expiresAt)] in
  libraries_invert sessionData password salt iv ->
  let storage' := session_create userData password sessionId timestamp salt iv storage in
  session_validate ToNumber password now storage' =
    (if PrimFloat.ltb expiresAt now then (false, session_destroy storage')
     else (true, storage')) /\
  session_validate ToNumber password now (session_destroy storage')
  = (false, session_destroy storage').
Proof.
  intros expiresAt sessionData H storage'. subst storage'.
  unfold session_create. fold expiresAt. fold sessionData.
  split.
  - unfold session_validate.
    rewrite (getItem_setItem "session" sessionData password salt iv storage H).
    reflexivity.
  - unfold session_validate, session_destroy. rewrite getItem_removeItem. reflexivity.
Qed.

End Storage.

(** X28 and X29 at a run, with a cipher that leaves the text as it is. *)
Lemma preferences_are_read_back :
  let value := Js.Obj [("theme", Js.Str "dark")] in
  let encrypted := Js.Obj [("data", Js.Str (Examples.salt32 ++ "plain")%string);
                           ("iv", Js.Str "0f0e")] in
  let json := Examples.two_text_json "encrypted" encrypted "plain" value in
  getItem (json := json) (words := Examples.plain_words) "prefs" "pw"
    (setItem (json := json) (words := Examples.plain_words) "prefs" value "pw"
       Examples.salt32 "0f0e" ∅)
  = Js.Normal value.
Proof.
  intros value encrypted json.
  apply (stored_item_is_read_back (json := json) (words := Examples.plain_words)
           "prefs" value "pw" Examples.salt32 "0f0e" ∅).
  repeat split; try reflexivity; try discriminate.
  - exists Examples.salt32. split; reflexivity.
  - exists "0f0e". split; reflexivity.
Defined.

Lemma session_of_a_day :
  let t0 := 1700000000000%float in
  let sessionData := Js.Obj [("id", Js.Str "5e55"); ("userData", Js.Str "ann");
                             ("timestamp", Js.Num t0);
                             ("expiresAt", Js.Num 1700086400000)] in
  let encrypted := Js.Obj [("data", Js.Str (Examples.salt32 ++ "plain")%string);
                           ("iv", Js.Str "0f0e")] in
  let json := Examples.two_text_json "encrypted" encrypted "plain" sessionData in
  let storage := session_create (json := json) (words := Examples.plain_words)
                   (Js.Str "ann") "pw" "5e55" t0 Examples.salt32 "0f0e" ∅ in
  fst (session_validate (json := json) (words := Examples.plain_words)
         Examples.number_or_nan "pw" 1700086400000 storage) = true /\
  session_validate (json := json) (words := Examples.plain_words)
    Examples.number_or_nan "pw" 1700086400001 storage = (false, ∅).
Proof.
  intros t0 sessionData encrypted json storage.
  assert (H : libraries_invert (json := json) (words := Examples.plain_words)
                sessionData "pw" Examples.salt32 "0f0e").
  { repeat split; try reflexivity; try discriminate.
    - exists Examples.salt32. split; reflexivity.
    - exists "0f0e". split; reflexivity. }
  subst storage. split.
  - rewrite (proj1 (session_is_valid_for_a_day (json := json) (words := Examples.plain_words)
                      Examples.number_or_nan (Js.Str "ann") "pw" "5e55" t0
                      Examples.salt32 "0f0e" ∅ 1700086400000 H)).
    reflexivity.
  - rewrite (proj1 (session_is_valid_for_a_day (json := json) (words := Examples.plain_words)
                      Examples.number_or_nan (Js.Str "ann") "pw" "5e55" t0
                      Examples.salt32 "0f0e" ∅ 1700086400001 H)).
    vm_compute. reflexivity.
Defined.

(** *** [validateFileType] *)

Lemma prefix_app (a b : string) :
  String.prefix a b = true <-> exists post, b = (a ++ post)%string.
Proof.
  revert b. induction a as [|c a IH]; intros b.
  - split; [intros _; now exists b | intros _; now destruct b].
  - destruct b as [|d b]; cbn [String.prefix].
    + split; [discriminate | intros [post H]; discriminate].
    + destruct (Ascii.ascii_dec c d) as [->|Hne].
      * rewrite IH. split; intros [post H]; exists post.
        -- now rewrite H.
        -- now injection H.
      * split; [discriminate|]. intros [post H]. injection H as -> _. contradiction.
Qed.

Lemma includes_occurs (haystack needle : string) :
  includes haystack needle = true <->
  exists pre post, haystack = (pre ++ needle ++ post)%string.
Proof.
  induction haystack as [|c haystack IH].
  - cbn [includes]. rewrite orb_false_r, prefix_app. split.
    + intros [post H]. now exists "", post.
    + intros (pre & post & H). destruct pre; [now exists post | discriminate].
  - cbn [includes]. rewrite orb_true_iff, prefix_app, IH. split.
    + intros [[post H] | (pre & post & H)].
      * now exists "", post.
      * exists (String c pre), post. now rewrite H.
    + intros (pre & post & H). destruct pre as [|d pre].
      * left. now exists post.
      * right. exists pre, post. now injection H.
Qed.

(** X30: a file type is accepted exactly when one of the allowed texts
    occurs somewhere in its lower-case form: the test is for a part of
    the type, not for the type.  So an allowed text of no character
    accepts every type, and no type is accepted when nothing is
    allowed. *)
Theorem file_type_is_accepted_when_an_allowed_text_occurs
    (toLowerCase : string -> string) (fileType : string) (allowedTypes : list string) :
  (validateFileType toLowerCase fileType allowedTypes = true <->
   exists type pre post,
     In type allowedTypes /\ toLowerCase fileType = (pre ++ type ++ post)%string) /\
  (In "" allowedTypes -> validateFileType toLowerCase fileType allowedTypes = true) /\
  validateFileType toLowerCase fileType [] = false.
Proof.
  assert (E : validateFileType toLowerCase fileType allowedTypes = true <->
              exists type pre post,
                In type allowedTypes /\ toLowerCase fileType = (pre ++ type ++ post)%string).
  { unfold validateFileType. rewrite existsb_exists. split.
    - intros (type & Hin & H). apply includes_occurs in H.
      destruct H as (pre & post & H). now exists type, pre, post.
    - intros (type & pre & post & Hin & H). exists type. split; [exact Hin|].
      apply includes_occurs. now exists pre, post. }
  split; [exact E|]. split; [|reflexivity].
  intros H. apply E. now exists "", "", (toLowerCase fileType).
Qed.

Lemma image_accepts_every_type_that_mentions_it :
  validateFileType Examples.ascii_lower "text/x-IMAGE-list" ["image"; "pdf"] = true /\
  validateFileType Examples.ascii_lower "image/png" ["IMAGE/PNG"] = false.
Proof. split; reflexivity. Qed.

End SecureStoreFacts.
